(** * AddressCmdTool: validation, normalisation, command generation,
      file import and manual input

    A shallow embedding of [src/AddressCmdTool.py] and of the parts of the
    Python 3.11 runtime it calls ([str] methods, the regular expression
    behind [NAME_PATTERN], the [ipaddress] module), followed by the
    properties of the tool proved over that embedding.

    Conventions.
    - A Python [str] is the list of its Unicode code points.
    - A Python [int] is a [Z].
    - A function that may raise returns a [res]: [Ok v] when it returns [v],
      [Raise e] when it raises [e].
    - Widgets whose content the tool reads or writes are fields of a record
      that is passed along explicitly.
    - What a run finds outside the program is a parameter: the content of
      the files, the answers of the file dialogs, the text of an input
      box. *)

From Stdlib Require Import List NArith ZArith Lia Bool String Ascii.
Import ListNotations.

(* ================================================================== *)
(** * Python strings *)
(* ================================================================== *)

Module Py.

Definition char := N.
Definition str := list char.

(** The source file is UTF-8; a literal denotes the code points its bytes
    decode to. *)
Fixpoint utf8_decode (bs : list N) : str :=
  match bs with
  | [] => []
  | b0 :: r0 =>
      if (b0 <? 0x80)%N then b0 :: utf8_decode r0
      else
        match r0 with
        | [] => []
        | b1 :: r1 =>
            if (b0 <? 0xE0)%N
            then ((b0 - 0xC0) * 0x40 + (b1 - 0x80))%N :: utf8_decode r1
            else
              match r1 with
              | [] => []
              | b2 :: r2 =>
                  if (b0 <? 0xF0)%N
                  then ((b0 - 0xE0) * 0x1000 + (b1 - 0x80) * 0x40
                        + (b2 - 0x80))%N :: utf8_decode r2
                  else
                    match r2 with
                    | [] => []
                    | b3 :: r3 =>
                        ((b0 - 0xF0) * 0x40000 + (b1 - 0x80) * 0x1000
                         + (b2 - 0x80) * 0x40 + (b3 - 0x80))%N
                          :: utf8_decode r3
                    end
              end
        end
  end.

Definition lit (s : string) : str :=
  utf8_decode (map N_of_ascii (list_ascii_of_string s)).

(** Named characters. *)
Definition LF : char := 10%N.
Definition SPACE : char := 32%N.
Definition DQUOTE : char := 34%N.
Definition PERCENT : char := 37%N.
Definition COMMA : char := 44%N.
Definition DOT : char := 46%N.
Definition SLASH : char := 47%N.
Definition ZERO : char := 48%N.
Definition COLON : char := 58%N.

(** [a == b] on strings. *)
Fixpoint eqb (a b : str) : bool :=
  match a, b with
  | [], [] => true
  | x :: a', y :: b' => (x =? y)%N && eqb a' b'
  | _, _ => false
  end.

(** [not s]: the empty string is the only falsy one. *)
Definition is_empty (s : str) : bool :=
  match s with [] => true | _ :: _ => false end.

(** [c in s] for a one-character [c]. *)
Definition contains (c : char) (s : str) : bool :=
  existsb (N.eqb c) s.

(** Whitespace as [str.isspace], [str.strip] and the regular expression
    class [\s] see it (all three test [Py_UNICODE_ISSPACE]). *)
Definition isspace (c : char) : bool :=
  ((0x09 <=? c) && (c <=? 0x0D) || (0x1C <=? c) && (c <=? 0x20)
   || (c =? 0x85) || (c =? 0xA0) || (c =? 0x1680)
   || (0x2000 <=? c) && (c <=? 0x200A)
   || (c =? 0x2028) || (c =? 0x2029) || (c =? 0x202F) || (c =? 0x205F)
   || (c =? 0x3000))%N.

(** [s.lstrip(chars)], [s.rstrip(chars)], with the set of characters to
    remove given as a predicate. *)
Fixpoint lstrip_of (p : char -> bool) (s : str) : str :=
  match s with
  | [] => []
  | c :: s' => if p c then lstrip_of p s' else s
  end.

Definition rstrip_of (p : char -> bool) (s : str) : str :=
  rev (lstrip_of p (rev s)).

(** [s.strip()] *)
Definition strip (s : str) : str := rstrip_of isspace (lstrip_of isspace s).

(** [s.rstrip("\n")] *)
Definition rstrip_LF (s : str) : str := rstrip_of (N.eqb LF) s.

(** [s.split(sep)] for a one-character separator: never empty, and the
    pieces do not contain [sep]. *)
Fixpoint split (sep : char) (s : str) : list str :=
  match s with
  | [] => [[]]
  | c :: s' =>
      if (c =? sep)%N then [] :: split sep s'
      else
        match split sep s' with
        | [] => [[c]]
        | p :: ps => (c :: p) :: ps
        end
  end.

(** [sep.join(parts)] *)
Fixpoint join (sep : str) (parts : list str) : str :=
  match parts with
  | [] => []
  | [p] => p
  | p :: ps => p ++ sep ++ join sep ps
  end.

(** [s.partition(sep)] for a one-character separator: the text before the
    first [sep], whether [sep] was found, and the text after it. *)
Fixpoint partition (sep : char) (s : str) : str * bool * str :=
  match s with
  | [] => ([], false, [])
  | c :: s' =>
      if (c =? sep)%N then ([], true, s')
      else let '(a, found, b) := partition sep s' in (c :: a, found, b)
  end.

(** [s.isascii()] *)
Definition isascii (s : str) : bool := forallb (fun c => (c <? 0x80)%N) s.

Definition is_decimal_digit (c : char) : bool :=
  ((0x30 <=? c) && (c <=? 0x39))%N.

(** [s.isdigit()] on an ASCII string (the library only calls it behind
    [s.isascii() and ...]): non-empty and made of '0'..'9'. *)
Definition isdigit (s : str) : bool :=
  negb (is_empty s) && forallb is_decimal_digit s.

(** Value of a digit in bases up to 16, both letter cases. *)
Definition digit_value (c : char) : Z :=
  if is_decimal_digit c then (Z.of_N c - 0x30)%Z
  else if ((0x61 <=? c) && (c <=? 0x66))%N then (Z.of_N c - 0x61 + 10)%Z
  else (Z.of_N c - 0x41 + 10)%Z.

Definition horner (base : Z) (s : str) : Z :=
  fold_left (fun acc c => (acc * base + digit_value c)%Z) s 0%Z.

(** Digits of a non-negative [int] in a base, most significant first; the
    fuel bounds the number of digits. *)
Fixpoint digits_of (fuel : nat) (base n : Z) (digit : Z -> char) : str :=
  match fuel with
  | O => []
  | S fuel' =>
      if (n <? base)%Z then [digit n]
      else digits_of fuel' base (n / base)%Z digit ++ [digit (n mod base)%Z]
  end.

Definition decimal_digit (d : Z) : char := (0x30 + Z.to_N d)%N.

Definition hex_digit (d : Z) : char :=
  if (d <? 10)%Z then (0x30 + Z.to_N d)%N else (0x61 + Z.to_N (d - 10))%N.

(** [int(s, base)] on a string of digits of the base (every caller checks
    the characters first): ValueError, here [None], on the empty string
    and, in base 10, on more digits than the interpreter's limit of 4300. *)
Definition int_of_digits (base : Z) (s : str) : option Z :=
  if is_empty s then None
  else if (base =? 10)%Z && (4300 <? Z.of_nat (List.length s))%Z then None
  else Some (horner base s).

(** [n.bit_length()] *)
Definition bit_length (n : Z) : Z :=
  if (n =? 0)%Z then 0%Z else (Z.log2 (Z.abs n) + 1)%Z.

(** [s.zfill(width)] on a string without sign. *)
Definition zfill (width : nat) (s : str) : str :=
  repeat ZERO (width - List.length s) ++ s.

(** [s[i:j]] for [0 <= i <= j]. *)
Definition slice (s : str) (i j : nat) : str := firstn (j - i) (skipn i s).

(** [str(n)] for [n >= 0]. *)
Definition str_of_int (n : Z) : str :=
  digits_of (S (Z.to_nat (Z.log2 n))) 10 n decimal_digit.

(** ['%x' % n] for [n >= 0]. *)
Definition hex_of_int (n : Z) : str :=
  digits_of (S (Z.to_nat (Z.log2 n))) 16 n hex_digit.

End Py.

(* ================================================================== *)
(** * Exceptions *)
(* ================================================================== *)

(** The exceptions the tool raises or lets through, with [str(e)]. *)
Inductive exn : Type :=
| ValueError (msg : Py.str)
| OSError (msg : Py.str).

Definition exn_str (e : exn) : Py.str :=
  match e with ValueError msg => msg | OSError msg => msg end.

Inductive res (E A : Type) : Type :=
| Ok (a : A)
| Raise (e : E).

Arguments Ok {E A} a.
Arguments Raise {E A} e.

Definition bind {E A B} (m : res E A) (k : A -> res E B) : res E B :=
  match m with Ok a => k a | Raise e => Raise e end.

Notation "x <- m ;; k" := (bind m (fun x => k))
  (at level 61, m at next level, right associativity).
Notation "' pat <- m ;; k" := (bind m (fun x => match x with pat => k end))
  (at level 61, pat pattern, m at next level, right associativity).

Definition succeeds {E A} (m : res E A) : bool :=
  match m with Ok _ => true | Raise _ => false end.

(** [try: m except <caught>: handler]; an exception that is not caught
    goes on. *)
Definition try_except {E A} (m : res E A) (caught : E -> bool)
    (handler : E -> res E A) : res E A :=
  match m with
  | Ok a => Ok a
  | Raise e => if caught e then handler e else Raise e
  end.

(* ================================================================== *)
(** * Regular expressions: the constructs of [NAME_PATTERN] *)
(* ================================================================== *)

Module Re.
Import Py.

Inductive item : Type :=
| Caret                          (* ^ *)
| Dollar                         (* $ *)
| Plus (cls : char -> bool).     (* [...]+ , greedy, backtracking *)

(** [$] without MULTILINE: at the end of the string, or just before a
    newline that is the last character. *)
Definition at_dollar (rest : str) : bool :=
  match rest with
  | [] => true
  | [c] => (c =? LF)%N
  | _ => false
  end.

(** One or more characters of [cls], then the continuation [k] on what is
    left: the longest run is tried first, shorter ones on failure. *)
Fixpoint plus (cls : char -> bool) (k : str -> bool) (s : str) : bool :=
  match s with
  | [] => false
  | c :: s' => cls c && (plus cls k s' || k s')
  end.

(** [pattern.match(s)]: the pattern matches a prefix of [s]; [at_start]
    says whether no character was consumed yet. *)
Fixpoint matches (p : list item) (at_start : bool) (s : str) : bool :=
  match p with
  | [] => true
  | Caret :: p' => at_start && matches p' at_start s
  | Dollar :: p' => at_dollar s && matches p' at_start s
  | Plus cls :: p' => plus cls (matches p' false) s
  end.

Definition match_ (p : list item) (s : str) : bool := matches p true s.

End Re.

(* ================================================================== *)
(** * The tool: names and command generation *)
(* ================================================================== *)

Import Py.

(** [[^\s/]] *)
Definition name_class (c : char) : bool :=
  negb (isspace c || (c =? SLASH)%N).

(** [NAME_PATTERN = re.compile(r'^[^\s/]+$')] *)
Definition NAME_PATTERN : list Re.item :=
  [Re.Caret; Re.Plus name_class; Re.Dollar].

(** The default of [what] in [validate_name]. *)
Definition what_name : str := lit "名称".

(** [f'{what} "{name}" 非法：不能包含空格或 "/"'] *)
Definition invalid_name_msg (what name : str) : str :=
  what ++ lit " " ++ [DQUOTE] ++ name ++ [DQUOTE]
       ++ lit " 非法：不能包含空格或 " ++ [DQUOTE] ++ lit "/" ++ [DQUOTE].

Definition validate_name (name what : str) : res exn unit :=
  if negb (Re.match_ NAME_PATTERN name)
  then Raise (ValueError (invalid_name_msg what name))
  else Ok tt.

Definition what_member : str := lit "成员名".

Definition validate_member_name (name : str) : res exn unit :=
  validate_name name what_member.

Definition gen_address_cmd (platform name cidr : str) : str :=
  if Py.eqb platform (lit "Firewall")
  then lit "set address " ++ name ++ lit " ip-netmask " ++ cidr
  else lit "set shared address " ++ name ++ lit " ip-netmask " ++ cidr.

(** The dialect word of [gen_group_cmd]. *)
Definition group_prefix (platform : str) : str :=
  if Py.eqb platform (lit "Firewall")
  then lit "set address-group" else lit "set shared address-group".

(** [f"{prefix} {group_name} static {m}"] *)
Definition group_line (prefix group_name m : str) : str :=
  prefix ++ lit " " ++ group_name ++ lit " static " ++ m.

(** The [for m in members] loop of [gen_group_cmd], [cmds] being the list
    built so far. *)
Fixpoint gen_group_loop (prefix group_name : str) (members : list str)
    (cmds : list str) : res exn (list str) :=
  match members with
  | [] => Ok cmds
  | m :: rest =>
      let m := strip m in
      if negb (is_empty m) then
        _ <- validate_member_name m ;;
        gen_group_loop prefix group_name rest
          (cmds ++ [group_line prefix group_name m])
      else gen_group_loop prefix group_name rest cmds
  end.

Definition gen_group_cmd (platform group_name : str) (members : list str)
    : res exn (list str) :=
  let cmds := [] in
  let prefix := group_prefix platform in
  gen_group_loop prefix group_name members cmds.

(* ================================================================== *)
(** * The [ipaddress] module of the standard library (CPython 3.11)

    The functions [ip_address] and [ip_network] go through when given a
    string.  An address object is its integer (and, for IPv6, its scope
    id); a network object is its network address and prefix length.  The
    text of the library's exceptions is dropped: the tool replaces it.
    [_netmask_cache] memoises [_make_netmask], a function of its argument
    alone, and is left out. *)
(* ================================================================== *)

Module ipaddress.
Import Py.

Local Open Scope Z_scope.

(** [AddressValueError] and [NetmaskValueError] are subclasses of
    [ValueError]. *)
Inductive error : Type :=
| ValueError
| AddressValueError
| NetmaskValueError.

Definition is_AddressValueError (e : error) : bool :=
  match e with AddressValueError => true | _ => false end.

Definition is_NetmaskValueError (e : error) : bool :=
  match e with NetmaskValueError => true | _ => false end.

(** [except ValueError], which catches the subclasses too. *)
Definition is_ValueError (e : error) : bool := true.

(** [except (AddressValueError, NetmaskValueError)] *)
Definition is_Address_or_Netmask (e : error) : bool :=
  match e with ValueError => false | _ => true end.

Definition IPV4LENGTH : Z := 32.
Definition IPV6LENGTH : Z := 128.

Inductive ip_addr : Type :=
| V4 (_ip : Z)
| V6 (_ip : Z) (_scope_id : option str).

Definition version (a : ip_addr) : Z :=
  match a with V4 _ => 4 | V6 _ _ => 6 end.

(** [int(a)] *)
Definition int_of_address (a : ip_addr) : Z :=
  match a with V4 ip => ip | V6 ip _ => ip end.

Record network : Type := Network {
  network_address : ip_addr;
  netmask : Z;
  prefixlen : Z
}.

(** The second component of [_split_addr_prefix]: the text after the '/',
    or the integer [_max_prefixlen] when there is none. *)
Inductive mask_arg : Type :=
| MaskStr (s : str)
| MaskInt (n : Z).

Fixpoint mapM {A B : Type} (f : A -> res error B) (l : list A)
    : res error (list B) :=
  match l with
  | [] => Ok []
  | x :: l' => y <- f x ;; ys <- mapM f l' ;; Ok (y :: ys)
  end.

(** ** Module-level helpers *)

Definition _split_optional_netmask (address : str) : res error (list str) :=
  let addr := split SLASH address in
  if (2 <? List.length addr)%nat then Raise AddressValueError else Ok addr.

Definition _count_righthand_zero_bits (number bits : Z) : Z :=
  if number =? 0 then bits
  else Z.min bits (bit_length (Z.land (Z.lnot number) (number - 1))).

(** ** [_IPAddressBase], with the class attributes as parameters *)

Section IPAddressBase.

Variable _max_prefixlen : Z.
Variable _ALL_ONES : Z.

Definition _ip_int_from_prefix (prefixlen : Z) : Z :=
  Z.lxor _ALL_ONES (Z.shiftr _ALL_ONES prefixlen).

Definition _prefix_from_ip_int (ip_int : Z) : res error Z :=
  let trailing_zeroes := _count_righthand_zero_bits ip_int _max_prefixlen in
  let prefixlen := _max_prefixlen - trailing_zeroes in
  let leading_ones := Z.shiftr ip_int trailing_zeroes in
  let all_ones := Z.shiftl 1 prefixlen - 1 in
  if negb (leading_ones =? all_ones) then Raise ValueError
  else Ok prefixlen.

Definition _prefix_from_prefix_string (prefixlen_str : str) : res error Z :=
  if negb (isascii prefixlen_str && isdigit prefixlen_str)
  then Raise NetmaskValueError
  else
    match int_of_digits 10 prefixlen_str with
    | None => Raise NetmaskValueError
    | Some prefixlen =>
        if negb ((0 <=? prefixlen) && (prefixlen <=? _max_prefixlen))
        then Raise NetmaskValueError
        else Ok prefixlen
    end.

Variable _ip_int_from_string : str -> res error Z.

Definition _prefix_from_ip_string (ip_str : str) : res error Z :=
  ip_int <- try_except (_ip_int_from_string ip_str) is_AddressValueError
              (fun _ => Raise NetmaskValueError) ;;
  match _prefix_from_ip_int ip_int with
  | Ok prefixlen => Ok prefixlen
  | Raise _ =>
      let ip_int := Z.lxor ip_int _ALL_ONES in
      try_except (_prefix_from_ip_int ip_int) is_ValueError
        (fun _ => Raise NetmaskValueError)
  end.

Definition _split_addr_prefix (address : str) : res error (str * mask_arg) :=
  address <- _split_optional_netmask address ;;
  match address with
  | [addr; mask] => Ok (addr, MaskStr mask)
  | _ => Ok (hd [] address, MaskInt _max_prefixlen)
  end.

End IPAddressBase.

(** ** [_BaseV4] and [IPv4Address] *)

Module BaseV4.

Definition _ALL_ONES : Z := 2 ^ IPV4LENGTH - 1.
Definition _max_prefixlen : Z := IPV4LENGTH.

Definition _parse_octet (octet_str : str) : res error Z :=
  if is_empty octet_str then Raise ValueError
  else if negb (isascii octet_str && isdigit octet_str) then Raise ValueError
  else if (3 <? List.length octet_str)%nat then Raise ValueError
  else if negb (Py.eqb octet_str (lit "0"))
          && (hd ZERO octet_str =? ZERO)%N then Raise ValueError
  else
    match int_of_digits 10 octet_str with
    | None => Raise ValueError
    | Some octet_int =>
        if 255 <? octet_int then Raise ValueError else Ok octet_int
    end.

(** [int.from_bytes(bs, 'big')] *)
Definition int_from_bytes (bs : list Z) : Z :=
  fold_left (fun acc b => acc * 256 + b) bs 0.

Definition _ip_int_from_string (ip_str : str) : res error Z :=
  if is_empty ip_str then Raise AddressValueError
  else
    let octets := split DOT ip_str in
    if negb (List.length octets =? 4)%nat then Raise AddressValueError
    else
      try_except (bs <- mapM _parse_octet octets ;; Ok (int_from_bytes bs))
        is_ValueError (fun _ => Raise AddressValueError).

(** [ip_int.to_bytes(4, 'big')] *)
Definition to_bytes4 (ip_int : Z) : list Z :=
  [Z.land (Z.shiftr ip_int 24) 255; Z.land (Z.shiftr ip_int 16) 255;
   Z.land (Z.shiftr ip_int 8) 255; Z.land ip_int 255].

Definition _string_from_ip_int (ip_int : Z) : str :=
  join (lit ".") (map str_of_int (to_bytes4 ip_int)).

Definition _make_netmask (arg : mask_arg) : res error (Z * Z) :=
  prefixlen <-
    match arg with
    | MaskInt prefixlen =>
        if negb ((0 <=? prefixlen) && (prefixlen <=? _max_prefixlen))
        then Raise NetmaskValueError else Ok prefixlen
    | MaskStr arg =>
        try_except (_prefix_from_prefix_string _max_prefixlen arg)
          is_NetmaskValueError
          (fun _ => _prefix_from_ip_string _max_prefixlen _ALL_ONES
                      _ip_int_from_string arg)
    end ;;
  let netmask := _ip_int_from_prefix _ALL_ONES prefixlen in
  Ok (netmask, prefixlen).

End BaseV4.

(** [IPv4Address(address)] for a string: the object's [_ip]. *)
Definition IPv4Address (address : str) : res error Z :=
  let addr_str := address in
  if contains SLASH addr_str then Raise AddressValueError
  else BaseV4._ip_int_from_string addr_str.

(** [IPv4Network(address, strict)] for a string. *)
Definition IPv4Network (address : str) (strict : bool) : res error network :=
  '(addr, mask) <- _split_addr_prefix BaseV4._max_prefixlen address ;;
  network_address <- IPv4Address addr ;;
  '(netmask, _prefixlen) <- BaseV4._make_netmask mask ;;
  let packed := network_address in
  if negb (Z.land packed netmask =? packed) then
    if strict then Raise ValueError
    else Ok (Network (V4 (Z.land packed netmask)) netmask _prefixlen)
  else Ok (Network (V4 network_address) netmask _prefixlen).

(** ** [_BaseV6] and [IPv6Address] *)

Module BaseV6.

Definition _ALL_ONES : Z := 2 ^ IPV6LENGTH - 1.
Definition _HEXTET_COUNT : nat := 8.
Definition _max_prefixlen : Z := IPV6LENGTH.

(** Membership in [_HEX_DIGITS = frozenset('0123456789ABCDEFabcdef')]. *)
Definition in_HEX_DIGITS (c : char) : bool :=
  (is_decimal_digit c || (0x41 <=? c) && (c <=? 0x46)
   || (0x61 <=? c) && (c <=? 0x66))%N.

Definition _make_netmask (arg : mask_arg) : res error (Z * Z) :=
  prefixlen <-
    match arg with
    | MaskInt prefixlen =>
        if negb ((0 <=? prefixlen) && (prefixlen <=? _max_prefixlen))
        then Raise NetmaskValueError else Ok prefixlen
    | MaskStr arg => _prefix_from_prefix_string _max_prefixlen arg
    end ;;
  let netmask := _ip_int_from_prefix _ALL_ONES prefixlen in
  Ok (netmask, prefixlen).

Definition _parse_hextet (hextet_str : str) : res error Z :=
  if negb (forallb in_HEX_DIGITS hextet_str) then Raise ValueError
  else if (4 <? List.length hextet_str)%nat then Raise ValueError
  else
    match int_of_digits 16 hextet_str with
    | None => Raise ValueError
    | Some n => Ok n
    end.

(** [for i in range(1, len(parts) - 1)]: the search for the one '::'. *)
Fixpoint skip_index_loop (parts : list str) (indices : list nat)
    (skip_index : option nat) : res error (option nat) :=
  match indices with
  | [] => Ok skip_index
  | i :: indices' =>
      if is_empty (nth i parts []) then
        match skip_index with
        | Some _ => Raise AddressValueError
        | None => skip_index_loop parts indices' (Some i)
        end
      else skip_index_loop parts indices' skip_index
  end.

(** [for ... : ip_int <<= 16; ip_int |= cls._parse_hextet(parts[i])] over
    the parts [ps]. *)
Fixpoint hextets_loop (ps : list str) (ip_int : Z) : res error Z :=
  match ps with
  | [] => Ok ip_int
  | part :: ps' =>
      let ip_int := Z.shiftl ip_int 16 in
      h <- _parse_hextet part ;;
      hextets_loop ps' (Z.lor ip_int h)
  end.

Definition _ip_int_from_string (ip_str : str) : res error Z :=
  if is_empty ip_str then Raise AddressValueError
  else
    let parts := split COLON ip_str in
    let _min_parts := 3%nat in
    if (List.length parts <? _min_parts)%nat then Raise AddressValueError
    else
      parts <-
        (if contains DOT (last parts [])
         then
           ipv4_int <-
             try_except
               (if contains SLASH (last parts []) then Raise AddressValueError
                else BaseV4._ip_int_from_string (last parts []))
               is_AddressValueError (fun _ => Raise AddressValueError) ;;
           Ok (removelast parts
                 ++ [hex_of_int (Z.land (Z.shiftr ipv4_int 16) 0xFFFF)]
                 ++ [hex_of_int (Z.land ipv4_int 0xFFFF)])
         else Ok parts) ;;
      let _max_parts := (_HEXTET_COUNT + 1)%nat in
      if (_max_parts <? List.length parts)%nat then Raise AddressValueError
      else
        skip_index <-
          skip_index_loop parts (seq 1 (List.length parts - 1 - 1)) None ;;
        '(parts_hi, parts_lo, parts_skipped) <-
          match skip_index with
          | Some skip_index =>
              let parts_hi := skip_index in
              let parts_lo := (List.length parts - skip_index - 1)%nat in
              parts_hi <-
                (if is_empty (hd [] parts) then
                   let parts_hi := (parts_hi - 1)%nat in
                   if negb (parts_hi =? 0)%nat then Raise AddressValueError
                   else Ok parts_hi
                 else Ok parts_hi) ;;
              parts_lo <-
                (if is_empty (last parts []) then
                   let parts_lo := (parts_lo - 1)%nat in
                   if negb (parts_lo =? 0)%nat then Raise AddressValueError
                   else Ok parts_lo
                 else Ok parts_lo) ;;
              let parts_skipped :=
                Z.of_nat _HEXTET_COUNT - Z.of_nat (parts_hi + parts_lo) in
              if parts_skipped <? 1 then Raise AddressValueError
              else Ok (parts_hi, parts_lo, parts_skipped)
          | None =>
              if negb (List.length parts =? _HEXTET_COUNT)%nat
              then Raise AddressValueError
              else if is_empty (hd [] parts) then Raise AddressValueError
              else if is_empty (last parts []) then Raise AddressValueError
              else Ok (List.length parts, 0%nat, 0)
          end ;;
        try_except
          (let ip_int := 0 in
           ip_int <- hextets_loop (firstn parts_hi parts) ip_int ;;
           let ip_int := Z.shiftl ip_int (16 * parts_skipped) in
           hextets_loop (skipn (List.length parts - parts_lo) parts) ip_int)
          is_ValueError (fun _ => Raise AddressValueError).

(** The scan of [_compress_hextets]: the state after the loop, as
    (best_doublecolon_start, best_doublecolon_len, doublecolon_start,
    doublecolon_len). *)
Fixpoint compress_scan (hextets : list str) (index : Z)
    (st : Z * Z * Z * Z) : Z * Z * Z * Z :=
  match hextets with
  | [] => st
  | hextet :: rest =>
      let '(best_start, best_len, start, len) := st in
      compress_scan rest (index + 1)
        (if Py.eqb hextet (lit "0") then
           let len := len + 1 in
           let start := if start =? -1 then index else start in
           if best_len <? len then (start, len, start, len)
           else (best_start, best_len, start, len)
         else (best_start, best_len, -1, 0))
  end.

Definition _compress_hextets (hextets : list str) : list str :=
  let '(best_doublecolon_start, best_doublecolon_len, _, _) :=
    compress_scan hextets 0 (-1, 0, -1, 0) in
  if 1 <? best_doublecolon_len then
    let best_doublecolon_end := best_doublecolon_start + best_doublecolon_len in
    let hextets :=
      if best_doublecolon_end =? Z.of_nat (List.length hextets)
      then hextets ++ [[]] else hextets in
    let hextets :=
      firstn (Z.to_nat best_doublecolon_start) hextets ++ [[]]
        ++ skipn (Z.to_nat best_doublecolon_end) hextets in
    if best_doublecolon_start =? 0 then [[]] ++ hextets else hextets
  else hextets.

(** ['%032x' % ip_int] *)
Definition format_032x (ip_int : Z) : str := zfill 32 (hex_of_int ip_int).

Definition _string_from_ip_int (ip_int : Z) : res error str :=
  if _ALL_ONES <? ip_int then Raise ValueError
  else
    let hex_str := format_032x ip_int in
    let hextets :=
      map (fun x => hex_of_int (horner 16 (slice hex_str x (x + 4))))
          [0; 4; 8; 12; 16; 20; 24; 28]%nat in
    let hextets := _compress_hextets hextets in
    Ok (join (lit ":") hextets).

Definition _split_scope_id (ip_str : str) : res error (str * option str) :=
  let '(addr, sep, scope_id) := partition PERCENT ip_str in
  if negb sep then Ok (addr, None)
  else if is_empty scope_id || contains PERCENT scope_id
       then Raise AddressValueError
  else Ok (addr, Some scope_id).

End BaseV6.

(** [IPv6Address(address)] for a string: the object's [_ip] and
    [_scope_id]. *)
Definition IPv6Address (address : str) : res error (Z * option str) :=
  let addr_str := address in
  if contains SLASH addr_str then Raise AddressValueError
  else
    '(addr_str, _scope_id) <- BaseV6._split_scope_id addr_str ;;
    _ip <- BaseV6._ip_int_from_string addr_str ;;
    Ok (_ip, _scope_id).

(** [str(a)]; for IPv6, [ip_str + '%' + self._scope_id if self._scope_id
    else ip_str]. *)
Definition str_of_address (a : ip_addr) : res error str :=
  match a with
  | V4 ip => Ok (BaseV4._string_from_ip_int ip)
  | V6 ip scope_id =>
      ip_str <- BaseV6._string_from_ip_int ip ;;
      match scope_id with
      | Some scope =>
          if negb (is_empty scope) then Ok (ip_str ++ lit "%" ++ scope)
          else Ok ip_str
      | None => Ok ip_str
      end
  end.

(** [IPv6Network(address, strict)] for a string. *)
Definition IPv6Network (address : str) (strict : bool) : res error network :=
  '(addr, mask) <- _split_addr_prefix BaseV6._max_prefixlen address ;;
  '(_ip, _scope_id) <- IPv6Address addr ;;
  '(netmask, _prefixlen) <- BaseV6._make_netmask mask ;;
  let packed := _ip in
  if negb (Z.land packed netmask =? packed) then
    if strict then Raise ValueError
    else Ok (Network (V6 (Z.land packed netmask) None) netmask _prefixlen)
  else Ok (Network (V6 _ip _scope_id) netmask _prefixlen).

(** ** The factory functions *)

Definition ip_address (address : str) : res error ip_addr :=
  match IPv4Address address with
  | Ok ip => Ok (V4 ip)
  | Raise e =>
      if negb (is_Address_or_Netmask e) then Raise e
      else
        match IPv6Address address with
        | Ok (ip, scope_id) => Ok (V6 ip scope_id)
        | Raise e =>
            if negb (is_Address_or_Netmask e) then Raise e
            else Raise ValueError
        end
  end.

Definition ip_network (address : str) (strict : bool) : res error network :=
  match IPv4Network address strict with
  | Ok net => Ok net
  | Raise e =>
      if negb (is_Address_or_Netmask e) then Raise e
      else
        match IPv6Network address strict with
        | Ok net => Ok net
        | Raise e =>
            if negb (is_Address_or_Netmask e) then Raise e
            else Raise ValueError
        end
  end.

End ipaddress.

(* ================================================================== *)
(** * The tool: [normalize_ip_or_cidr] *)
(* ================================================================== *)

(** [f'IP 地址不合法: "{value}"'] *)
Definition invalid_ip_msg (value : str) : str :=
  lit "IP 地址不合法: " ++ [DQUOTE] ++ value ++ [DQUOTE].

Definition normalize_ip_or_cidr (value : str) : res exn str :=
  let v := strip value in
  if is_empty v then Raise (ValueError (lit "IP 地址不能为空"))
  else
    match
      (if contains SLASH v then
         net <- ipaddress.ip_network v false ;;
         addr <- ipaddress.str_of_address (ipaddress.network_address net) ;;
         Ok (addr ++ lit "/" ++ str_of_int (ipaddress.prefixlen net))
       else
         ip <- ipaddress.ip_address v ;;
         let default := if (ipaddress.version ip =? 4)%Z then 32%Z else 128%Z in
         ip_text <- ipaddress.str_of_address ip ;;
         Ok (ip_text ++ lit "/" ++ str_of_int default))
    with
    | Ok text => Ok text
    | Raise _ => Raise (ValueError (invalid_ip_msg value))
    end.

(* ================================================================== *)
(** * The tool: file readers and the two-step import

    What the run finds outside the program is a parameter: the files
    ([readlines], [csv_reader]), the path functions of [os.path], the
    answers of the file dialog.  The widgets the import writes to are the
    fields of [ui]. *)
(* ================================================================== *)

Section Files.

(** [open(path, "r", encoding="utf-8")] followed by [f.readlines()]: the
    lines with their newline, or the exception raised. *)
Variable readlines : str -> res exn (list str).

(** [open(...)] followed by [csv.reader(f)], read to the end: the rows. *)
Variable csv_reader : str -> res exn (list (list str)).

(** [os.path.splitext], [str.lower], [os.path.basename]. *)
Variable splitext : str -> str * str.
Variable lower : str -> str.
Variable basename : str -> str.

(** [filedialog.askopenfilename(title=...)]: the chosen path, or the empty
    string when the dialog is cancelled. *)
Variable askopenfilename : str -> str.

Definition _read_lines_plaintext (path : str) : res exn (list str) :=
  lines <- readlines path ;;
  Ok (map rstrip_LF lines).

Definition _read_csv_rows (path : str) : res exn (list (list str)) :=
  rows <- csv_reader path ;;
  Ok (map (fun row => map strip row) rows).

Definition is_nil {A : Type} (l : list A) : bool :=
  match l with [] => true | _ :: _ => false end.

(** The loops of [read_names_from_file], [names] being the list so far. *)
Fixpoint names_loop_csv (rows : list (list str)) (names : list str)
    : res exn (list str) :=
  match rows with
  | [] => Ok names
  | row :: rest =>
      match row with
      | [] => names_loop_csv rest names
      | cell :: _ =>
          let name := strip cell in
          if negb (is_empty name) then
            _ <- validate_name name what_name ;;
            names_loop_csv rest (names ++ [name])
          else names_loop_csv rest names
      end
  end.

Fixpoint names_loop_txt (lines : list str) (names : list str)
    : res exn (list str) :=
  match lines with
  | [] => Ok names
  | ln :: rest =>
      let name := strip ln in
      if negb (is_empty name) then
        _ <- validate_name name what_name ;;
        names_loop_txt rest (names ++ [name])
      else names_loop_txt rest names
  end.

Definition read_names_from_file (path : str) : res exn (list str) :=
  let ext := lower (snd (splitext path)) in
  let names := [] in
  names <-
    (if Py.eqb ext (lit ".csv")
     then rows <- _read_csv_rows path ;; names_loop_csv rows names
     else lines <- _read_lines_plaintext path ;; names_loop_txt lines names) ;;
  if is_nil names
  then Raise (ValueError (lit "未在文件中读取到任何有效名称"))
  else Ok names.

Fixpoint ips_loop_csv (rows : list (list str)) (ips : list str)
    : res exn (list str) :=
  match rows with
  | [] => Ok ips
  | row :: rest =>
      match row with
      | [] => ips_loop_csv rest ips
      | cell :: _ =>
          let raw := strip cell in
          if negb (is_empty raw) then
            ip <- normalize_ip_or_cidr raw ;;
            ips_loop_csv rest (ips ++ [ip])
          else ips_loop_csv rest ips
      end
  end.

Fixpoint ips_loop_txt (lines : list str) (ips : list str)
    : res exn (list str) :=
  match lines with
  | [] => Ok ips
  | ln :: rest =>
      let raw := strip ln in
      if negb (is_empty raw) then
        ip <- normalize_ip_or_cidr raw ;;
        ips_loop_txt rest (ips ++ [ip])
      else ips_loop_txt rest ips
  end.

Definition read_ips_from_file (path : str) : res exn (list str) :=
  let ext := lower (snd (splitext path)) in
  let ips := [] in
  ips <-
    (if Py.eqb ext (lit ".csv")
     then rows <- _read_csv_rows path ;; ips_loop_csv rows ips
     else lines <- _read_lines_plaintext path ;; ips_loop_txt lines ips) ;;
  if is_nil ips
  then Raise (ValueError (lit "未在文件中读取到任何有效 IP"))
  else Ok ips.

(** [[c.strip() for c in cells if c.strip()]] *)
Definition stripped_nonblank (cells : list str) : list str :=
  map strip (filter (fun c => negb (is_empty (strip c))) cells).

(** [for m in members: validate_member_name(m)] *)
Fixpoint validate_members (members : list str) : res exn unit :=
  match members with
  | [] => Ok tt
  | m :: rest => _ <- validate_member_name m ;; validate_members rest
  end.

Fixpoint members_loop_csv (rows : list (list str))
    (lines_members : list (list str)) : res exn (list (list str)) :=
  match rows with
  | [] => Ok lines_members
  | row :: rest =>
      match row with
      | [] => members_loop_csv rest lines_members
      | _ :: later =>
          let members := stripped_nonblank later in
          let members := if is_nil members then [] else members in
          _ <- validate_members members ;;
          members_loop_csv rest (lines_members ++ [members])
      end
  end.

Fixpoint members_loop_txt (lines : list str)
    (lines_members : list (list str)) : res exn (list (list str)) :=
  match lines with
  | [] => Ok lines_members
  | ln :: rest =>
      if is_empty (strip ln)
      then members_loop_txt rest (lines_members ++ [[]])
      else
        let members := stripped_nonblank (split COMMA ln) in
        _ <- validate_members members ;;
        members_loop_txt rest (lines_members ++ [members])
  end.

Definition read_members_from_file (path : str) : res exn (list (list str)) :=
  let ext := lower (snd (splitext path)) in
  let lines_members := [] in
  lines_members <-
    (if Py.eqb ext (lit ".csv")
     then rows <- _read_csv_rows path ;; members_loop_csv rows lines_members
     else lines <- _read_lines_plaintext path ;;
          members_loop_txt lines lines_members) ;;
  if is_nil lines_members
  then Raise (ValueError (lit "未在文件中读取到任何成员行"))
  else Ok lines_members.

(** ** The window *)

Record ui : Type := Ui {
  output_text : str;                 (* the text of the output box *)
  result_label : str;                (* the text of the status label *)
  platform_var : str;                (* the platform chosen *)
  errors_shown : list (str * str)    (* messagebox.showerror(title, message) *)
}.

Definition showerror (title message : str) (u : ui) : ui :=
  Ui (output_text u) (result_label u) (platform_var u)
     (errors_shown u ++ [(title, message)]).

(** [show_output(cmds)]: the box is emptied, then filled with the lines,
    each followed by a newline. *)
Definition show_output (cmds : list str) (u : ui) : ui :=
  let text := [] in
  let text := if negb (is_nil cmds) then join [LF] cmds ++ [LF] else text in
  Ui text (result_label u) (platform_var u) (errors_shown u).

Definition set_result_label (text : str) (u : ui) : ui :=
  Ui (output_text u) text (platform_var u) (errors_shown u).

Definition _ask_file (title : str) : str := askopenfilename title.

(** [len(l)] written in decimal. *)
Definition str_len {A : Type} (l : list A) : str :=
  str_of_int (Z.of_nat (List.length l)).

Definition import_address_two_step (u : ui) : ui :=
  let path_names := _ask_file (lit "选择名称文件（csv: 第一列；txt: 每行一个）") in
  if is_empty path_names then u
  else
    match read_names_from_file path_names with
    | Raise e => showerror (lit "名称文件错误") (exn_str e) u
    | Ok names =>
        let path_ips := _ask_file (lit "选择 IP 文件（csv: 第一列；txt: 每行一个）") in
        if is_empty path_ips then u
        else
          match read_ips_from_file path_ips with
          | Raise e => showerror (lit "IP 文件错误") (exn_str e) u
          | Ok ips_raw =>
              if negb (List.length names =? List.length ips_raw)%nat
              then
                showerror (lit "数量不一致")
                  (lit "名称 " ++ str_len names ++ lit " 行，IP "
                   ++ str_len ips_raw ++ lit " 行") u
              else
                let platform := platform_var u in
                let cmds :=
                  map (fun '(n, ip) => gen_address_cmd platform n ip)
                      (combine names ips_raw) in
                let u := show_output cmds u in
                set_result_label
                  (lit "已从文件生成地址对象命令：" ++ basename path_names
                   ++ lit ", " ++ basename path_ips) u
          end
    end.

(** [for g, members in zip(...): cmds.extend(gen_group_cmd(...))] *)
Fixpoint group_cmds_loop (platform : str) (pairs : list (str * list str))
    (cmds : list str) : res exn (list str) :=
  match pairs with
  | [] => Ok cmds
  | (g, members) :: rest =>
      more <- gen_group_cmd platform g members ;;
      group_cmds_loop platform rest (cmds ++ more)
  end.

(** An exception of [gen_group_cmd] would leave the function uncaught. *)
Definition import_group_two_step (u : ui) : res exn ui :=
  let path_groups := _ask_file (lit "选择组名文件（csv: 第一列；txt: 每行一个）") in
  if is_empty path_groups then Ok u
  else
    match read_names_from_file path_groups with
    | Raise e => Ok (showerror (lit "组名文件错误") (exn_str e) u)
    | Ok groups =>
        let path_members :=
          _ask_file (lit "选择成员文件（csv: 每行从第2列起；txt: 每行用逗号分隔）") in
        if is_empty path_members then Ok u
        else
          match read_members_from_file path_members with
          | Raise e => Ok (showerror (lit "成员文件错误") (exn_str e) u)
          | Ok members_lines =>
              if negb (List.length members_lines =? List.length groups)%nat
              then
                Ok (showerror (lit "数量不一致")
                      (lit "组名 " ++ str_len groups ++ lit " 行，成员 "
                       ++ str_len members_lines ++ lit " 行") u)
              else if existsb (fun members => (List.length members =? 0)%nat)
                        members_lines
              then
                Ok (showerror (lit "成员缺失")
                      (lit "存在成员为空的行，请补充成员后再导入") u)
              else
                let platform := platform_var u in
                let cmds := [] in
                cmds <- group_cmds_loop platform
                          (combine groups members_lines) cmds ;;
                let u := show_output cmds u in
                Ok (set_result_label
                      (lit "已从文件生成地址组命令：" ++ basename path_groups
                       ++ lit ", " ++ basename path_members) u)
          end
    end.

End Files.

(* ================================================================== *)
(** * The tool: manual input in two steps

    Each handler reads the text of its box, [box.get("1.0", tk.END)]: a
    parameter here.  A handler that reports an error leaves its window
    open; one that goes through closes it. *)
(* ================================================================== *)

Definition CR : char := 13%N.

(** The line boundaries of [str.splitlines]: LF, VT, FF, CR, FS, GS, RS,
    NEL, LINE SEPARATOR and PARAGRAPH SEPARATOR. *)
Definition is_line_boundary (c : char) : bool :=
  existsb (N.eqb c) [10; 11; 12; 13; 28; 29; 30; 133; 8232; 8233]%N.

(** [s.splitlines()], [line] being the line read so far: CR LF is one
    boundary, and a text that ends in a boundary has no empty last line. *)
Fixpoint splitlines_from (line : str) (s : str) : list str :=
  match s with
  | [] => if is_nil line then [] else [line]
  | c :: rest =>
      if is_line_boundary c then
        line :: match rest with
                | d :: rest' =>
                    if (c =? CR)%N && (d =? LF)%N then splitlines_from [] rest'
                    else splitlines_from [] rest
                | [] => splitlines_from [] rest
                end
      else splitlines_from (line ++ [c]) rest
  end.

Definition splitlines (s : str) : list str := splitlines_from [] s.

(** [for n in names: validate_name(n, what)] *)
Fixpoint validate_names (names : list str) (what : str) : res exn unit :=
  match names with
  | [] => Ok tt
  | n :: rest => _ <- validate_name n what ;; validate_names rest what
  end.

(** The [try] block of [next_to_ip]. *)
Definition next_to_ip_try (text : str) : res exn (list str) :=
  let names := stripped_nonblank (splitlines text) in
  if is_nil names then Raise (ValueError (lit "名称不能为空"))
  else
    _ <- validate_names names what_name ;;
    Ok names.

(** [next_to_ip]: the window, and the names handed to [input_address_ips]
    when the first step is over. *)
Definition next_to_ip (text : str) (u : ui) : ui * option (list str) :=
  match next_to_ip_try text with
  | Raise e => (showerror (lit "错误") (exn_str e) u, None)
  | Ok names => (u, Some names)
  end.

(** [[normalize_ip_or_cidr(v) for v in ips_raw]] *)
Fixpoint normalize_each (ips_raw : list str) : res exn (list str) :=
  match ips_raw with
  | [] => Ok []
  | v :: rest =>
      ip <- normalize_ip_or_cidr v ;;
      ips <- normalize_each rest ;;
      Ok (ip :: ips)
  end.

(** The [try] block of [confirm_ips]. *)
Definition confirm_ips_try (names : list str) (text : str)
    : res exn (list str) :=
  let ips_raw := stripped_nonblank (splitlines text) in
  if is_nil ips_raw then Raise (ValueError (lit "IP 地址不能为空"))
  else if negb (List.length ips_raw =? List.length names)%nat then
    Raise (ValueError
             (lit "数量不一致：名称 " ++ str_len names ++ lit " 行，IP "
              ++ str_len ips_raw ++ lit " 行"))
  else normalize_each ips_raw.

(** [confirm_ips]: the window, and whether the dialog was closed. *)
Definition confirm_ips (names : list str) (text : str) (u : ui) : ui * bool :=
  match confirm_ips_try names text with
  | Raise e => (showerror (lit "错误") (exn_str e) u, false)
  | Ok ips =>
      let platform := platform_var u in
      let cmds :=
        map (fun '(n, ip) => gen_address_cmd platform n ip)
            (combine names ips) in
      let u := show_output cmds u in
      (set_result_label (lit "已从手动输入生成地址对象命令") u, true)
  end.

(** The [try] block of [next_to_members]. *)
Definition next_to_members_try (text : str) : res exn (list str) :=
  let groups := stripped_nonblank (splitlines text) in
  if is_nil groups then Raise (ValueError (lit "组名不能为空"))
  else
    _ <- validate_names groups (lit "组名") ;;
    Ok groups.

Definition next_to_members (text : str) (u : ui) : ui * option (list str) :=
  match next_to_members_try text with
  | Raise e => (showerror (lit "错误") (exn_str e) u, None)
  | Ok groups => (u, Some groups)
  end.

(** The loop of [confirm_groups] over the member lines. *)
Fixpoint all_members_loop (mem_lines : list str)
    (all_members : list (list str)) : res exn (list (list str)) :=
  match mem_lines with
  | [] => Ok all_members
  | line :: rest =>
      let members := stripped_nonblank (split COMMA line) in
      if is_nil members
      then Raise (ValueError (lit "存在成员为空的行，请检查"))
      else
        _ <- validate_members members ;;
        all_members_loop rest (all_members ++ [members])
  end.

(** The [try] block of [confirm_groups]. *)
Definition confirm_groups_try (groups : list str) (text : str)
    : res exn (list (list str)) :=
  let raw_lines := splitlines text in
  let mem_lines := stripped_nonblank raw_lines in
  if is_nil mem_lines then Raise (ValueError (lit "成员行不能为空"))
  else if negb (List.length mem_lines =? List.length groups)%nat then
    Raise (ValueError
             (lit "数量不一致：组名 " ++ str_len groups ++ lit " 行，成员 "
              ++ str_len mem_lines ++ lit " 行"))
  else all_members_loop mem_lines [].

(** [confirm_groups]: the commands are generated after the [try] block, so
    an exception of [gen_group_cmd] would leave the handler. *)
Definition confirm_groups (groups : list str) (text : str) (u : ui)
    : res exn (ui * bool) :=
  match confirm_groups_try groups text with
  | Raise e => Ok (showerror (lit "错误") (exn_str e) u, false)
  | Ok all_members =>
      let platform := platform_var u in
      let cmds := [] in
      cmds <- group_cmds_loop platform (combine groups all_members) cmds ;;
      let u := show_output cmds u in
      Ok (set_result_label (lit "已从手动输入生成地址组命令") u, true)
  end.

Section Dispatch.

Variable readlines : str -> res exn (list str).
Variable csv_reader : str -> res exn (list (list str)).
Variable splitext : str -> str * str.
Variable lower : str -> str.
Variable basename : str -> str.
Variable askopenfilename : str -> str.

(** [import_file_two_step], [current_mode_var.get()] being a parameter. *)
Definition import_file_two_step (current_mode : str) (u : ui) : res exn ui :=
  if Py.eqb current_mode (lit "address") then
    Ok (import_address_two_step readlines csv_reader splitext lower basename
          askopenfilename u)
  else
    import_group_two_step readlines csv_reader splitext lower basename
      askopenfilename u.

End Dispatch.

(* ================================================================== *)
(** * Vocabulary of the statements *)
(* ================================================================== *)

(** "Contains whitespace or '/'". *)
Definition has_space_or_slash (s : str) : bool :=
  existsb isspace s || contains SLASH s.

(** The members that are not blank, trimmed, in their order. *)
Definition nonblank_members (members : list str) : list str :=
  filter (fun m => negb (is_empty m)) (map strip members).

(** The [k] low digits of [n] in a base, most significant first, each
    shown by [digit]. *)
Fixpoint fixed_digits {A : Type} (k : nat) (base n : Z) (digit : Z -> A)
    : list A :=
  match k with
  | O => []
  | S k' => fixed_digits k' base (n / base)%Z digit ++ [digit (n mod base)%Z]
  end.

(** The integers from [lo], [len] of them. *)
Fixpoint zrange (lo : Z) (len : nat) : list Z :=
  match len with
  | O => []
  | S len' => lo :: zrange (lo + 1)%Z len'
  end.

(** The integer [x] of [width] bits with the bits below the prefix cleared. *)
Definition zero_host_bits (width prefixlen x : Z) : Z :=
  (x / 2 ^ (width - prefixlen) * 2 ^ (width - prefixlen))%Z.

(** What [BaseV6._ip_int_from_string] does once the parts are split and
    an IPv4 suffix is rewritten: the rest of its body, on [parts]. *)
Definition v6_parts_value (parts : list str) : res ipaddress.error Z :=
  let _max_parts := (ipaddress.BaseV6._HEXTET_COUNT + 1)%nat in
  if (_max_parts <? List.length parts)%nat
  then Raise ipaddress.AddressValueError
  else
    skip_index <-
      ipaddress.BaseV6.skip_index_loop parts
        (seq 1 (List.length parts - 1 - 1)) None ;;
    '(parts_hi, parts_lo, parts_skipped) <-
      match skip_index with
      | Some skip_index =>
          let parts_hi := skip_index in
          let parts_lo := (List.length parts - skip_index - 1)%nat in
          parts_hi <-
            (if is_empty (hd [] parts) then
               let parts_hi := (parts_hi - 1)%nat in
               if negb (parts_hi =? 0)%nat
               then Raise ipaddress.AddressValueError
               else Ok parts_hi
             else Ok parts_hi) ;;
          parts_lo <-
            (if is_empty (last parts []) then
               let parts_lo := (parts_lo - 1)%nat in
               if negb (parts_lo =? 0)%nat
               then Raise ipaddress.AddressValueError
               else Ok parts_lo
             else Ok parts_lo) ;;
          let parts_skipped :=
            (Z.of_nat ipaddress.BaseV6._HEXTET_COUNT
             - Z.of_nat (parts_hi + parts_lo))%Z in
          if (parts_skipped <? 1)%Z then Raise ipaddress.AddressValueError
          else Ok (parts_hi, parts_lo, parts_skipped)
      | None =>
          if negb (List.length parts =? ipaddress.BaseV6._HEXTET_COUNT)%nat
          then Raise ipaddress.AddressValueError
          else if is_empty (hd [] parts) then Raise ipaddress.AddressValueError
          else if is_empty (last parts []) then Raise ipaddress.AddressValueError
          else Ok (List.length parts, 0%nat, 0%Z)
      end ;;
    try_except
      (let ip_int := 0%Z in
       ip_int <- ipaddress.BaseV6.hextets_loop (firstn parts_hi parts) ip_int ;;
       let ip_int := Z.shiftl ip_int (16 * parts_skipped) in
       ipaddress.BaseV6.hextets_loop
         (skipn (List.length parts - parts_lo) parts) ip_int)
      ipaddress.is_ValueError (fun _ => Raise ipaddress.AddressValueError).

(** What a character of a dotted quad can be. *)
Definition v4_char (c : char) : bool := is_decimal_digit c || (c =? DOT)%N.

(** What a character of an IPv6 address, zone apart, can be. *)
Definition v6_char (c : char) : bool :=
  ipaddress.BaseV6.in_HEX_DIGITS c || (c =? COLON)%N || (c =? DOT)%N.

(** The integer eight 16-bit groups stand for. *)
Definition hextets_value (vs : list Z) : Z :=
  fold_left (fun acc v => Z.lor (Z.shiftl acc 16) v) vs 0%Z.

(** A text made of hexadecimal digits. *)
Definition hexP (p : str) : Prop :=
  forallb ipaddress.BaseV6.in_HEX_DIGITS p = true.

(** The scan of [_compress_hextets] on the flags "this hextet is '0'". *)
Fixpoint scan_flags (flags : list bool) (index : Z) (st : Z * Z * Z * Z)
    : Z * Z * Z * Z :=
  match flags with
  | [] => st
  | flag :: rest =>
      let '(best_start, best_len, start, len) := st in
      scan_flags rest (index + 1)%Z
        (if flag then
           let len := (len + 1)%Z in
           let start := if (start =? -1)%Z then index else start in
           if (best_len <? len)%Z then (start, len, start, len)
           else (best_start, best_len, start, len)
         else (best_start, best_len, (-1)%Z, 0%Z))
  end.

(** The run the scan reports lies within the list and is made of zeros. *)
Definition run_ok (flags : list bool) : bool :=
  let '(best_start, best_len, _, _) :=
    scan_flags flags 0%Z ((-1)%Z, 0%Z, (-1)%Z, 0%Z) in
  (best_len <=? 1)%Z
  || (0 <=? best_start)%Z
     && (best_start + best_len <=? Z.of_nat (List.length flags))%Z
     && forallb (fun b => b)
          (firstn (Z.to_nat best_len) (skipn (Z.to_nat best_start) flags)).

(** A hextet text [h] with its value [v]. *)
Definition hextet_of (h : str) (v : Z) : Prop :=
  ipaddress.BaseV6._parse_hextet h = Ok v
  /\ is_empty h = false
  /\ (Py.eqb h (lit "0") = true -> v = 0%Z).

(** A zone identifier the library accepts. *)
Definition valid_scope (scope_id : option str) : Prop :=
  match scope_id with
  | Some s => is_empty s = false /\ contains PERCENT s = false
  | None => True
  end.

(** The network address of the address [a] under a prefix length: the
    host bits are cleared; an IPv6 zone identifier stays only when no host
    bit was set. *)
Definition network_address_of (a : ipaddress.ip_addr) (prefixlen : Z)
    : ipaddress.ip_addr :=
  match a with
  | ipaddress.V4 x => ipaddress.V4 (zero_host_bits 32 prefixlen x)
  | ipaddress.V6 x scope_id =>
      ipaddress.V6 (zero_host_bits 128 prefixlen x)
        (if (zero_host_bits 128 prefixlen x =? x)%Z then scope_id else None)
  end.

(** The width of an address in bits. *)
Definition max_prefixlen_of (a : ipaddress.ip_addr) : Z :=
  match a with ipaddress.V4 _ => 32%Z | ipaddress.V6 _ _ => 128%Z end.

(** An address object the library can build from a string, whose zone
    identifier (taken from a string without '/') has no '/'. *)
Definition wf_address (a : ipaddress.ip_addr) : Prop :=
  match a with
  | ipaddress.V4 x => (0 <= x < 2 ^ 32)%Z
  | ipaddress.V6 x scope_id =>
      (0 <= x < 2 ^ 128)%Z /\ valid_scope scope_id
      /\ match scope_id with
         | Some s => contains SLASH s = false
         | None => True
         end
  end.

(** [_make_netmask] of the address class of [a]. *)
Definition make_netmask_of (a : ipaddress.ip_addr) (arg : ipaddress.mask_arg)
    : res ipaddress.error (Z * Z) :=
  match a with
  | ipaddress.V4 _ => ipaddress.BaseV4._make_netmask arg
  | ipaddress.V6 _ _ => ipaddress.BaseV6._make_netmask arg
  end.

(** The netmask and the host mask of an IPv4 prefix length, as integers:
    [255.255.255.0] and [0.0.0.255] for 24. *)
Definition v4_netmask (prefixlen : Z) : Z := (2 ^ 32 - 2 ^ (32 - prefixlen))%Z.

Definition v4_hostmask (prefixlen : Z) : Z := (2 ^ (32 - prefixlen) - 1)%Z.

(** ** Vocabulary of the import statements *)

(** A name as the tool wants it: not empty, without whitespace, without
    '/'. *)
Definition is_name (s : str) : Prop :=
  s <> [] /\ existsb isspace s = false /\ ~ In SLASH s.

(** The members of a text line and of a csv row, as the reader takes
    them. *)
Definition line_members (ln : str) : list str :=
  stripped_nonblank (split COMMA ln).

Definition row_members (row : list str) : list str :=
  stripped_nonblank (tl row).

(** The rows of a csv file that have a cell. *)
Definition nonempty_rows (rows : list (list str)) : list (list str) :=
  filter (fun row => negb (is_nil row)) rows.

(** The first cell of each row that has one. *)
Definition first_cells (rows : list (list str)) : list str :=
  flat_map (firstn 1) rows.

(** The names or addresses of a file before they are trimmed: the lines of
    a text file, the first cells of a csv file. *)
Definition file_cells (readlines : str -> res exn (list str))
    (csv_reader : str -> res exn (list (list str)))
    (splitext : str -> str * str) (lower : str -> str) (path : str)
    : res exn (list str) :=
  if Py.eqb (lower (snd (splitext path))) (lit ".csv")
  then rows <- csv_reader path ;; Ok (first_cells rows)
  else readlines path.

(** The member lists of a file: one for each line of a text file, one for
    each row of a csv file that has a cell. *)
Definition file_members (readlines : str -> res exn (list str))
    (csv_reader : str -> res exn (list (list str)))
    (splitext : str -> str * str) (lower : str -> str) (path : str)
    : res exn (list (list str)) :=
  if Py.eqb (lower (snd (splitext path))) (lit ".csv")
  then rows <- csv_reader path ;; Ok (map row_members (nonempty_rows rows))
  else lines <- readlines path ;; Ok (map line_members lines).

(** The first name of a list that holds whitespace or '/' is the one
    reported; without one, the list goes on. *)
Definition first_invalid {A : Type} (what : str) (names : list str)
    (k : res exn A) : res exn A :=
  match find has_space_or_slash names with
  | Some n => Raise (ValueError (invalid_name_msg what n))
  | None => k
  end.

(** The lines of the commands of groups and their member lists. *)
Definition group_lines (platform : str) (pairs : list (str * list str))
    : list str :=
  List.concat (map (fun '(g, members) =>
                 map (group_line (group_prefix platform) g) members) pairs).

(** The titles of the four file dialogs. *)
Abbreviation title_names := (lit "选择名称文件（csv: 第一列；txt: 每行一个）").
Abbreviation title_ips := (lit "选择 IP 文件（csv: 第一列；txt: 每行一个）").
Abbreviation title_groups := (lit "选择组名文件（csv: 第一列；txt: 每行一个）").
Abbreviation title_members :=
  (lit "选择成员文件（csv: 每行从第2列起；txt: 每行用逗号分隔）").

(** A run of the window leaves the output box, the status label and the
    platform alone and shows at most one error. *)
Definition rejected (u u' : ui) : Prop :=
  output_text u' = output_text u /\ result_label u' = result_label u
  /\ platform_var u' = platform_var u
  /\ (errors_shown u' = errors_shown u
      \/ exists title message,
           errors_shown u' = errors_shown u ++ [(title, message)]).

(** An environment to run the import in: a few files, paths whose
    extension is their last four characters, dialogs that answer with
    given paths. *)
Definition example_readlines (path : str) : res exn (list str) :=
  if Py.eqb path (lit "names.txt")
  then Ok [lit "n1" ++ [LF]; lit "n2" ++ [LF]]
  else if Py.eqb path (lit "ips.txt") then Ok [lit "1.1.1.1" ++ [LF]]
  else if Py.eqb path (lit "ips2.txt")
  then Ok [lit " 10.1.2.3/8" ++ [LF]; [LF]; lit "2001:DB8::1" ++ [LF]]
  else if Py.eqb path (lit "members.txt") then Ok [lit "a,b" ++ [LF]; [LF]]
  else if Py.eqb path (lit "members2.txt")
  then Ok [lit "a, b ,," ++ [LF]; lit "c" ++ [LF]]
  else Raise (OSError (lit "No such file or directory")).

Definition example_csv_reader (path : str) : res exn (list (list str)) :=
  if Py.eqb path (lit "blank.csv") then Ok [[]]
  else if Py.eqb path (lit "members.csv")
  then Ok [[lit "g1"; lit "a"]; []; [lit "g2"; lit "b"]]
  else Raise (OSError (lit "No such file or directory")).

Definition example_splitext (path : str) : str * str :=
  (firstn (List.length path - 4) path, skipn (List.length path - 4) path).

Definition example_lower (s : str) : str := s.

Definition example_basename (path : str) : str := path.

Definition example_dialog (names ips groups members : str) (title : str) : str :=
  if Py.eqb title title_names then names
  else if Py.eqb title title_ips then ips
  else if Py.eqb title title_groups then groups
  else members.

Definition example_ui : ui := Ui (lit "old output") [] (lit "Firewall") [].

(** The exception a refused address leaves [normalize_ip_or_cidr] with. *)
Definition invalid_ip (value : str) : exn := ValueError (invalid_ip_msg value).

(* ================================================================== *)
(** * Facts about the string primitives *)
(* ================================================================== *)

Lemma Ok_inj {E A : Type} (a b : A) : @Ok E A a = Ok b -> a = b.
Proof. intros H. exact (f_equal (fun r => match r with Ok v => v | Raise _ => a end) H). Qed.

Section StrFacts.

Lemma eqb_eq (a b : str) : Py.eqb a b = true <-> a = b.
Proof.
  revert b; induction a as [|x a IH]; intros [|y b]; simpl;
    try (split; [discriminate | congruence]); [tauto|].
  rewrite andb_true_iff, N.eqb_eq, IH. split.
  - intros [-> ->]; reflexivity.
  - intros H; injection H; auto.
Qed.

Lemma eqb_neq (a b : str) : Py.eqb a b = false <-> a <> b.
Proof.
  rewrite <- eqb_eq. destruct (Py.eqb a b); split; congruence.
Qed.

Lemma is_empty_false (s : str) : is_empty s = false <-> s <> [].
Proof. destruct s; simpl; split; congruence. Qed.

Lemma contains_In (c : char) (s : str) : contains c s = true <-> In c s.
Proof.
  unfold contains. rewrite existsb_exists. split.
  - intros (x & Hx & E). apply N.eqb_eq in E. subst. exact Hx.
  - intros H. exists c. split; [exact H | apply N.eqb_refl].
Qed.

Lemma contains_false (c : char) (s : str) :
  contains c s = false <-> ~ In c s.
Proof.
  rewrite <- contains_In. destruct (contains c s); split; congruence.
Qed.

Lemma contains_app (c : char) (a b : str) :
  contains c (a ++ b) = contains c a || contains c b.
Proof. apply existsb_app. Qed.

Variable p : char -> bool.

Lemma lstrip_of_head (s : str) (c : char) (t : str) :
  lstrip_of p s = c :: t -> p c = false.
Proof.
  induction s as [|a s IH]; simpl; [discriminate|].
  destruct (p a) eqn:E; [exact IH|].
  intros H; injection H as <- <-; exact E.
Qed.

Lemma lstrip_of_suffix (s : str) :
  exists pre, s = pre ++ lstrip_of p s /\ forallb p pre = true.
Proof.
  induction s as [|a s (pre & E & F)]; simpl.
  - exists []; auto.
  - destruct (p a) eqn:Pa.
    + exists (a :: pre); simpl. rewrite Pa, F. split; [congruence | reflexivity].
    + exists []; auto.
Qed.

Lemma lstrip_of_fixed (s : str) :
  (forall c t, s = c :: t -> p c = false) -> lstrip_of p s = s.
Proof.
  destruct s as [|a s]; simpl; [reflexivity|].
  intros H. rewrite (H a s eq_refl). reflexivity.
Qed.

Lemma rstrip_of_last (s t : str) (c : char) :
  rstrip_of p s = t ++ [c] -> p c = false.
Proof.
  unfold rstrip_of. intros H.
  apply (f_equal (@rev char)) in H. rewrite rev_involutive, rev_app_distr in H.
  simpl in H. exact (lstrip_of_head _ _ _ H).
Qed.

Lemma rstrip_of_prefix (s : str) :
  exists suf, s = rstrip_of p s ++ suf /\ forallb p suf = true.
Proof.
  unfold rstrip_of. destruct (lstrip_of_suffix (rev s)) as (pre & E & F).
  exists (rev pre). split.
  - rewrite <- rev_app_distr, <- E, rev_involutive. reflexivity.
  - rewrite forallb_forall in *. intros x Hx. apply F, in_rev, Hx.
Qed.

Lemma rstrip_of_fixed (s : str) :
  (forall t c, s = t ++ [c] -> p c = false) -> rstrip_of p s = s.
Proof.
  intros H. unfold rstrip_of. rewrite lstrip_of_fixed.
  - apply rev_involutive.
  - intros c t E. apply (H (rev t) c).
    rewrite <- (rev_involutive s), E. reflexivity.
Qed.

Lemma rstrip_of_head (s : str) (c : char) (t : str) :
  rstrip_of p s = c :: t -> exists t', s = c :: t'.
Proof.
  intros H. destruct (rstrip_of_prefix s) as (suf & E & _).
  rewrite H in E. simpl in E. eauto.
Qed.

End StrFacts.

Lemma strip_head (s : str) (c : char) (t : str) :
  strip s = c :: t -> isspace c = false.
Proof.
  unfold strip. intros H.
  destruct (rstrip_of_head _ _ _ _ H) as (t' & E).
  exact (lstrip_of_head _ _ _ _ E).
Qed.

Lemma strip_last (s t : str) (c : char) :
  strip s = t ++ [c] -> isspace c = false.
Proof. unfold strip. apply rstrip_of_last. Qed.

Lemma strip_fixed (s : str) :
  (forall c t, s = c :: t -> isspace c = false) ->
  (forall t c, s = t ++ [c] -> isspace c = false) ->
  strip s = s.
Proof.
  intros Hh Hl. unfold strip.
  rewrite (lstrip_of_fixed _ _ Hh). apply rstrip_of_fixed, Hl.
Qed.

Lemma strip_idempotent (s : str) : strip (strip s) = strip s.
Proof.
  apply strip_fixed.
  - intros c t. apply strip_head.
  - intros t c. apply strip_last.
Qed.

(* ================================================================== *)
(** * Names *)
(* ================================================================== *)

(** What the backtracking search of [[cls]+ k] finds. *)
Lemma plus_spec (cls : char -> bool) (k : str -> bool) (s : str) :
  Re.plus cls k s = true <->
  exists a b, s = a ++ b /\ a <> [] /\ forallb cls a = true /\ k b = true.
Proof.
  induction s as [|c s IH]; simpl.
  - split; [discriminate|].
    intros (a & b & E & Ha & _). destruct a; [congruence | discriminate].
  - rewrite andb_true_iff, orb_true_iff, IH. split.
    + intros (Hc & [(a & b & E & Ha & Fa & Kb) | Kb]).
      * exists (c :: a), b. simpl. rewrite Hc, Fa, E. repeat split; congruence.
      * exists [c], s. simpl. rewrite Hc. repeat split; congruence.
    + intros (a & b & E & Ha & Fa & Kb).
      destruct a as [|x a]; [congruence|].
      simpl in E, Fa. injection E as <- ->.
      apply andb_true_iff in Fa as (Hc & Fa). split; [exact Hc|].
      destruct a as [|y a]; [right; exact Kb|].
      left. exists (y :: a), b. repeat split; [discriminate | exact Fa | exact Kb].
Qed.

Lemma at_dollar_spec (r : str) :
  Re.at_dollar r = true <-> r = [] \/ r = [LF].
Proof.
  destruct r as [|c [|d r]]; simpl.
  - split; auto.
  - rewrite N.eqb_eq. split.
    + intros ->. right; reflexivity.
    + intros [H|H]; [discriminate | injection H; auto].
  - split; [discriminate | intros [H|H]; discriminate].
Qed.

(** The strings [NAME_PATTERN] matches: a non-empty run of characters that
    are neither whitespace nor '/', optionally followed by one final
    newline. *)
Lemma NAME_PATTERN_spec (s : str) :
  Re.match_ NAME_PATTERN s = true <->
  exists t, t <> [] /\ forallb name_class t = true /\ (s = t \/ s = t ++ [LF]).
Proof.
  unfold Re.match_, NAME_PATTERN. simpl. rewrite plus_spec. split.
  - intros (a & b & E & Ha & Fa & Kb).
    rewrite andb_true_r in Kb. apply at_dollar_spec in Kb.
    exists a. repeat split; auto.
    destruct Kb as [-> | ->]; [left; rewrite E; apply app_nil_r | right; exact E].
  - intros (t & Ht & Ft & [-> | ->]).
    + exists t, []. rewrite app_nil_r. auto.
    + exists t, [LF]. auto.
Qed.

Lemma name_class_LF : name_class LF = false.
Proof. reflexivity. Qed.

Lemma name_class_isspace (c : char) : name_class c = true -> isspace c = false.
Proof.
  unfold name_class. rewrite negb_true_iff, orb_false_iff. tauto.
Qed.

Lemma name_class_intro (c : char) :
  isspace c = false -> c <> SLASH -> name_class c = true.
Proof.
  intros H1 H2. unfold name_class. rewrite H1. simpl.
  apply negb_true_iff, N.eqb_neq, H2.
Qed.

Lemma has_space_or_slash_class (s : str) :
  has_space_or_slash s = negb (forallb name_class s).
Proof.
  induction s as [|c s IH]; [reflexivity|].
  unfold has_space_or_slash, contains in *. cbn [existsb forallb].
  rewrite negb_andb, <- IH. unfold name_class.
  rewrite negb_involutive, (N.eqb_sym SLASH c).
  destruct (isspace c), (c =? SLASH)%N, (existsb isspace s),
    (existsb (N.eqb SLASH) s); reflexivity.
Qed.

(** On a string whose last character is not whitespace (every stripped
    string is one) the pattern tests the characters only. *)
Lemma NAME_PATTERN_no_final_space (s : str) :
  (forall t c, s = t ++ [c] -> isspace c = false) ->
  Re.match_ NAME_PATTERN s = negb (is_empty s) && negb (has_space_or_slash s).
Proof.
  intros Hl. rewrite has_space_or_slash_class, negb_involutive.
  apply eq_true_iff_eq. rewrite NAME_PATTERN_spec, andb_true_iff, negb_true_iff. split.
  - intros (t & Ht & Ft & [-> | ->]).
    + split; [destruct t; simpl; congruence | exact Ft].
    + discriminate (Hl t LF eq_refl).
  - intros (H1 & H2). exists s. apply is_empty_false in H1. auto.
Qed.

Lemma validate_name_strip (m what : str) :
  validate_name (strip m) what =
    if is_empty (strip m) || has_space_or_slash (strip m)
    then Raise (ValueError (invalid_name_msg what (strip m)))
    else Ok tt.
Proof.
  unfold validate_name.
  rewrite (NAME_PATTERN_no_final_space (strip m)) by (intros t c; apply strip_last).
  rewrite negb_andb, !negb_involutive. reflexivity.
Qed.

(* ================================================================== *)
(** * [split], [join] and [partition] *)
(* ================================================================== *)

Lemma split_not_nil (sep : char) (s : str) : split sep s <> [].
Proof.
  destruct s as [|c s]; simpl; [discriminate|].
  destruct (c =? sep)%N; [discriminate|].
  destruct (split sep s); discriminate.
Qed.

Lemma join_cons (sep p : str) (ps : list str) :
  ps <> [] -> join sep (p :: ps) = p ++ sep ++ join sep ps.
Proof. destruct ps; [congruence | reflexivity]. Qed.

Lemma join_split (sep : char) (s : str) : join [sep] (split sep s) = s.
Proof.
  induction s as [|c s IH]; [reflexivity|]. simpl split.
  destruct (c =? sep)%N eqn:E.
  - apply N.eqb_eq in E. subst c.
    rewrite join_cons by apply split_not_nil. rewrite IH. reflexivity.
  - destruct (split sep s) as [|p ps] eqn:S; [destruct (split_not_nil _ _ S)|].
    destruct ps as [|q qs]; simpl in *; rewrite <- IH; reflexivity.
Qed.

Lemma split_no_sep (sep : char) (s : str) :
  contains sep s = false -> split sep s = [s].
Proof.
  unfold contains. induction s as [|c s IH]; simpl; [reflexivity|].
  rewrite orb_false_iff, N.eqb_sym. intros (E & H).
  rewrite E, (IH H). reflexivity.
Qed.

Lemma split_app_sep (sep : char) (a b : str) :
  contains sep a = false -> split sep (a ++ sep :: b) = a :: split sep b.
Proof.
  unfold contains. induction a as [|c a IH]; simpl.
  - rewrite N.eqb_refl. reflexivity.
  - rewrite orb_false_iff, N.eqb_sym. intros (E & H).
    rewrite E, (IH H). reflexivity.
Qed.

Lemma split_join (sep : char) (parts : list str) :
  parts <> [] ->
  Forall (fun p => contains sep p = false) parts ->
  split sep (join [sep] parts) = parts.
Proof.
  induction parts as [|p ps IH]; [congruence|]. intros _ F.
  inversion F as [|? ? Hp Hps]; subst.
  destruct ps as [|q qs].
  - apply split_no_sep, Hp.
  - rewrite join_cons by discriminate.
    change (p ++ [sep] ++ join [sep] (q :: qs))
      with (p ++ sep :: join [sep] (q :: qs)).
    rewrite split_app_sep by exact Hp.
    rewrite IH; [reflexivity | discriminate | exact Hps].
Qed.

Lemma split_parts_no_sep (sep : char) (s : str) :
  Forall (fun p => contains sep p = false) (split sep s).
Proof.
  induction s as [|c s IH]; simpl.
  - constructor; [reflexivity | constructor].
  - destruct (c =? sep)%N eqn:E.
    + constructor; [reflexivity | exact IH].
    + destruct (split sep s) as [|p ps]; [repeat constructor|].
      * unfold contains. simpl. rewrite N.eqb_sym, E. reflexivity.
      * inversion IH; subst. constructor; [|assumption].
        unfold contains in *. simpl. rewrite N.eqb_sym, E. assumption.
Qed.

(** Characters of a joined string. *)
Lemma forallb_join (P : char -> bool) (sep : char) (parts : list str) :
  P sep = true ->
  Forall (fun p => forallb P p = true) parts ->
  forallb P (join [sep] parts) = true.
Proof.
  intros Hs. induction parts as [|p ps IH]; intros F; [reflexivity|].
  inversion F as [|? ? Hp Hps]; subst.
  destruct ps as [|q qs]; [exact Hp|].
  rewrite join_cons by discriminate.
  rewrite !forallb_app, Hp, (IH Hps). simpl. rewrite Hs. reflexivity.
Qed.

Lemma forallb_split (P : char -> bool) (sep : char) (s : str) :
  forallb P s = true ->
  Forall (fun p => forallb P p = true) (split sep s).
Proof.
  induction s as [|c s IH]; simpl.
  - repeat constructor.
  - rewrite andb_true_iff. intros (Hc & Hs). specialize (IH Hs).
    destruct (c =? sep)%N; [constructor; [reflexivity | exact IH]|].
    destruct (split sep s) as [|p ps]; [repeat constructor; simpl; rewrite Hc; reflexivity|].
    inversion IH; subst. constructor; [simpl; rewrite Hc; assumption | assumption].
Qed.

Lemma contains_forallb (c : char) (s : str) :
  contains c s = false <-> forallb (fun x => negb (x =? c)%N) s = true.
Proof.
  unfold contains. induction s as [|x s IH]; simpl; [tauto|].
  rewrite orb_false_iff, andb_true_iff, IH, negb_true_iff, N.eqb_sym. tauto.
Qed.

(** A character of the joined string other than the separator comes from
    one of the parts. *)
Lemma contains_join_false (c sep : char) (parts : list str) :
  c <> sep ->
  Forall (fun p => contains c p = false) parts ->
  contains c (join [sep] parts) = false.
Proof.
  intros Hn F. apply contains_forallb, forallb_join.
  - apply negb_true_iff, N.eqb_neq. congruence.
  - eapply Forall_impl; [|exact F]. intros p. apply contains_forallb.
Qed.

Lemma forallb_contains_false (P : char -> bool) (c : char) (s : str) :
  forallb P s = true -> P c = false -> contains c s = false.
Proof.
  intros F Hc. apply contains_false. intros Hin.
  rewrite forallb_forall in F. rewrite (F _ Hin) in Hc. discriminate.
Qed.

Lemma partition_spec (sep : char) (s a b : str) (found : bool) :
  partition sep s = (a, found, b) ->
  contains sep a = false
  /\ if found then s = a ++ sep :: b else s = a /\ b = [].
Proof.
  revert a b found. induction s as [|c s IH]; simpl; intros a b found.
  - intros H; injection H as <- <- <-. auto.
  - destruct (c =? sep)%N eqn:E.
    + apply N.eqb_eq in E. subst c. intros H; injection H as <- <- <-. auto.
    + destruct (partition sep s) as ((a' & f') & b') eqn:P.
      intros H; injection H as <- <- <-.
      destruct (IH _ _ _ eq_refl) as (Ha & Hs). split.
      * unfold contains in *. simpl. rewrite N.eqb_sym, E. exact Ha.
      * destruct f'; [rewrite Hs; reflexivity|].
        destruct Hs as (-> & ->). auto.
Qed.

Lemma partition_found (sep : char) (a b : str) :
  contains sep a = false -> partition sep (a ++ sep :: b) = (a, true, b).
Proof.
  unfold contains. induction a as [|c a IH]; simpl.
  - rewrite N.eqb_refl. reflexivity.
  - rewrite orb_false_iff, N.eqb_sym. intros (E & H).
    rewrite E, (IH H). reflexivity.
Qed.

Lemma partition_not_found (sep : char) (a : str) :
  contains sep a = false -> partition sep a = (a, false, []).
Proof.
  unfold contains. induction a as [|c a IH]; simpl; [reflexivity|].
  rewrite orb_false_iff, N.eqb_sym. intros (E & H).
  rewrite E, (IH H). reflexivity.
Qed.

(** A string without whitespace is its own stripped form. *)
Lemma strip_no_space (s : str) : existsb isspace s = false -> strip s = s.
Proof.
  intros H. apply strip_fixed.
  - intros c t ->. simpl in H. apply orb_false_iff in H. tauto.
  - intros t c ->. rewrite existsb_app in H. simpl in H.
    rewrite !orb_false_iff in H. tauto.
Qed.

(** So is a string that starts and ends with a character that is not
    whitespace. *)
Lemma strip_ends (c d : char) (s : str) :
  isspace c = false -> isspace d = false -> strip (c :: s ++ [d]) = c :: s ++ [d].
Proof.
  intros Hc Hd. apply strip_fixed.
  - intros c' t E. injection E as <- _. exact Hc.
  - intros t d' E. change (c :: s ++ [d]) with ((c :: s) ++ [d]) in E.
    apply app_inj_tail in E as (_ & <-). exact Hd.
Qed.

(* ================================================================== *)
(** * [validate_name] *)
(* ================================================================== *)

Lemma validate_name_Ok_iff (s what : str) :
  validate_name s what = Ok tt <->
  exists t, t <> [] /\ forallb name_class t = true /\ (s = t \/ s = t ++ [LF]).
Proof.
  rewrite <- NAME_PATTERN_spec. unfold validate_name.
  destruct (Re.match_ NAME_PATTERN s); simpl; split; congruence.
Qed.

Lemma validate_name_cases (s what : str) :
  validate_name s what = Ok tt \/
  validate_name s what = Raise (ValueError (invalid_name_msg what s)).
Proof. unfold validate_name. destruct (Re.match_ NAME_PATTERN s); auto. Qed.

(** C1, as the specification words it, fails on the code: a name with a
    tab in it is non-empty and has neither a space nor a '/', and is
    rejected all the same. *)
Lemma validate_name_rejects_tab :
  validate_name [97; 9; 98]%N what_name
    = Raise (ValueError (invalid_name_msg what_name [97; 9; 98]%N))
  /\ [97; 9; 98]%N <> @nil char
  /\ ~ In SPACE [97; 9; 98]%N
  /\ ~ In SLASH [97; 9; 98]%N.
Proof.
  split; [reflexivity|]. split; [discriminate|].
  split; rewrite <- contains_false; reflexivity.
Qed.

(** C1 (amended): [validate_name s] raises when [s] is empty, contains a
    space or contains '/', and returns for every non-empty [s] that
    contains no whitespace character of any kind and no '/'. *)
Theorem validate_name_rejects_accepts (s what : str) :
  (s = [] \/ In SPACE s \/ In SLASH s ->
   validate_name s what = Raise (ValueError (invalid_name_msg what s)))
  /\
  (s <> [] -> (forall c, In c s -> isspace c = false) -> ~ In SLASH s ->
   validate_name s what = Ok tt).
Proof.
  split.
  - intros H. destruct (validate_name_cases s what) as [E|E]; [|exact E].
    exfalso. apply validate_name_Ok_iff in E as (t & Ht & Ft & Hs).
    rewrite forallb_forall in Ft.
    assert (Hin : forall c, In c s -> c <> LF -> In c t).
    { intros c Hc Hn. destruct Hs as [-> | ->]; [exact Hc|].
      apply in_app_or in Hc as [Hc | [Hc | []]]; [exact Hc | congruence]. }
    destruct H as [-> | [H | H]].
    + destruct Hs as [E | E]; [congruence|].
      destruct t; discriminate.
    + assert (F := Ft _ (Hin _ H ltac:(discriminate))). discriminate.
    + assert (F := Ft _ (Hin _ H ltac:(discriminate))). discriminate.
  - intros Hne Hsp Hsl. apply validate_name_Ok_iff. exists s.
    repeat split; auto. apply forallb_forall. intros c Hc.
    apply name_class_intro; [auto | congruence].
Qed.

Lemma validate_name_rejects_accepts_witness :
  validate_name (lit "web 1") what_name
    = Raise (ValueError (invalid_name_msg what_name (lit "web 1")))
  /\ validate_name (lit "web1") what_name = Ok tt.
Proof.
  split.
  - apply (proj1 (validate_name_rejects_accepts (lit "web 1") what_name)).
    right; left. apply contains_In. reflexivity.
  - apply (proj2 (validate_name_rejects_accepts (lit "web1") what_name)).
    + discriminate.
    + intros c Hc. apply name_class_isspace.
      revert c Hc. apply forallb_forall. reflexivity.
    + apply contains_false. reflexivity.
Defined.

(** What [$] does with a final newline: [validate_name] returns for a
    name followed by a newline.  No call in the tool passes such a string:
    each one trims the name first. *)
Lemma validate_name_accepts_final_newline :
  validate_name (lit "web1" ++ [LF]) what_name = Ok tt
  /\ existsb isspace (lit "web1" ++ [LF]) = true.
Proof. split; reflexivity. Qed.

(** What does hold of an accepted name: only a final newline can be
    whitespace, and there is no '/'. *)
Lemma validate_name_Ok_chars (s what : str) :
  validate_name s what = Ok tt ->
  ~ In SLASH s /\
  forall a c b, s = a ++ c :: b -> isspace c = true -> c = LF /\ b = [].
Proof.
  intros H. apply validate_name_Ok_iff in H as (t & Ht & Ft & Hs).
  rewrite forallb_forall in Ft. split.
  - intros Hin.
    assert (In SLASH t).
    { destruct Hs as [-> | ->]; [exact Hin|].
      apply in_app_or in Hin as [Hin | [Hin | []]]; [exact Hin | discriminate]. }
    assert (F := Ft _ H). discriminate.
  - intros a c b E Hc.
    assert (Hnot : ~ In c t).
    { intros Hin. apply Ft, name_class_isspace in Hin. congruence. }
    destruct Hs as [-> | ->].
    + exfalso. apply Hnot. rewrite E. apply in_elt.
    + destruct b as [|d b].
      * apply app_inj_tail in E as (_ & E). auto.
      * exfalso. apply Hnot.
        assert (E' : t ++ [LF] = (a ++ c :: removelast (d :: b)) ++ [last (d :: b) LF]).
        { rewrite E, <- app_assoc, <- app_comm_cons. do 2 f_equal.
          apply app_removelast_last. discriminate. }
        apply app_inj_tail in E' as (-> & _). apply in_elt.
Qed.

(** A name the tool has stripped before validating it (every caller does)
    satisfies the invariant. *)
Lemma validate_name_strip_invariant (m what : str) :
  validate_name (strip m) what = Ok tt ->
  strip m <> [] /\ existsb isspace (strip m) = false /\ ~ In SLASH (strip m).
Proof.
  rewrite validate_name_strip.
  destruct (is_empty (strip m)) eqn:E1; [discriminate|].
  destruct (has_space_or_slash (strip m)) eqn:E2; [discriminate|].
  intros _. apply is_empty_false in E1.
  unfold has_space_or_slash in E2. apply orb_false_iff in E2 as (E2 & E3).
  apply contains_false in E3. auto.
Qed.



(* ================================================================== *)
(** * [gen_group_cmd] and [gen_address_cmd] *)
(* ================================================================== *)

Lemma gen_group_loop_spec (prefix g : str) (members cmds : list str) :
  gen_group_loop prefix g members cmds =
    match find has_space_or_slash (nonblank_members members) with
    | Some m => Raise (ValueError (invalid_name_msg what_member m))
    | None => Ok (cmds ++ map (group_line prefix g) (nonblank_members members))
    end.
Proof.
  revert cmds. induction members as [|m rest IH]; intros cmds.
  - simpl. rewrite app_nil_r. reflexivity.
  - unfold nonblank_members in *. cbn [gen_group_loop map filter].
    destruct (is_empty (strip m)) eqn:E; cbn [negb].
    + apply IH.
    + unfold validate_member_name. rewrite validate_name_strip, E.
      cbn [orb find]. destruct (has_space_or_slash (strip m)); cbn [bind].
      * reflexivity.
      * rewrite IH. cbn [map].
        destruct (find _ _); [reflexivity|]. rewrite <- app_assoc. reflexivity.
Qed.

(** C7: [gen_group_cmd] fails at the first non-blank member whose trimmed
    form contains whitespace or '/', and returns no list then; otherwise it
    returns one line per non-blank member, in the members' order, each
    [<prefix> <group> static <trimmed member>], the prefix being
    [set address-group] for Firewall and [set shared address-group] for
    Panorama. *)
Theorem gen_group_cmd_spec (platform g : str) (members : list str) :
  gen_group_cmd platform g members =
    match find has_space_or_slash (nonblank_members members) with
    | Some m => Raise (ValueError (invalid_name_msg what_member m))
    | None =>
        Ok (map (fun m => group_prefix platform ++ lit " " ++ g
                            ++ lit " static " ++ m)
                (nonblank_members members))
    end
  /\ group_prefix (lit "Firewall") = lit "set address-group"
  /\ group_prefix (lit "Panorama") = lit "set shared address-group".
Proof.
  split; [|split; reflexivity].
  unfold gen_group_cmd. rewrite gen_group_loop_spec. reflexivity.
Qed.

(** The example of the specification. *)
Lemma gen_group_cmd_example :
  gen_group_cmd (lit "Firewall") (lit "grp1") [lit "a"; lit "b"]
  = Ok [lit "set address-group grp1 static a";
        lit "set address-group grp1 static b"].
Proof. reflexivity. Qed.

Lemma gen_address_cmd_examples :
  gen_address_cmd (lit "Firewall") (lit "web1") (lit "10.0.0.1/32")
    = lit "set address web1 ip-netmask 10.0.0.1/32"
  /\ gen_address_cmd (lit "Panorama") (lit "web1") (lit "10.0.0.1/32")
    = lit "set shared address web1 ip-netmask 10.0.0.1/32".
Proof. split; reflexivity. Qed.

(** C10: every platform string other than "Firewall" gets the shared
    dialect from both generators: [gen_address_cmd] returns the
    [set shared address] command, and [gen_group_cmd] returns one
    [set shared address-group <group> static <member>] line for each
    trimmed non-blank member, as it does for "Panorama".  No platform is
    refused: [gen_address_cmd] always returns, and whether [gen_group_cmd]
    raises depends on the members only. *)
Theorem platform_other_than_Firewall_is_shared
    (platform name cidr g : str) (members : list str) :
  platform <> lit "Firewall" ->
  gen_address_cmd platform name cidr
    = lit "set shared address " ++ name ++ lit " ip-netmask " ++ cidr
  /\ group_prefix platform = lit "set shared address-group"
  /\ gen_group_cmd platform g members
     = gen_group_cmd (lit "Panorama") g members
  /\ (forall platform',
       succeeds (gen_group_cmd platform' g members)
       = succeeds (gen_group_cmd platform g members))
  /\ gen_group_cmd platform g members
     = match find has_space_or_slash (nonblank_members members) with
       | Some m => Raise (ValueError (invalid_name_msg what_member m))
       | None =>
           Ok (map (fun m => lit "set shared address-group" ++ lit " " ++ g
                               ++ lit " static " ++ m)
                   (nonblank_members members))
       end.
Proof.
  intros H. apply eqb_neq in H.
  assert (P : group_prefix platform = lit "set shared address-group").
  { unfold group_prefix. rewrite H. reflexivity. }
  split; [|split; [|split; [|split]]].
  - unfold gen_address_cmd. rewrite H. reflexivity.
  - exact P.
  - unfold gen_group_cmd. rewrite P.
    assert (P' : group_prefix (lit "Panorama") = lit "set shared address-group")
      by (vm_compute; reflexivity).
    rewrite P'. reflexivity.
  - intros platform'. unfold gen_group_cmd. rewrite !gen_group_loop_spec.
    destruct (find _ _); reflexivity.
  - unfold gen_group_cmd. rewrite P, gen_group_loop_spec. reflexivity.
Qed.

Lemma platform_other_than_Firewall_is_shared_witness :
  gen_address_cmd (lit "firewall") (lit "web1") (lit "10.0.0.1/32")
    = lit "set shared address web1 ip-netmask 10.0.0.1/32"
  /\ gen_group_cmd (lit "firewall") (lit "grp1") [lit "a"; lit " b "]
     = gen_group_cmd (lit "Panorama") (lit "grp1") [lit "a"; lit " b "]
  /\ gen_group_cmd (lit "firewall") (lit "grp1") [lit "a"; lit " b "]
     = Ok [lit "set shared address-group grp1 static a";
           lit "set shared address-group grp1 static b"].
Proof.
  assert (H : lit "firewall" <> lit "Firewall") by (apply eqb_neq; reflexivity).
  destruct (platform_other_than_Firewall_is_shared
              (lit "firewall") (lit "web1") (lit "10.0.0.1/32") (lit "grp1")
              [lit "a"; lit " b "] H) as (H1 & _ & H3 & _ & H5).
  split; [exact H1|]. split; [exact H3|].
  rewrite H5. vm_compute. reflexivity.
Defined.

(* ================================================================== *)
(** * Names and commands: further properties *)
(* ================================================================== *)

Lemma stripped_nonblank_members (cells : list str) :
  stripped_nonblank cells = nonblank_members cells.
Proof.
  unfold stripped_nonblank, nonblank_members.
  induction cells as [|c cells IH]; [reflexivity|].
  cbn [map filter]. destruct (is_empty (strip c)); cbn [negb map]; rewrite IH;
    reflexivity.
Qed.

Lemma nonblank_members_app (a b : list str) :
  nonblank_members (a ++ b) = nonblank_members a ++ nonblank_members b.
Proof. unfold nonblank_members. rewrite map_app, filter_app. reflexivity. Qed.

(** A member that is trimmed and not blank stays as it is. *)
Lemma nonblank_members_fixed (members : list str) :
  Forall (fun m => strip m = m /\ m <> []) members ->
  nonblank_members members = members.
Proof.
  unfold nonblank_members. induction 1 as [|m members (S & N) _ IH];
    [reflexivity|].
  cbn [map filter]. rewrite S. destruct m; [congruence|].
  cbn [is_empty negb]. rewrite IH. reflexivity.
Qed.

Lemma nonblank_members_trimmed (members : list str) :
  Forall (fun m => strip m = m /\ m <> []) (nonblank_members members).
Proof.
  unfold nonblank_members. induction members as [|m members IH];
    [constructor|].
  cbn [map filter]. destruct (is_empty (strip m)) eqn:E; cbn [negb]; [exact IH|].
  constructor; [|exact IH]. split; [apply strip_idempotent|].
  apply is_empty_false, E.
Qed.

Lemma nonblank_members_idempotent (members : list str) :
  nonblank_members (nonblank_members members) = nonblank_members members.
Proof. apply nonblank_members_fixed, nonblank_members_trimmed. Qed.

Lemma has_space_or_slash_false (s : str) :
  has_space_or_slash s = false <->
  existsb isspace s = false /\ ~ In SLASH s.
Proof.
  unfold has_space_or_slash. rewrite orb_false_iff, contains_false.
  reflexivity.
Qed.

Lemma isspace_SPACE : isspace SPACE = true.
Proof. reflexivity. Qed.

Lemma existsb_false_forall {A : Type} (p : A -> bool) (l : list A) :
  existsb p l = false <-> forall x, In x l -> p x = false.
Proof.
  induction l as [|a l IH]; cbn [existsb In].
  - split; [intros _ x [] | reflexivity].
  - rewrite orb_false_iff, IH. split.
    + intros (Ha & Hl) x [<- | Hx]; auto.
    + intros H. split; [apply H; left; reflexivity | intros x Hx; apply H; right; exact Hx].
Qed.

Lemma no_space_contains (s : str) :
  existsb isspace s = false -> contains SPACE s = false.
Proof.
  intros H. apply contains_false. intros Hin.
  rewrite existsb_false_forall in H. specialize (H _ Hin). discriminate.
Qed.

(** X1: a name that was trimmed first, as every caller does, is accepted
    exactly when it is not empty and holds neither a whitespace character
    nor a '/'. *)
Theorem validate_name_of_trimmed (m what : str) :
  validate_name (strip m) what = Ok tt <->
  strip m <> [] /\ existsb isspace (strip m) = false /\ ~ In SLASH (strip m).
Proof.
  split; [apply validate_name_strip_invariant|].
  intros (Hne & Hsp & Hsl). rewrite validate_name_strip.
  apply is_empty_false in Hne. rewrite Hne.
  rewrite (proj2 (has_space_or_slash_false _) (conj Hsp Hsl)). reflexivity.
Qed.

(** X2: the strings [validate_name] accepts are exactly the non-empty
    strings without whitespace and without '/', and those followed by one
    newline; every other string raises the [ValueError] that quotes it. *)
Theorem validate_name_accepts_exactly (s what : str) :
  (validate_name s what = Ok tt <->
   exists t, is_name t /\ (s = t \/ s = t ++ [LF]))
  /\ (validate_name s what = Ok tt
      \/ validate_name s what = Raise (ValueError (invalid_name_msg what s))).
Proof.
  split; [|apply validate_name_cases].
  rewrite validate_name_Ok_iff. split.
  - intros (t & Ht & Ft & Hs). exists t. split; [|exact Hs].
    split; [exact Ht|]. rewrite forallb_forall in Ft. split.
    + apply existsb_false_forall. intros c Hc.
      apply name_class_isspace, Ft, Hc.
    + intros Hin. specialize (Ft _ Hin). discriminate.
  - intros (t & (Ht & Hsp & Hsl) & Hs). exists t.
    split; [exact Ht|]. split; [|exact Hs].
    apply forallb_forall. intros c Hc. apply name_class_intro.
    + rewrite existsb_false_forall in Hsp. apply Hsp, Hc.
    + intros ->. contradiction.
Qed.

(** ** The fields of a command *)

Lemma split_words (w rest : str) :
  contains SPACE w = false ->
  split SPACE (w ++ lit " " ++ rest) = w :: split SPACE rest.
Proof. intros H. apply (split_app_sep SPACE w rest H). Qed.

(** X3: split at its spaces, an address command gives back the name and
    the address it was made from, when neither holds a space: the command
    reads back without ambiguity. *)
Theorem gen_address_cmd_fields (platform name cidr : str) :
  contains SPACE name = false -> contains SPACE cidr = false ->
  split SPACE (gen_address_cmd platform name cidr)
  = if Py.eqb platform (lit "Firewall")
    then [lit "set"; lit "address"; name; lit "ip-netmask"; cidr]
    else [lit "set"; lit "shared"; lit "address"; name; lit "ip-netmask"; cidr].
Proof.
  intros Hn Hc. unfold gen_address_cmd.
  destruct (Py.eqb platform (lit "Firewall")).
  - change (lit "set address " ++ name ++ lit " ip-netmask " ++ cidr)
      with (lit "set" ++ lit " " ++ lit "address" ++ lit " " ++ name ++ lit " "
            ++ lit "ip-netmask" ++ lit " " ++ cidr).
    rewrite !split_words by (try assumption; vm_compute; reflexivity).
    rewrite (split_no_sep _ _ Hc). reflexivity.
  - change (lit "set shared address " ++ name ++ lit " ip-netmask " ++ cidr)
      with (lit "set" ++ lit " " ++ lit "shared" ++ lit " " ++ lit "address"
            ++ lit " " ++ name ++ lit " " ++ lit "ip-netmask" ++ lit " " ++ cidr).
    rewrite !split_words by (try assumption; vm_compute; reflexivity).
    rewrite (split_no_sep _ _ Hc). reflexivity.
Qed.

Lemma gen_address_cmd_fields_witness :
  split SPACE (gen_address_cmd (lit "Panorama") (lit "web1") (lit "10.0.0.1/32"))
  = [lit "set"; lit "shared"; lit "address"; lit "web1"; lit "ip-netmask";
     lit "10.0.0.1/32"].
Proof.
  apply (gen_address_cmd_fields (lit "Panorama") (lit "web1") (lit "10.0.0.1/32"));
    vm_compute; reflexivity.
Defined.

Lemma find_none_forall {A : Type} (p : A -> bool) (l : list A) :
  find p l = None <-> Forall (fun x => p x = false) l.
Proof.
  induction l as [|a l IH]; cbn [find].
  - split; [constructor | reflexivity].
  - destruct (p a) eqn:E.
    + split; [discriminate|]. intros H. apply Forall_inv in H. congruence.
    + rewrite IH. split; [intros H; constructor; assumption | apply Forall_inv_tail].
Qed.

Lemma find_app {A : Type} (p : A -> bool) (a b : list A) :
  find p (a ++ b) = match find p a with Some x => Some x | None => find p b end.
Proof.
  induction a as [|x a IH]; [reflexivity|]. cbn [app find].
  destruct (p x); [reflexivity | exact IH].
Qed.

(** [gen_group_cmd] on members that are trimmed, not blank and valid. *)
Lemma gen_group_cmd_valid (platform g : str) (members : list str) :
  Forall (fun m => strip m = m /\ m <> [] /\ has_space_or_slash m = false)
    members ->
  gen_group_cmd platform g members
  = Ok (map (group_line (group_prefix platform) g) members).
Proof.
  intros F. unfold gen_group_cmd. cbv zeta. rewrite gen_group_loop_spec.
  rewrite nonblank_members_fixed
    by (eapply Forall_impl; [|exact F]; cbv beta; tauto).
  replace (find has_space_or_slash members) with (@None str); [reflexivity|].
  symmetry. apply find_none_forall.
  eapply Forall_impl; [|exact F]. cbv beta. tauto.
Qed.

(** X4: [gen_group_cmd] of two member lists one after the other is the
    lines of the first followed by the lines of the second, and fails
    where the first of the two calls to fail does. *)
Theorem gen_group_cmd_app (platform g : str) (members1 members2 : list str) :
  gen_group_cmd platform g (members1 ++ members2)
  = (cmds1 <- gen_group_cmd platform g members1 ;;
     cmds2 <- gen_group_cmd platform g members2 ;;
     Ok (cmds1 ++ cmds2)).
Proof.
  unfold gen_group_cmd. cbv zeta. rewrite !gen_group_loop_spec.
  rewrite nonblank_members_app, find_app.
  destruct (find has_space_or_slash (nonblank_members members1));
    [reflexivity|].
  cbn [bind].
  destruct (find has_space_or_slash (nonblank_members members2));
    [reflexivity|].
  cbn [bind app]. rewrite map_app. reflexivity.
Qed.

(** X5: blank members and the whitespace around a member do not count:
    [gen_group_cmd] returns for a member list what it returns for its
    trimmed, non-blank members. *)
Theorem gen_group_cmd_trimmed (platform g : str) (members : list str) :
  gen_group_cmd platform g (nonblank_members members)
  = gen_group_cmd platform g members.
Proof.
  unfold gen_group_cmd. cbv zeta. rewrite !gen_group_loop_spec.
  rewrite nonblank_members_idempotent. reflexivity.
Qed.

(** X6: every line [gen_group_cmd] returns has the same fields when the
    group name holds no space: the dialect words, the group, [static], and
    one member, the members being the trimmed non-blank ones in order. *)
Theorem gen_group_cmd_fields (platform g : str) (members cmds : list str) :
  contains SPACE g = false ->
  gen_group_cmd platform g members = Ok cmds ->
  map (split SPACE) cmds
  = map (fun m =>
           (if Py.eqb platform (lit "Firewall")
            then [lit "set"; lit "address-group"]
            else [lit "set"; lit "shared"; lit "address-group"])
           ++ [g; lit "static"; m])
        (nonblank_members members).
Proof.
  intros Hg. unfold gen_group_cmd. cbv zeta. rewrite gen_group_loop_spec.
  destruct (find has_space_or_slash (nonblank_members members)) eqn:F;
    [discriminate|].
  intros H. apply Ok_inj in H as <-. cbn [app]. rewrite map_map.
  apply map_ext_in. intros m Hm.
  apply find_none_forall in F. rewrite Forall_forall in F.
  specialize (F m Hm). apply has_space_or_slash_false in F as (F & _).
  apply no_space_contains in F.
  unfold group_line, group_prefix.
  destruct (Py.eqb platform (lit "Firewall")).
  - change (lit "set address-group" ++ lit " " ++ g ++ lit " static " ++ m)
      with (lit "set" ++ lit " " ++ lit "address-group" ++ lit " " ++ g
            ++ lit " " ++ lit "static" ++ lit " " ++ m).
    rewrite !split_words by (try assumption; vm_compute; reflexivity).
    rewrite (split_no_sep _ _ F). reflexivity.
  - change (lit "set shared address-group" ++ lit " " ++ g ++ lit " static " ++ m)
      with (lit "set" ++ lit " " ++ lit "shared" ++ lit " " ++ lit "address-group"
            ++ lit " " ++ g ++ lit " " ++ lit "static" ++ lit " " ++ m).
    rewrite !split_words by (try assumption; vm_compute; reflexivity).
    rewrite (split_no_sep _ _ F). reflexivity.
Qed.

Lemma gen_group_cmd_fields_witness :
  map (split SPACE)
    [lit "set address-group grp1 static a"; lit "set address-group grp1 static b"]
  = [[lit "set"; lit "address-group"; lit "grp1"; lit "static"; lit "a"];
     [lit "set"; lit "address-group"; lit "grp1"; lit "static"; lit "b"]].
Proof.
  apply (gen_group_cmd_fields (lit "Firewall") (lit "grp1")
           [lit " a"; lit ""; lit "b "]);
    vm_compute; reflexivity.
Defined.

(* ================================================================== *)
(** * The file readers *)
(* ================================================================== *)

(** ** Trimming *)

Lemma lstrip_of_all (p : char -> bool) (s : str) :
  forallb p s = true -> lstrip_of p s = [].
Proof.
  induction s as [|c s IH]; [reflexivity|]. cbn [forallb lstrip_of].
  intros H. apply andb_true_iff in H as (-> & H). apply IH, H.
Qed.

Lemma lstrip_of_app (p : char -> bool) (a b : str) :
  lstrip_of p (a ++ b)
  = if forallb p a then lstrip_of p b else lstrip_of p a ++ b.
Proof.
  induction a as [|c a IH]; [reflexivity|]. cbn [app forallb lstrip_of].
  destruct (p c); [exact IH | reflexivity].
Qed.

Lemma rstrip_of_app_all (p : char -> bool) (a suf : str) :
  forallb p suf = true -> rstrip_of p (a ++ suf) = rstrip_of p a.
Proof.
  intros H. unfold rstrip_of. rewrite rev_app_distr, lstrip_of_app.
  replace (forallb p (rev suf)) with true; [reflexivity|].
  symmetry. apply forallb_forall. intros c Hc. apply in_rev in Hc.
  rewrite forallb_forall in H. apply H, Hc.
Qed.

Lemma strip_app_space (a suf : str) :
  forallb isspace suf = true -> strip (a ++ suf) = strip a.
Proof.
  intros H. unfold strip. rewrite lstrip_of_app.
  destruct (forallb isspace a) eqn:E.
  - rewrite (lstrip_of_all _ _ H), (lstrip_of_all _ _ E). reflexivity.
  - apply rstrip_of_app_all, H.
Qed.

Lemma strip_rstrip_LF (s : str) : strip (rstrip_LF s) = strip s.
Proof.
  unfold rstrip_LF.
  destruct (rstrip_of_prefix (N.eqb LF) s) as (suf & E & F).
  rewrite E at 2. symmetry. apply strip_app_space.
  apply forallb_forall. intros c Hc. rewrite forallb_forall in F.
  apply F, N.eqb_eq in Hc. subst c. reflexivity.
Qed.

Lemma strip_empty_all_space (s : str) :
  strip s = [] -> forallb isspace s = true.
Proof.
  unfold strip. intros H.
  destruct (lstrip_of_suffix isspace s) as (pre & E & Fp).
  destruct (rstrip_of_prefix isspace (lstrip_of isspace s)) as (suf & E' & Fs).
  rewrite H in E'. simpl in E'. rewrite E, E', forallb_app, Fp, Fs. reflexivity.
Qed.

Lemma strip_all_space (s : str) :
  forallb isspace s = true -> strip s = [].
Proof. intros H. unfold strip. rewrite (lstrip_of_all _ _ H). reflexivity. Qed.

Lemma nonblank_members_map (f : str -> str) (l : list str) :
  (forall x, strip (f x) = strip x) ->
  nonblank_members (map f l) = nonblank_members l.
Proof.
  intros H. unfold nonblank_members. rewrite map_map.
  rewrite (map_ext _ _ H). reflexivity.
Qed.

(** ** A separator-free suffix only touches the last piece *)

Lemma split_app_no_sep (sep : char) (a suf : str) :
  contains sep suf = false ->
  split sep (a ++ suf)
  = removelast (split sep a) ++ [last (split sep a) [] ++ suf].
Proof.
  intros H. induction a as [|c a IH].
  - cbn [app split removelast last]. apply split_no_sep, H.
  - cbn [app split]. destruct (c =? sep)%N eqn:E.
    + rewrite IH. pose proof (split_not_nil sep a) as N.
      destruct (split sep a) as [|p ps]; [congruence|]. reflexivity.
    + rewrite IH. pose proof (split_not_nil sep a) as N.
      destruct (split sep a) as [|p ps]; [congruence|].
      destruct ps as [|q ps]; reflexivity.
Qed.

Lemma line_members_app_space (ln suf : str) :
  forallb isspace suf = true -> line_members (ln ++ suf) = line_members ln.
Proof.
  intros H. unfold line_members. rewrite !stripped_nonblank_members.
  rewrite split_app_no_sep
    by (eapply forallb_contains_false; [exact H | reflexivity]).
  pose proof (split_not_nil COMMA ln) as N.
  rewrite (app_removelast_last [] N) at 3.
  rewrite !nonblank_members_app. f_equal.
  unfold nonblank_members. cbn [map]. rewrite strip_app_space by exact H.
  reflexivity.
Qed.

Lemma line_members_rstrip_LF (ln : str) :
  line_members (rstrip_LF ln) = line_members ln.
Proof.
  unfold rstrip_LF.
  destruct (rstrip_of_prefix (N.eqb LF) ln) as (suf & E & F).
  rewrite E at 2. symmetry. apply line_members_app_space.
  apply forallb_forall. intros c Hc. rewrite forallb_forall in F.
  apply F, N.eqb_eq in Hc. subst c. reflexivity.
Qed.

Lemma row_members_strip (row : list str) :
  row_members (map strip row) = row_members row.
Proof.
  unfold row_members. rewrite !stripped_nonblank_members.
  destruct row as [|c row]; [reflexivity|]. cbn [map tl].
  apply nonblank_members_map, strip_idempotent.
Qed.

Lemma blank_line_members (ln : str) :
  is_empty (strip ln) = true -> line_members ln = [].
Proof.
  intros H.
  assert (E : strip ln = [])
    by (destruct (strip ln); [reflexivity | discriminate]).
  unfold line_members, stripped_nonblank.
  rewrite split_no_sep.
  - cbn [filter]. rewrite H. reflexivity.
  - eapply forallb_contains_false; [apply strip_empty_all_space, E | reflexivity].
Qed.

(** ** The loops *)

Lemma first_invalid_app {A : Type} (what : str) (a b : list str)
    (k : res exn A) :
  first_invalid what (a ++ b) k
  = first_invalid what a (first_invalid what b k).
Proof.
  unfold first_invalid. rewrite find_app.
  destruct (find has_space_or_slash a); reflexivity.
Qed.

Lemma first_invalid_none {A : Type} (what : str) (names : list str)
    (k : res exn A) :
  Forall (fun n => has_space_or_slash n = false) names ->
  first_invalid what names k = k.
Proof.
  intros F. unfold first_invalid.
  rewrite (proj2 (find_none_forall _ _) F). reflexivity.
Qed.

Lemma first_invalid_Ok {A : Type} (what : str) (names : list str)
    (k : res exn A) (a : A) :
  first_invalid what names k = Ok a ->
  Forall (fun n => has_space_or_slash n = false) names /\ k = Ok a.
Proof.
  unfold first_invalid.
  destruct (find has_space_or_slash names) eqn:F; [discriminate|].
  intros H. split; [apply find_none_forall, F | exact H].
Qed.

Lemma validate_trimmed (m what : str) :
  strip m = m -> m <> [] ->
  validate_name m what
  = if has_space_or_slash m
    then Raise (ValueError (invalid_name_msg what m)) else Ok tt.
Proof.
  intros S N. rewrite <- S at 1. rewrite validate_name_strip, S.
  apply is_empty_false in N. rewrite N. reflexivity.
Qed.

Lemma validate_members_spec (members : list str) :
  Forall (fun m => strip m = m /\ m <> []) members ->
  validate_members members = first_invalid what_member members (Ok tt).
Proof.
  induction 1 as [|m members (S & N) _ IH]; [reflexivity|].
  cbn [validate_members]. unfold validate_member_name.
  rewrite (validate_trimmed _ _ S N). unfold first_invalid. cbn [find].
  destruct (has_space_or_slash m); [reflexivity|]. cbn [bind]. exact IH.
Qed.

Lemma validate_names_spec (names : list str) (what : str) :
  Forall (fun m => strip m = m /\ m <> []) names ->
  validate_names names what = first_invalid what names (Ok tt).
Proof.
  induction 1 as [|m names (S & N) _ IH]; [reflexivity|].
  cbn [validate_names].
  rewrite (validate_trimmed _ _ S N). unfold first_invalid. cbn [find].
  destruct (has_space_or_slash m); [reflexivity|]. cbn [bind]. exact IH.
Qed.

Lemma names_loop_txt_spec (lines names : list str) :
  names_loop_txt lines names
  = first_invalid what_name (nonblank_members lines)
      (Ok (names ++ nonblank_members lines)).
Proof.
  revert names. induction lines as [|ln lines IH]; intros names.
  - cbn. rewrite app_nil_r. reflexivity.
  - cbn [names_loop_txt]. cbv zeta. unfold nonblank_members in *.
    cbn [map filter]. destruct (is_empty (strip ln)) eqn:E; cbn [negb].
    + apply IH.
    + rewrite validate_name_strip, E. cbn [orb].
      unfold first_invalid in *. cbn [find].
      destruct (has_space_or_slash (strip ln)); cbn [bind]; [reflexivity|].
      rewrite IH, <- app_assoc. reflexivity.
Qed.

Lemma names_loop_csv_spec (rows : list (list str)) (names : list str) :
  names_loop_csv rows names
  = first_invalid what_name (nonblank_members (first_cells rows))
      (Ok (names ++ nonblank_members (first_cells rows))).
Proof.
  revert names. induction rows as [|row rows IH]; intros names.
  - cbn. rewrite app_nil_r. reflexivity.
  - cbn [names_loop_csv]. unfold first_cells in *. cbn [flat_map].
    destruct row as [|cell later]; [apply IH|].
    cbv zeta. cbn [firstn app]. unfold nonblank_members in *.
    cbn [map filter]. destruct (is_empty (strip cell)) eqn:E; cbn [negb].
    + apply IH.
    + rewrite validate_name_strip, E. cbn [orb].
      unfold first_invalid in *. cbn [find].
      destruct (has_space_or_slash (strip cell)); cbn [bind]; [reflexivity|].
      rewrite IH, <- app_assoc. reflexivity.
Qed.

Lemma normalize_each_app (a b : list str) :
  normalize_each (a ++ b)
  = (x <- normalize_each a ;; y <- normalize_each b ;; Ok (x ++ y)).
Proof.
  induction a as [|v a IH]; cbn [app normalize_each bind].
  - destruct (normalize_each b); reflexivity.
  - destruct (normalize_ip_or_cidr v); [|reflexivity]. cbn [bind].
    rewrite IH. destruct (normalize_each a); [|reflexivity]. cbn [bind].
    destruct (normalize_each b); reflexivity.
Qed.

Lemma ips_loop_txt_spec (lines ips : list str) :
  ips_loop_txt lines ips
  = (more <- normalize_each (nonblank_members lines) ;; Ok (ips ++ more)).
Proof.
  revert ips. induction lines as [|ln lines IH]; intros ips.
  - cbn. rewrite app_nil_r. reflexivity.
  - cbn [ips_loop_txt]. cbv zeta. unfold nonblank_members in *.
    cbn [map filter]. destruct (is_empty (strip ln)) eqn:E; cbn [negb].
    + apply IH.
    + cbn [normalize_each].
      destruct (normalize_ip_or_cidr (strip ln)); cbn [bind]; [|reflexivity].
      rewrite IH. destruct (normalize_each _); cbn [bind]; [|reflexivity].
      rewrite <- app_assoc. reflexivity.
Qed.

Lemma ips_loop_csv_spec (rows : list (list str)) (ips : list str) :
  ips_loop_csv rows ips
  = (more <- normalize_each (nonblank_members (first_cells rows)) ;;
     Ok (ips ++ more)).
Proof.
  revert ips. induction rows as [|row rows IH]; intros ips.
  - cbn. rewrite app_nil_r. reflexivity.
  - cbn [ips_loop_csv]. unfold first_cells in *. cbn [flat_map].
    destruct row as [|cell later]; [apply IH|].
    cbv zeta. cbn [firstn app]. unfold nonblank_members in *.
    cbn [map filter]. destruct (is_empty (strip cell)) eqn:E; cbn [negb].
    + apply IH.
    + cbn [normalize_each].
      destruct (normalize_ip_or_cidr (strip cell)); cbn [bind]; [|reflexivity].
      rewrite IH. destruct (normalize_each _); cbn [bind]; [|reflexivity].
      rewrite <- app_assoc. reflexivity.
Qed.

Lemma line_members_trimmed (ln : str) :
  Forall (fun m => strip m = m /\ m <> []) (line_members ln).
Proof.
  unfold line_members. rewrite stripped_nonblank_members.
  apply nonblank_members_trimmed.
Qed.

Lemma row_members_trimmed (row : list str) :
  Forall (fun m => strip m = m /\ m <> []) (row_members row).
Proof.
  unfold row_members. rewrite stripped_nonblank_members.
  apply nonblank_members_trimmed.
Qed.

Lemma members_loop_txt_spec (lines : list str) (acc : list (list str)) :
  members_loop_txt lines acc
  = first_invalid what_member (List.concat (map line_members lines))
      (Ok (acc ++ map line_members lines)).
Proof.
  revert acc. induction lines as [|ln lines IH]; intros acc.
  - cbn. rewrite app_nil_r. reflexivity.
  - cbn [members_loop_txt map List.concat]. rewrite first_invalid_app.
    destruct (is_empty (strip ln)) eqn:E.
    + rewrite (blank_line_members _ E), IH, <- app_assoc. reflexivity.
    + cbv zeta. fold (line_members ln).
      rewrite (validate_members_spec _ (line_members_trimmed ln)).
      unfold first_invalid.
      destruct (find has_space_or_slash (line_members ln)); cbn [bind];
        [reflexivity|].
      rewrite IH, <- app_assoc. reflexivity.
Qed.

Lemma is_nil_id {A : Type} (l : list A) : (if is_nil l then [] else l) = l.
Proof. destruct l; reflexivity. Qed.

Lemma members_loop_csv_spec (rows : list (list str)) (acc : list (list str)) :
  members_loop_csv rows acc
  = first_invalid what_member (List.concat (map row_members (nonempty_rows rows)))
      (Ok (acc ++ map row_members (nonempty_rows rows))).
Proof.
  revert acc. induction rows as [|row rows IH]; intros acc.
  - cbn. rewrite app_nil_r. reflexivity.
  - cbn [members_loop_csv]. unfold nonempty_rows in *. cbn [filter].
    destruct row as [|cell later]; cbn [is_nil negb]; [apply IH|].
    cbv zeta. rewrite is_nil_id. cbn [map List.concat].
    rewrite first_invalid_app.
    change (stripped_nonblank later) with (row_members (cell :: later)).
    rewrite (validate_members_spec _ (row_members_trimmed (cell :: later))).
    unfold first_invalid.
    destruct (find has_space_or_slash (row_members (cell :: later)));
      cbn [bind]; [reflexivity|].
    rewrite IH, <- app_assoc. reflexivity.
Qed.

Lemma first_cells_map (f : str -> str) (rows : list (list str)) :
  first_cells (map (map f) rows) = map f (first_cells rows).
Proof.
  unfold first_cells. induction rows as [|row rows IH]; [reflexivity|].
  cbn [map flat_map]. rewrite IH, map_app.
  destruct row; reflexivity.
Qed.

Lemma nonempty_rows_map (f : str -> str) (rows : list (list str)) :
  nonempty_rows (map (map f) rows) = map (map f) (nonempty_rows rows).
Proof.
  unfold nonempty_rows. induction rows as [|row rows IH]; [reflexivity|].
  cbn [map filter]. destruct row; cbn [map is_nil negb]; rewrite IH;
    reflexivity.
Qed.

Lemma is_name_intro (m : str) :
  m <> [] -> has_space_or_slash m = false -> is_name m.
Proof.
  intros N H. apply has_space_or_slash_false in H as (H1 & H2).
  split; auto.
Qed.

Lemma is_name_trimmed (m : str) :
  is_name m -> strip m = m /\ m <> [] /\ has_space_or_slash m = false.
Proof.
  intros (N & S & L). split; [apply strip_no_space, S|].
  split; [exact N|]. apply has_space_or_slash_false. auto.
Qed.

Lemma Forall_is_name (names : list str) :
  Forall (fun m => strip m = m /\ m <> []) names ->
  Forall (fun n => has_space_or_slash n = false) names ->
  Forall is_name names.
Proof.
  intros F G. rewrite Forall_forall in *. intros m Hm.
  apply is_name_intro; [apply F, Hm | apply G, Hm].
Qed.

(** ** Errors of [normalize_ip_or_cidr] *)

(** X7: an input that is empty or all whitespace is refused as empty;
    any other refused input is refused as invalid, with the input quoted
    as it was given; no other exception leaves the function. *)
Theorem normalize_ip_or_cidr_errors (value : str) :
  (forallb isspace value = true ->
   normalize_ip_or_cidr value = Raise (ValueError (lit "IP 地址不能为空")))
  /\ (forallb isspace value = false ->
      (exists text, normalize_ip_or_cidr value = Ok text)
      \/ normalize_ip_or_cidr value
         = Raise (ValueError (invalid_ip_msg value))).
Proof.
  unfold normalize_ip_or_cidr. cbv zeta. split.
  - intros H. rewrite (strip_all_space _ H). reflexivity.
  - intros H. destruct (is_empty (strip value)) eqn:E.
    + assert (S : strip value = [])
        by (destruct (strip value); [reflexivity | discriminate]).
      apply strip_empty_all_space in S. congruence.
    + match goal with
      | |- (exists _, match ?m with _ => _ end = _) \/ _ => destruct m
      end; [left; eexists; reflexivity | right; reflexivity].
Qed.

Section Readers.

Variable readlines : str -> res exn (list str).
Variable csv_reader : str -> res exn (list (list str)).
Variable splitext : str -> str * str.
Variable lower : str -> str.

Local Abbreviation read_names :=
  (read_names_from_file readlines csv_reader splitext lower).
Local Abbreviation read_ips :=
  (read_ips_from_file readlines csv_reader splitext lower).
Local Abbreviation read_members :=
  (read_members_from_file readlines csv_reader splitext lower).
Local Abbreviation cells_of := (file_cells readlines csv_reader splitext lower).
Local Abbreviation members_of :=
  (file_members readlines csv_reader splitext lower).

Lemma read_names_spec (path : str) :
  read_names path
  = (cells <- cells_of path ;;
     first_invalid what_name (nonblank_members cells)
       (if is_nil (nonblank_members cells)
        then Raise (ValueError (lit "未在文件中读取到任何有效名称"))
        else Ok (nonblank_members cells))).
Proof.
  unfold read_names_from_file, file_cells. cbv zeta.
  destruct (Py.eqb (lower (snd (splitext path))) (lit ".csv")).
  - unfold _read_csv_rows. destruct (csv_reader path) as [rows|e];
      [|reflexivity].
    cbn [bind]. rewrite names_loop_csv_spec.
    change (map (fun row => map strip row) rows) with (map (map strip) rows).
    rewrite first_cells_map, (nonblank_members_map _ _ strip_idempotent).
    unfold first_invalid.
    destruct (find has_space_or_slash _); reflexivity.
  - unfold _read_lines_plaintext. destruct (readlines path) as [lines|e];
      [|reflexivity].
    cbn [bind]. rewrite names_loop_txt_spec.
    rewrite (nonblank_members_map _ _ strip_rstrip_LF).
    unfold first_invalid.
    destruct (find has_space_or_slash _); reflexivity.
Qed.

Lemma read_ips_spec (path : str) :
  read_ips path
  = (cells <- cells_of path ;;
     ips <- normalize_each (nonblank_members cells) ;;
     if is_nil ips
     then Raise (ValueError (lit "未在文件中读取到任何有效 IP"))
     else Ok ips).
Proof.
  unfold read_ips_from_file, file_cells. cbv zeta.
  destruct (Py.eqb (lower (snd (splitext path))) (lit ".csv")).
  - unfold _read_csv_rows. destruct (csv_reader path) as [rows|e];
      [|reflexivity].
    cbn [bind]. rewrite ips_loop_csv_spec.
    change (map (fun row => map strip row) rows) with (map (map strip) rows).
    rewrite first_cells_map, (nonblank_members_map _ _ strip_idempotent).
    destruct (normalize_each _); reflexivity.
  - unfold _read_lines_plaintext. destruct (readlines path) as [lines|e];
      [|reflexivity].
    cbn [bind]. rewrite ips_loop_txt_spec.
    rewrite (nonblank_members_map _ _ strip_rstrip_LF).
    destruct (normalize_each _); reflexivity.
Qed.

Lemma read_members_spec (path : str) :
  read_members path
  = (rows <- members_of path ;;
     first_invalid what_member (List.concat rows)
       (if is_nil rows
        then Raise (ValueError (lit "未在文件中读取到任何成员行"))
        else Ok rows)).
Proof.
  unfold read_members_from_file, file_members. cbv zeta.
  destruct (Py.eqb (lower (snd (splitext path))) (lit ".csv")).
  - unfold _read_csv_rows. destruct (csv_reader path) as [rows|e];
      [|reflexivity].
    cbn [bind]. rewrite members_loop_csv_spec.
    change (map (fun row => map strip row) rows) with (map (map strip) rows).
    rewrite nonempty_rows_map, map_map, (map_ext _ _ row_members_strip).
    unfold first_invalid.
    destruct (find has_space_or_slash _); reflexivity.
  - unfold _read_lines_plaintext. destruct (readlines path) as [lines|e];
      [|reflexivity].
    cbn [bind]. rewrite members_loop_txt_spec.
    rewrite map_map, (map_ext _ _ line_members_rstrip_LF).
    unfold first_invalid.
    destruct (find has_space_or_slash _); reflexivity.
Qed.

Lemma read_names_Ok (path : str) (names : list str) :
  read_names path = Ok names -> names <> [] /\ Forall is_name names.
Proof.
  rewrite read_names_spec. destruct (cells_of path) as [cells|];
    [|discriminate].
  cbn [bind]. intros H. apply first_invalid_Ok in H as (F & H).
  destruct (nonblank_members cells) as [|n l] eqn:E; [discriminate|].
  cbn [is_nil] in H. apply Ok_inj in H as <-. split; [discriminate|].
  apply Forall_is_name; [|exact F]. rewrite <- E.
  apply nonblank_members_trimmed.
Qed.

Lemma concat_Forall {A : Type} (P : A -> Prop) (ll : list (list A)) :
  Forall P (List.concat ll) <-> Forall (Forall P) ll.
Proof.
  induction ll as [|l ll IH]; cbn [List.concat].
  - split; constructor.
  - rewrite Forall_app, IH. split.
    + intros (H1 & H2). constructor; assumption.
    + intros H. split; [apply (Forall_inv H) | apply (Forall_inv_tail H)].
Qed.

Lemma members_of_trimmed (path : str) (rows : list (list str)) :
  members_of path = Ok rows ->
  Forall (Forall (fun m => strip m = m /\ m <> [])) rows.
Proof.
  unfold file_members.
  destruct (Py.eqb (lower (snd (splitext path))) (lit ".csv")).
  - destruct (csv_reader path); [|discriminate]. cbn [bind].
    intros H. apply Ok_inj in H as <-. apply Forall_map, Forall_forall.
    intros row _. apply row_members_trimmed.
  - destruct (readlines path); [|discriminate]. cbn [bind].
    intros H. apply Ok_inj in H as <-. apply Forall_map, Forall_forall.
    intros ln _. apply line_members_trimmed.
Qed.

Lemma read_members_Ok (path : str) (rows : list (list str)) :
  read_members path = Ok rows -> rows <> [] /\ Forall (Forall is_name) rows.
Proof.
  rewrite read_members_spec. destruct (members_of path) as [rows'|] eqn:M;
    [|discriminate].
  cbn [bind]. intros H. apply first_invalid_Ok in H as (F & H).
  destruct rows' as [|r l] eqn:E; [discriminate|].
  cbn [is_nil] in H. apply Ok_inj in H as <-. split; [discriminate|].
  apply concat_Forall, Forall_is_name; [|exact F].
  apply concat_Forall, (members_of_trimmed _ _ M).
Qed.

(** X8: [read_names_from_file] returns the trimmed non-blank lines of a
    text file, or first cells of a csv file, in their order; it raises for
    the first of them that holds whitespace or '/', and for a file without
    any; an error of the file itself goes through. *)
Theorem read_names_from_file_spec (path : str) :
  read_names path
  = (cells <- cells_of path ;;
     first_invalid what_name (nonblank_members cells)
       (if is_nil (nonblank_members cells)
        then Raise (ValueError (lit "未在文件中读取到任何有效名称"))
        else Ok (nonblank_members cells))).
Proof. apply read_names_spec. Qed.

(** X9: what [read_names_from_file] returns is a list, not empty, of
    names that are not empty and hold neither whitespace nor '/'. *)
Theorem read_names_from_file_names (path : str) (names : list str) :
  read_names path = Ok names -> names <> [] /\ Forall is_name names.
Proof. apply read_names_Ok. Qed.

(** X10: [read_ips_from_file] normalizes the trimmed non-blank lines, or
    first cells, in their order, raises where the first of them is
    refused, and raises for a file without any. *)
Theorem read_ips_from_file_spec (path : str) :
  read_ips path
  = (cells <- cells_of path ;;
     ips <- normalize_each (nonblank_members cells) ;;
     if is_nil ips
     then Raise (ValueError (lit "未在文件中读取到任何有效 IP"))
     else Ok ips).
Proof. apply read_ips_spec. Qed.

(** X11: [read_members_from_file] returns one member list for each line
    of a text file, and for each row of a csv file that has a cell: the
    trimmed non-blank members, none for a line or row without them.  A csv
    row without any cell is skipped.  It raises for the first member that
    holds whitespace or '/', and for a file that gives no list. *)
Theorem read_members_from_file_spec (path : str) :
  read_members path
  = (rows <- members_of path ;;
     first_invalid what_member (List.concat rows)
       (if is_nil rows
        then Raise (ValueError (lit "未在文件中读取到任何成员行"))
        else Ok rows)).
Proof. apply read_members_spec. Qed.

(** X12: every member [read_members_from_file] returns is not empty and
    holds neither whitespace nor '/', and there is at least one member
    list. *)
Theorem read_members_from_file_names (path : str) (rows : list (list str)) :
  read_members path = Ok rows -> rows <> [] /\ Forall (Forall is_name) rows.
Proof. apply read_members_Ok. Qed.

End Readers.

Lemma read_names_from_file_names_witness :
  [lit "n1"; lit "n2"] <> [] /\ Forall is_name [lit "n1"; lit "n2"].
Proof.
  apply (read_names_from_file_names example_readlines example_csv_reader
           example_splitext example_lower (lit "names.txt")).
  vm_compute. reflexivity.
Defined.

Lemma read_members_from_file_names_witness :
  [[lit "a"; lit "b"]; [lit "c"]] <> []
  /\ Forall (Forall is_name) [[lit "a"; lit "b"]; [lit "c"]].
Proof.
  apply (read_members_from_file_names example_readlines example_csv_reader
           example_splitext example_lower (lit "members2.txt")).
  vm_compute. reflexivity.
Defined.

(* ================================================================== *)
(** * The two-step import *)
(* ================================================================== *)

Lemma group_cmds_loop_spec (platform : str) (pairs : list (str * list str))
    (cmds : list str) :
  Forall (fun p => Forall is_name (snd p)) pairs ->
  group_cmds_loop platform pairs cmds
  = Ok (cmds ++ group_lines platform pairs).
Proof.
  unfold group_lines. revert cmds.
  induction pairs as [|(g, members) pairs IH]; intros cmds F.
  - cbn. rewrite app_nil_r. reflexivity.
  - cbn [group_cmds_loop map List.concat].
    pose proof (Forall_inv F) as Fm. cbn [snd] in Fm.
    rewrite gen_group_cmd_valid
      by (eapply Forall_impl; [|exact Fm]; apply is_name_trimmed).
    cbn [bind]. rewrite (IH _ (Forall_inv_tail F)), <- app_assoc. reflexivity.
Qed.

Lemma combine_snd_Forall {A B : Type} (P : B -> Prop) (a : list A)
    (b : list B) :
  Forall P b -> Forall (fun p => P (snd p)) (combine a b).
Proof.
  intros F. apply Forall_forall. intros (x, y) Hin.
  apply in_combine_r in Hin. rewrite Forall_forall in F. apply F, Hin.
Qed.

Lemma showerror_rejected (title message : str) (u : ui) :
  rejected u (showerror title message u).
Proof.
  unfold rejected, showerror. cbn. repeat split; auto.
  right. eexists _, _. reflexivity.
Qed.

Lemma rejected_refl (u : ui) : rejected u u.
Proof. unfold rejected. auto. Qed.

Lemma existsb_length_0 {A : Type} (ll : list (list A)) :
  existsb (fun l => (List.length l =? 0)%nat) ll = true <-> In [] ll.
Proof.
  rewrite existsb_exists. split.
  - intros (l & Hin & Hl). destruct l; [exact Hin | discriminate].
  - intros H. exists []. auto.
Qed.

Lemma group_lines_not_nil (platform : str) (groups : list str)
    (members_lines : list (list str)) :
  groups <> [] -> List.length members_lines = List.length groups ->
  ~ In [] members_lines ->
  group_lines platform (combine groups members_lines) <> [].
Proof.
  intros Hg Hl Hn. destruct groups as [|g groups]; [congruence|].
  destruct members_lines as [|ms members_lines]; [discriminate|].
  destruct ms as [|m ms]; [exfalso; apply Hn; left; reflexivity|].
  unfold group_lines. cbn. discriminate.
Qed.

Lemma is_nil_false {A : Type} (l : list A) : l <> [] -> is_nil l = false.
Proof. destruct l; [congruence | reflexivity]. Qed.

Section ImportFacts.

Variable readlines : str -> res exn (list str).
Variable csv_reader : str -> res exn (list (list str)).
Variable splitext : str -> str * str.
Variable lower : str -> str.
Variable basename : str -> str.
Variable askopenfilename : str -> str.

Local Abbreviation read_names :=
  (read_names_from_file readlines csv_reader splitext lower).
Local Abbreviation read_ips :=
  (read_ips_from_file readlines csv_reader splitext lower).
Local Abbreviation read_members :=
  (read_members_from_file readlines csv_reader splitext lower).
Local Abbreviation import_address :=
  (import_address_two_step readlines csv_reader splitext lower basename
     askopenfilename).
Local Abbreviation import_group :=
  (import_group_two_step readlines csv_reader splitext lower basename
     askopenfilename).
Local Abbreviation import_file :=
  (import_file_two_step readlines csv_reader splitext lower basename
     askopenfilename).

(** The commands of an address import. *)
Local Abbreviation address_cmds u names ips :=
  (map (fun '(n, ip) => gen_address_cmd (platform_var u) n ip)
       (combine names ips)).

Lemma address_cmds_length (u : ui) (names ips : list str) :
  List.length names = List.length ips ->
  List.length (address_cmds u names ips) = List.length names.
Proof.
  intros He. rewrite length_map, length_combine, <- He. apply Nat.min_id.
Qed.

Lemma import_address_cases (u : ui) :
  import_address u
  = if is_empty (askopenfilename title_names) then u
    else
      match read_names (askopenfilename title_names) with
      | Raise e => showerror (lit "名称文件错误") (exn_str e) u
      | Ok names =>
          if is_empty (askopenfilename title_ips) then u
          else
            match read_ips (askopenfilename title_ips) with
            | Raise e => showerror (lit "IP 文件错误") (exn_str e) u
            | Ok ips =>
                if (List.length names =? List.length ips)%nat
                then
                  set_result_label
                    (lit "已从文件生成地址对象命令："
                     ++ basename (askopenfilename title_names)
                     ++ lit ", " ++ basename (askopenfilename title_ips))
                    (show_output (address_cmds u names ips) u)
                else
                  showerror (lit "数量不一致")
                    (lit "名称 " ++ str_len names ++ lit " 行，IP "
                     ++ str_len ips ++ lit " 行") u
            end
      end.
Proof.
  unfold import_address_two_step, _ask_file. cbv zeta.
  destruct (is_empty (askopenfilename title_names)); [reflexivity|].
  destruct (read_names (askopenfilename title_names)) as [names|];
    [|reflexivity].
  destruct (is_empty (askopenfilename title_ips)); [reflexivity|].
  destruct (read_ips (askopenfilename title_ips)) as [ips|]; [|reflexivity].
  destruct (List.length names =? List.length ips)%nat; reflexivity.
Qed.

Lemma import_address_run (u : ui) (names ips : list str) :
  is_empty (askopenfilename title_names) = false ->
  read_names (askopenfilename title_names) = Ok names ->
  is_empty (askopenfilename title_ips) = false ->
  read_ips (askopenfilename title_ips) = Ok ips ->
  import_address u
  = if (List.length names =? List.length ips)%nat
    then Ui (join [LF] (address_cmds u names ips) ++ [LF])
           (lit "已从文件生成地址对象命令：" ++ basename (askopenfilename title_names)
            ++ lit ", " ++ basename (askopenfilename title_ips))
           (platform_var u) (errors_shown u)
    else showerror (lit "数量不一致")
           (lit "名称 " ++ str_len names ++ lit " 行，IP " ++ str_len ips
            ++ lit " 行") u.
Proof.
  intros Np Rn Ip Ri. rewrite import_address_cases, Np, Rn, Ip, Ri.
  destruct (List.length names =? List.length ips)%nat eqn:L; [|reflexivity].
  apply Nat.eqb_eq in L.
  unfold set_result_label, show_output. cbv zeta.
  cbn [output_text result_label platform_var errors_shown].
  rewrite is_nil_false; [reflexivity|].
  destruct (read_names_Ok _ _ _ _ _ _ Rn) as (Hne & _).
  intros E. apply (f_equal (@List.length str)) in E.
  rewrite address_cmds_length in E by exact L.
  destruct names; [congruence | discriminate].
Qed.

(** X13: in an address import whose two files were read, names and
    addresses of different counts are rejected with the count error and
    nothing else changes; with equal counts the output box gets one
    command per position, the i-th made of the i-th name and the i-th
    address, each line ended by a newline. *)
Theorem import_address_pairs_by_position (u : ui) (names ips : list str) :
  is_empty (askopenfilename title_names) = false ->
  read_names (askopenfilename title_names) = Ok names ->
  is_empty (askopenfilename title_ips) = false ->
  read_ips (askopenfilename title_ips) = Ok ips ->
  (List.length names <> List.length ips ->
   import_address u
   = showerror (lit "数量不一致")
       (lit "名称 " ++ str_len names ++ lit " 行，IP " ++ str_len ips
        ++ lit " 行") u
   /\ output_text (import_address u) = output_text u)
  /\
  (List.length names = List.length ips ->
   exists cmds,
     output_text (import_address u) = join [LF] cmds ++ [LF]
     /\ errors_shown (import_address u) = errors_shown u
     /\ List.length cmds = List.length names
     /\ forall i, (i < List.length names)%nat ->
          nth i cmds []
          = gen_address_cmd (platform_var u) (nth i names []) (nth i ips [])).
Proof.
  intros Np Rn Ip Ri. rewrite (import_address_run u _ _ Np Rn Ip Ri). split.
  - intros Hne. apply Nat.eqb_neq in Hne. rewrite Hne. split; reflexivity.
  - intros He. rewrite (proj2 (Nat.eqb_eq _ _) He).
    exists (address_cmds u names ips).
    split; [reflexivity|]. split; [reflexivity|].
    split; [apply address_cmds_length, He|].
    intros i Hi.
    set (f := fun '(n, ip) => gen_address_cmd (platform_var u) n ip).
    rewrite (nth_indep (map f (combine names ips)) [] (f ([], [])))
      by (unfold f; rewrite address_cmds_length by exact He; exact Hi).
    rewrite map_nth, combine_nth by exact He. reflexivity.
Qed.

(** X14: an address import is all or nothing.  Whatever the dialogs and
    the files give, either the output box, the status label and the
    platform stay as they were and at most one error is shown, or both
    files were read, gave as many names as addresses, and the box holds
    the command of every pair. *)
Theorem import_address_all_or_nothing (u : ui) :
  rejected u (import_address u)
  \/ exists names ips,
       read_names (askopenfilename title_names) = Ok names
       /\ read_ips (askopenfilename title_ips) = Ok ips
       /\ List.length names = List.length ips
       /\ errors_shown (import_address u) = errors_shown u
       /\ platform_var (import_address u) = platform_var u
       /\ output_text (import_address u)
          = join [LF] (address_cmds u names ips) ++ [LF].
Proof.
  destruct (is_empty (askopenfilename title_names)) eqn:Np.
  { left. rewrite import_address_cases, Np. apply rejected_refl. }
  destruct (read_names (askopenfilename title_names)) as [names|e] eqn:Rn.
  2: { left. rewrite import_address_cases, Np, Rn. apply showerror_rejected. }
  destruct (is_empty (askopenfilename title_ips)) eqn:Ip.
  { left. rewrite import_address_cases, Np, Rn, Ip. apply rejected_refl. }
  destruct (read_ips (askopenfilename title_ips)) as [ips|e] eqn:Ri.
  2: { left. rewrite import_address_cases, Np, Rn, Ip, Ri.
       apply showerror_rejected. }
  rewrite (import_address_run u _ _ Np Rn Ip Ri).
  destruct (List.length names =? List.length ips)%nat eqn:L.
  - right. exists names, ips. apply Nat.eqb_eq in L. repeat split; auto.
  - left. apply showerror_rejected.
Qed.

Lemma import_group_cases (u : ui) :
  import_group u
  = if is_empty (askopenfilename title_groups) then Ok u
    else
      match read_names (askopenfilename title_groups) with
      | Raise e => Ok (showerror (lit "组名文件错误") (exn_str e) u)
      | Ok groups =>
          if is_empty (askopenfilename title_members) then Ok u
          else
            match read_members (askopenfilename title_members) with
            | Raise e => Ok (showerror (lit "成员文件错误") (exn_str e) u)
            | Ok members_lines =>
                if negb (List.length members_lines =? List.length groups)%nat
                then
                  Ok (showerror (lit "数量不一致")
                        (lit "组名 " ++ str_len groups ++ lit " 行，成员 "
                         ++ str_len members_lines ++ lit " 行") u)
                else if existsb (fun members => (List.length members =? 0)%nat)
                          members_lines
                then
                  Ok (showerror (lit "成员缺失")
                        (lit "存在成员为空的行，请补充成员后再导入") u)
                else
                  cmds <- group_cmds_loop (platform_var u)
                            (combine groups members_lines) [] ;;
                  Ok (set_result_label
                        (lit "已从文件生成地址组命令："
                         ++ basename (askopenfilename title_groups)
                         ++ lit ", " ++ basename (askopenfilename title_members))
                        (show_output cmds u))
            end
      end.
Proof.
  unfold import_group_two_step, _ask_file. cbv zeta.
  destruct (is_empty (askopenfilename title_groups)); [reflexivity|].
  destruct (read_names (askopenfilename title_groups)) as [groups|];
    [|reflexivity].
  destruct (is_empty (askopenfilename title_members)); [reflexivity|].
  destruct (read_members (askopenfilename title_members))
    as [members_lines|]; [|reflexivity].
  destruct (List.length members_lines =? List.length groups)%nat;
    cbn [negb]; [|reflexivity].
  destruct (existsb (fun members => (List.length members =? 0)%nat)
              members_lines); reflexivity.
Qed.

Lemma import_group_run (u : ui) (groups : list str)
    (members_lines : list (list str)) :
  is_empty (askopenfilename title_groups) = false ->
  read_names (askopenfilename title_groups) = Ok groups ->
  is_empty (askopenfilename title_members) = false ->
  read_members (askopenfilename title_members) = Ok members_lines ->
  import_group u
  = if negb (List.length members_lines =? List.length groups)%nat then
      Ok (showerror (lit "数量不一致")
            (lit "组名 " ++ str_len groups ++ lit " 行，成员 "
             ++ str_len members_lines ++ lit " 行") u)
    else if existsb (fun members => (List.length members =? 0)%nat)
              members_lines then
      Ok (showerror (lit "成员缺失")
            (lit "存在成员为空的行，请补充成员后再导入") u)
    else
      Ok (Ui (join [LF]
                (group_lines (platform_var u) (combine groups members_lines))
              ++ [LF])
            (lit "已从文件生成地址组命令：" ++ basename (askopenfilename title_groups)
             ++ lit ", " ++ basename (askopenfilename title_members))
            (platform_var u) (errors_shown u)).
Proof.
  intros Gp Rg Mp Rm. rewrite import_group_cases, Gp, Rg, Mp, Rm.
  destruct (List.length members_lines =? List.length groups)%nat eqn:L;
    cbn [negb]; [|reflexivity].
  destruct (existsb _ members_lines) eqn:X; [reflexivity|].
  destruct (read_members_Ok _ _ _ _ _ _ Rm) as (_ & Fm).
  rewrite group_cmds_loop_spec by (apply combine_snd_Forall, Fm).
  cbn [bind app]. unfold set_result_label, show_output. cbv zeta.
  cbn [output_text result_label platform_var errors_shown].
  rewrite is_nil_false; [reflexivity|].
  apply group_lines_not_nil.
  - apply (read_names_Ok _ _ _ _ _ _ Rg).
  - apply Nat.eqb_eq, L.
  - intros Hin. apply existsb_length_0 in Hin. congruence.
Qed.

(** X15: in a group import whose two files were read, a count of member
    lists that differs from the count of groups is rejected with the count
    error, and with equal counts an empty member list is rejected with the
    missing-member error; the output box stays as it was either time. *)
Theorem import_group_rejects (u : ui) (groups : list str)
    (members_lines : list (list str)) :
  is_empty (askopenfilename title_groups) = false ->
  read_names (askopenfilename title_groups) = Ok groups ->
  is_empty (askopenfilename title_members) = false ->
  read_members (askopenfilename title_members) = Ok members_lines ->
  (List.length members_lines <> List.length groups ->
   exists u',
     import_group u = Ok u'
     /\ u' = showerror (lit "数量不一致")
               (lit "组名 " ++ str_len groups ++ lit " 行，成员 "
                ++ str_len members_lines ++ lit " 行") u
     /\ output_text u' = output_text u)
  /\ (List.length members_lines = List.length groups ->
      In [] members_lines ->
      exists u',
        import_group u = Ok u'
        /\ u' = showerror (lit "成员缺失")
                  (lit "存在成员为空的行，请补充成员后再导入") u
        /\ output_text u' = output_text u).
Proof.
  intros Gp Rg Mp Rm. rewrite (import_group_run u _ _ Gp Rg Mp Rm). split.
  - intros H. apply Nat.eqb_neq in H. rewrite H. cbn [negb].
    eexists. split; [reflexivity|]. split; reflexivity.
  - intros H Hin. rewrite (proj2 (Nat.eqb_eq _ _) H). cbn [negb].
    rewrite (proj2 (existsb_length_0 _) Hin).
    eexists. split; [reflexivity|]. split; reflexivity.
Qed.

(** X16: a group import whose files give as many member lists as groups,
    none of them empty, fills the output box with the lines of the first
    group, one for each of its members in order, then those of the second
    group, and so on, and shows no error. *)
Theorem import_group_output (u : ui) (groups : list str)
    (members_lines : list (list str)) :
  is_empty (askopenfilename title_groups) = false ->
  read_names (askopenfilename title_groups) = Ok groups ->
  is_empty (askopenfilename title_members) = false ->
  read_members (askopenfilename title_members) = Ok members_lines ->
  List.length members_lines = List.length groups ->
  ~ In [] members_lines ->
  exists u',
    import_group u = Ok u'
    /\ output_text u'
       = join [LF] (group_lines (platform_var u) (combine groups members_lines))
         ++ [LF]
    /\ errors_shown u' = errors_shown u.
Proof.
  intros Gp Rg Mp Rm L Hn. rewrite (import_group_run u _ _ Gp Rg Mp Rm).
  rewrite (proj2 (Nat.eqb_eq _ _) L). cbn [negb].
  destruct (existsb _ members_lines) eqn:X.
  - apply existsb_length_0 in X. contradiction.
  - eexists. split; [reflexivity|]. split; reflexivity.
Qed.

Lemma import_group_returns (u : ui) : exists u', import_group u = Ok u'.
Proof.
  rewrite import_group_cases.
  destruct (is_empty (askopenfilename title_groups)); [eexists; reflexivity|].
  destruct (read_names (askopenfilename title_groups)) as [groups|e] eqn:Rg;
    [|eexists; reflexivity].
  destruct (is_empty (askopenfilename title_members));
    [eexists; reflexivity|].
  destruct (read_members (askopenfilename title_members))
    as [members_lines|e] eqn:Rm; [|eexists; reflexivity].
  destruct (negb _); [eexists; reflexivity|].
  destruct (existsb _ members_lines); [eexists; reflexivity|].
  destruct (read_members_Ok _ _ _ _ _ _ Rm) as (_ & Fm).
  rewrite group_cmds_loop_spec by (apply combine_snd_Forall, Fm).
  eexists. reflexivity.
Qed.

(** X17: a group import never lets an exception out, although its calls
    of [gen_group_cmd] are not guarded: the members come validated from
    the reader.  It is all or nothing: either the window is as it was but
    for at most one error shown, or the box holds the lines of every group
    and member. *)
Theorem import_group_all_or_nothing (u : ui) :
  exists u',
    import_group u = Ok u'
    /\ (rejected u u'
        \/ exists groups members_lines,
             read_names (askopenfilename title_groups) = Ok groups
             /\ read_members (askopenfilename title_members) = Ok members_lines
             /\ List.length members_lines = List.length groups
             /\ ~ In [] members_lines
             /\ errors_shown u' = errors_shown u
             /\ platform_var u' = platform_var u
             /\ output_text u'
                = join [LF]
                    (group_lines (platform_var u) (combine groups members_lines))
                  ++ [LF]).
Proof.
  destruct (is_empty (askopenfilename title_groups)) eqn:Gp.
  { exists u. rewrite import_group_cases, Gp.
    split; [reflexivity | left; apply rejected_refl]. }
  destruct (read_names (askopenfilename title_groups)) as [groups|e] eqn:Rg.
  2: { eexists. rewrite import_group_cases, Gp, Rg.
       split; [reflexivity | left; apply showerror_rejected]. }
  destruct (is_empty (askopenfilename title_members)) eqn:Mp.
  { exists u. rewrite import_group_cases, Gp, Rg, Mp.
    split; [reflexivity | left; apply rejected_refl]. }
  destruct (read_members (askopenfilename title_members))
    as [members_lines|e] eqn:Rm.
  2: { eexists. rewrite import_group_cases, Gp, Rg, Mp, Rm.
       split; [reflexivity | left; apply showerror_rejected]. }
  rewrite (import_group_run u _ _ Gp Rg Mp Rm).
  destruct (List.length members_lines =? List.length groups)%nat eqn:L;
    cbn [negb].
  2: { eexists. split; [reflexivity | left; apply showerror_rejected]. }
  destruct (existsb _ members_lines) eqn:X.
  { eexists. split; [reflexivity | left; apply showerror_rejected]. }
  eexists. split; [reflexivity|]. right. exists groups, members_lines.
  apply Nat.eqb_eq in L.
  assert (Hn : ~ In [] members_lines).
  { intros Hin. apply existsb_length_0 in Hin. congruence. }
  repeat split; auto.
Qed.

(** X18: [import_file_two_step] runs the address import in mode
    "address" and the group import in any other mode, and returns without
    an exception in both. *)
Theorem import_file_two_step_returns (current_mode : str) (u : ui) :
  exists u',
    import_file current_mode u = Ok u'
    /\ (current_mode = lit "address" -> u' = import_address u)
    /\ (current_mode <> lit "address" -> import_group u = Ok u').
Proof.
  unfold import_file_two_step.
  destruct (Py.eqb current_mode (lit "address")) eqn:E.
  - eexists. split; [reflexivity|]. split; [reflexivity|].
    apply eqb_eq in E. congruence.
  - destruct (import_group_returns u) as (u' & H). exists u'.
    split; [exact H|]. split; [|intros _; exact H].
    apply eqb_neq in E. congruence.
Qed.

End ImportFacts.

Lemma import_address_pairs_by_position_witness :
  import_address_two_step example_readlines example_csv_reader
    example_splitext example_lower example_basename
    (example_dialog (lit "names.txt") (lit "ips.txt") [] []) example_ui
  = showerror (lit "数量不一致")
      (lit "名称 " ++ str_len [lit "n1"; lit "n2"] ++ lit " 行，IP "
       ++ str_len [lit "1.1.1.1/32"] ++ lit " 行") example_ui
  /\ output_text
       (import_address_two_step example_readlines example_csv_reader
          example_splitext example_lower example_basename
          (example_dialog (lit "names.txt") (lit "ips.txt") [] []) example_ui)
     = output_text example_ui.
Proof.
  apply (proj1 (import_address_pairs_by_position example_readlines
                  example_csv_reader example_splitext example_lower
                  example_basename
                  (example_dialog (lit "names.txt") (lit "ips.txt") [] [])
                  example_ui [lit "n1"; lit "n2"] [lit "1.1.1.1/32"]
                  ltac:(vm_compute; reflexivity) ltac:(vm_compute; reflexivity)
                  ltac:(vm_compute; reflexivity) ltac:(vm_compute; reflexivity))).
  cbn [List.length]. discriminate.
Defined.

Lemma import_group_rejects_witness :
  exists u',
    import_group_two_step example_readlines example_csv_reader
      example_splitext example_lower example_basename
      (example_dialog [] [] (lit "names.txt") (lit "members.txt")) example_ui
    = Ok u'
    /\ u' = showerror (lit "成员缺失")
              (lit "存在成员为空的行，请补充成员后再导入") example_ui
    /\ output_text u' = output_text example_ui.
Proof.
  apply (proj2 (import_group_rejects example_readlines
                  example_csv_reader example_splitext example_lower
                  example_basename
                  (example_dialog [] [] (lit "names.txt") (lit "members.txt"))
                  example_ui [lit "n1"; lit "n2"] [[lit "a"; lit "b"]; []]
                  ltac:(vm_compute; reflexivity) ltac:(vm_compute; reflexivity)
                  ltac:(vm_compute; reflexivity) ltac:(vm_compute; reflexivity))).
  - reflexivity.
  - right. left. reflexivity.
Defined.

Lemma import_group_output_witness :
  exists u',
    import_group_two_step example_readlines example_csv_reader
      example_splitext example_lower example_basename
      (example_dialog [] [] (lit "names.txt") (lit "members2.txt")) example_ui
    = Ok u'
    /\ output_text u'
       = join [LF]
           (group_lines (platform_var example_ui)
              (combine [lit "n1"; lit "n2"] [[lit "a"; lit "b"]; [lit "c"]]))
         ++ [LF]
    /\ errors_shown u' = errors_shown example_ui.
Proof.
  apply (import_group_output example_readlines example_csv_reader
           example_splitext example_lower example_basename
           (example_dialog [] [] (lit "names.txt") (lit "members2.txt"))
           example_ui [lit "n1"; lit "n2"] [[lit "a"; lit "b"]; [lit "c"]]);
    try (vm_compute; reflexivity).
  intros [H | [H | []]]; discriminate.
Defined.

(* ================================================================== *)
(** * Manual input *)
(* ================================================================== *)

(** ** [splitlines] *)

Lemma splitlines_from_LF (line l rest : str) :
  existsb is_line_boundary l = false ->
  splitlines_from line (l ++ LF :: rest) = (line ++ l) :: splitlines_from [] rest.
Proof.
  revert line. induction l as [|c l IH]; intros line H.
  - cbn [app splitlines_from]. rewrite app_nil_r.
    change (is_line_boundary LF) with true. cbv iota.
    change (LF =? CR)%N with false. cbn [andb].
    destruct rest; reflexivity.
  - cbn [existsb] in H. apply orb_false_iff in H as (Hc & Hl).
    cbn [app splitlines_from]. rewrite Hc, (IH _ Hl), <- app_assoc.
    reflexivity.
Qed.

Lemma splitlines_lines (lines : list str) :
  lines <> [] ->
  Forall (fun l => existsb is_line_boundary l = false) lines ->
  splitlines (join [LF] lines ++ [LF]) = lines.
Proof.
  unfold splitlines. induction lines as [|l lines IH]; [congruence|].
  intros _ F. pose proof (Forall_inv F) as Hl.
  destruct lines as [|l' lines].
  - cbn [join]. rewrite (splitlines_from_LF [] l [] Hl). reflexivity.
  - rewrite join_cons by discriminate. rewrite <- !app_assoc.
    change ([LF] ++ join [LF] (l' :: lines) ++ [LF])
      with (LF :: (join [LF] (l' :: lines) ++ [LF])).
    rewrite (splitlines_from_LF [] l _ Hl).
    rewrite IH; [reflexivity | discriminate | apply (Forall_inv_tail F)].
Qed.

(** X19: the output box shows one command per line: read back line by
    line, what [show_output] wrote gives the commands again, when no
    command holds a line boundary. *)
Theorem show_output_lines (cmds : list str) (u : ui) :
  Forall (fun l => existsb is_line_boundary l = false) cmds ->
  splitlines (output_text (show_output cmds u)) = cmds.
Proof.
  intros F. unfold show_output. cbv zeta. cbn [output_text].
  destruct cmds as [|c cmds]; [reflexivity|]. cbn [is_nil negb].
  apply splitlines_lines; [discriminate | exact F].
Qed.

Lemma show_output_lines_witness :
  splitlines
    (output_text
       (show_output [lit "set address a ip-netmask 10.0.0.1/32";
                     lit "set address b ip-netmask 10.0.0.2/32"] example_ui))
  = [lit "set address a ip-netmask 10.0.0.1/32";
     lit "set address b ip-netmask 10.0.0.2/32"].
Proof.
  apply (show_output_lines
           [lit "set address a ip-netmask 10.0.0.1/32";
            lit "set address b ip-netmask 10.0.0.2/32"] example_ui).
  repeat constructor.
Defined.

(** ** The first step: names *)

Lemma names_step (text what empty : str) :
  (let names := stripped_nonblank (splitlines text) in
   if is_nil names then Raise (ValueError empty)
   else _ <- validate_names names what ;; Ok names)
  = (let names := nonblank_members (splitlines text) in
     if is_nil names then Raise (ValueError empty)
     else first_invalid what names (Ok names)).
Proof.
  cbv zeta. rewrite stripped_nonblank_members.
  destruct (is_nil _); [reflexivity|].
  rewrite validate_names_spec by apply nonblank_members_trimmed.
  unfold first_invalid. destruct (find _ _); reflexivity.
Qed.

(** X20: the first step of a manual input takes the trimmed non-blank
    lines of the box.  Without any it reports that the list is empty, with
    a line that holds whitespace or '/' it reports the first such line,
    and the window stays; otherwise the lines go to the second step as they
    are.  So every name the second step gets is a valid name. *)
Theorem next_to_ip_names (text : str) (u : ui) :
  next_to_ip text u
  = (let names := nonblank_members (splitlines text) in
     if is_nil names then (showerror (lit "错误") (lit "名称不能为空") u, None)
     else
       match find has_space_or_slash names with
       | Some n =>
           (showerror (lit "错误") (invalid_name_msg what_name n) u, None)
       | None => (u, Some names)
       end)
  /\ next_to_members text u
     = (let groups := nonblank_members (splitlines text) in
        if is_nil groups then (showerror (lit "错误") (lit "组名不能为空") u, None)
        else
          match find has_space_or_slash groups with
          | Some n =>
              (showerror (lit "错误") (invalid_name_msg (lit "组名") n) u, None)
          | None => (u, Some groups)
          end)
  /\ forall u' names,
       next_to_ip text u = (u', Some names)
       \/ next_to_members text u = (u', Some names) ->
       u' = u /\ names <> [] /\ Forall is_name names.
Proof.
  assert (A : forall what empty,
            match
              (let names := stripped_nonblank (splitlines text) in
               if is_nil names then Raise (ValueError empty)
               else _ <- validate_names names what ;; Ok names)
            with
            | Raise e => (showerror (lit "错误") (exn_str e) u, None)
            | Ok names => (u, Some names)
            end
            = (let names := nonblank_members (splitlines text) in
               if is_nil names then (showerror (lit "错误") empty u, None)
               else
                 match find has_space_or_slash names with
                 | Some n =>
                     (showerror (lit "错误") (invalid_name_msg what n) u, None)
                 | None => (u, Some names)
                 end)).
  { intros what empty. rewrite names_step. cbv zeta.
    destruct (is_nil _); [reflexivity|]. unfold first_invalid.
    destruct (find _ _); reflexivity. }
  assert (B : forall what empty u' names,
            match
              (let names := stripped_nonblank (splitlines text) in
               if is_nil names then Raise (ValueError empty)
               else _ <- validate_names names what ;; Ok names)
            with
            | Raise e => (showerror (lit "错误") (exn_str e) u, None)
            | Ok names => (u, Some names)
            end = (u', Some names) ->
            u' = u /\ names <> [] /\ Forall is_name names).
  { intros what empty u' names. rewrite names_step. cbv zeta.
    destruct (nonblank_members (splitlines text)) as [|n l] eqn:E;
      [discriminate|].
    cbn [is_nil]. unfold first_invalid.
    destruct (find has_space_or_slash (n :: l)) eqn:F; [discriminate|].
    intros H. apply pair_equal_spec in H as (<- & H).
    assert (n :: l = names) as <- by congruence.
    split; [reflexivity|]. split; [discriminate|].
    apply Forall_is_name; [|apply find_none_forall, F]. rewrite <- E.
    apply nonblank_members_trimmed. }
  split; [apply A|]. split; [apply A|].
  intros u' names [H | H]; eapply B; exact H.
Qed.

(** ** The second step: addresses *)

Lemma normalize_each_length (values ips : list str) :
  normalize_each values = Ok ips -> List.length ips = List.length values.
Proof.
  revert ips. induction values as [|v values IH]; intros ips.
  - intros H. apply Ok_inj in H as <-. reflexivity.
  - cbn [normalize_each]. destruct (normalize_ip_or_cidr v); [|discriminate].
    cbn [bind]. destruct (normalize_each values); [|discriminate].
    cbn [bind]. intros H. apply Ok_inj in H as <-. cbn [List.length].
    f_equal. apply IH. reflexivity.
Qed.

Lemma normalize_each_nth (values ips : list str) (i : nat) :
  normalize_each values = Ok ips -> (i < List.length values)%nat ->
  normalize_ip_or_cidr (nth i values []) = Ok (nth i ips []).
Proof.
  revert ips i. induction values as [|v values IH]; intros ips i.
  - cbn [List.length]. lia.
  - cbn [normalize_each].
    destruct (normalize_ip_or_cidr v) eqn:E; [|discriminate].
    cbn [bind]. destruct (normalize_each values); [|discriminate].
    cbn [bind]. intros H Hi. apply Ok_inj in H as <-.
    destruct i as [|i]; [exact E|]. cbn [nth]. apply IH; [reflexivity|].
    cbn [List.length] in Hi. lia.
Qed.

(** X21: the second step of a manual address input is all or nothing.
    It reports one error and leaves the window open and the output as it
    was, first of all when the box has no line or not as many lines as
    there are names; or every line is an address the tool accepts, and the
    output box gets the command of every name with the normalized
    address of the same position. *)
Theorem confirm_ips_all_or_nothing (names : list str) (text : str) (u : ui) :
  (nonblank_members (splitlines text) <> [] ->
   List.length (nonblank_members (splitlines text)) <> List.length names ->
   confirm_ips names text u
   = (showerror (lit "错误")
        (lit "数量不一致：名称 " ++ str_len names ++ lit " 行，IP "
         ++ str_len (nonblank_members (splitlines text)) ++ lit " 行") u, false))
  /\
  ((exists message,
      confirm_ips names text u = (showerror (lit "错误") message u, false))
   \/ exists ips,
        normalize_each (nonblank_members (splitlines text)) = Ok ips
        /\ List.length ips = List.length names
        /\ confirm_ips names text u
           = (Ui (join [LF]
                    (map (fun '(n, ip) => gen_address_cmd (platform_var u) n ip)
                         (combine names ips)) ++ [LF])
                (lit "已从手动输入生成地址对象命令") (platform_var u)
                (errors_shown u), true)).
Proof.
  unfold confirm_ips, confirm_ips_try. cbv zeta.
  rewrite stripped_nonblank_members.
  set (ips_raw := nonblank_members (splitlines text)).
  split.
  - intros Hne Hl. rewrite (is_nil_false _ Hne).
    apply Nat.eqb_neq in Hl. rewrite Hl. reflexivity.
  - destruct (is_nil ips_raw) eqn:Hn; [left; eexists; reflexivity|].
    destruct (List.length ips_raw =? List.length names)%nat eqn:L;
      cbn [negb]; [|left; eexists; reflexivity].
    destruct (normalize_each ips_raw) as [ips|e] eqn:E;
      [|left; eexists; reflexivity].
    right. exists ips. apply Nat.eqb_eq in L.
    pose proof (normalize_each_length _ _ E) as Li.
    split; [reflexivity|]. split; [congruence|].
    unfold set_result_label, show_output. cbv zeta.
    cbn [output_text result_label platform_var errors_shown].
    rewrite is_nil_false; [reflexivity|].
    intros C. apply (f_equal (@List.length str)) in C.
    rewrite length_map, length_combine in C.
    destruct ips_raw; [discriminate|].
    destruct names; [discriminate|]. destruct ips; discriminate.
Qed.

(** ** The second step: members *)

Lemma all_members_loop_Ok (mem_lines : list str)
    (acc all_members : list (list str)) :
  all_members_loop mem_lines acc = Ok all_members ->
  all_members = acc ++ map line_members mem_lines
  /\ ~ In [] (map line_members mem_lines)
  /\ Forall (Forall is_name) (map line_members mem_lines).
Proof.
  revert acc. induction mem_lines as [|line rest IH]; intros acc.
  - cbn. intros H. apply Ok_inj in H as <-. rewrite app_nil_r. auto.
  - cbn [all_members_loop]. cbv zeta. fold (line_members line).
    destruct (line_members line) as [|m ms] eqn:E; [discriminate|].
    cbn [is_nil]. rewrite <- E.
    rewrite (validate_members_spec _ (line_members_trimmed line)).
    intros H. cbn [map].
    destruct (first_invalid what_member (line_members line) (Ok tt))
      as [[]|] eqn:V; [|discriminate].
    apply first_invalid_Ok in V as (V & _). cbn [bind] in H.
    apply IH in H as (-> & Hn & F). rewrite <- app_assoc.
    split; [reflexivity|]. split.
    + intros [C | C]; [rewrite E in C; discriminate | contradiction].
    + constructor; [|exact F].
      apply Forall_is_name; [apply line_members_trimmed | exact V].
Qed.

(** X22: the second step of a manual group input never lets an exception
    out, although its calls of [gen_group_cmd] come after the guarded
    block: the members were validated before.  It is all or nothing: one
    error, with the window open and the output as it was, or the lines of
    every group with the members of the same non-blank line of the box,
    none of these member lists being empty. *)
Theorem confirm_groups_all_or_nothing (groups : list str) (text : str)
    (u : ui) :
  (exists message,
     confirm_groups groups text u
     = Ok (showerror (lit "错误") message u, false))
  \/ exists all_members,
       all_members = map line_members (nonblank_members (splitlines text))
       /\ List.length all_members = List.length groups
       /\ ~ In [] all_members
       /\ Forall (Forall is_name) all_members
       /\ confirm_groups groups text u
          = Ok (Ui (join [LF]
                      (group_lines (platform_var u) (combine groups all_members))
                    ++ [LF])
                  (lit "已从手动输入生成地址组命令") (platform_var u)
                  (errors_shown u), true).
Proof.
  unfold confirm_groups, confirm_groups_try. cbv zeta.
  rewrite stripped_nonblank_members.
  set (mem_lines := nonblank_members (splitlines text)).
  destruct (is_nil mem_lines) eqn:Hn; [left; eexists; reflexivity|].
  destruct (List.length mem_lines =? List.length groups)%nat eqn:L;
    cbn [negb]; [|left; eexists; reflexivity].
  destruct (all_members_loop mem_lines []) as [all_members|e] eqn:E;
    [|left; eexists; reflexivity].
  right. apply all_members_loop_Ok in E as (-> & Hin & F). cbn [app].
  exists (map line_members mem_lines). apply Nat.eqb_eq in L.
  assert (Ll : List.length (map line_members mem_lines) = List.length groups)
    by (rewrite length_map; exact L).
  split; [reflexivity|]. split; [exact Ll|]. split; [exact Hin|].
  split; [exact F|].
  rewrite group_cmds_loop_spec by (apply combine_snd_Forall, F).
  cbn [bind app]. unfold set_result_label, show_output. cbv zeta.
  cbn [output_text result_label platform_var errors_shown].
  rewrite is_nil_false; [reflexivity|].
  apply group_lines_not_nil; [|exact Ll | exact Hin].
  intros C. rewrite C in L. destruct mem_lines; discriminate.
Qed.

(* ================================================================== *)
(** * The import of pairs: counts and positions *)
(* ================================================================== *)



Section ImportClaims.

Variable readlines : str -> res exn (list str).
Variable csv_reader : str -> res exn (list (list str)).
Variable splitext : str -> str * str.
Variable lower : str -> str.
Variable basename : str -> str.
Variable askopenfilename : str -> str.

Local Abbreviation read_names :=
  (read_names_from_file readlines csv_reader splitext lower).
Local Abbreviation read_ips :=
  (read_ips_from_file readlines csv_reader splitext lower).
Local Abbreviation read_members :=
  (read_members_from_file readlines csv_reader splitext lower).
Local Abbreviation import_address :=
  (import_address_two_step readlines csv_reader splitext lower basename
     askopenfilename).
Local Abbreviation import_group :=
  (import_group_two_step readlines csv_reader splitext lower basename
     askopenfilename).

(** C8: in an address import whose two files were read, names and
    addresses of different counts are rejected as a whole: the count
    error is shown, and the output box and the status label stay as they
    were, so that no command line is emitted.  With equal counts no error
    is shown and the output box gets the commands, one line each: as many
    as there are names, the i-th made of the i-th name and the i-th
    address. *)
Theorem import_address_counts_and_positions (u : ui) (names ips : list str) :
  is_empty (askopenfilename title_names) = false ->
  read_names (askopenfilename title_names) = Ok names ->
  is_empty (askopenfilename title_ips) = false ->
  read_ips (askopenfilename title_ips) = Ok ips ->
  (List.length names <> List.length ips ->
   errors_shown (import_address u)
   = errors_shown u
     ++ [(lit "数量不一致",
          lit "名称 " ++ str_len names ++ lit " 行，IP " ++ str_len ips
          ++ lit " 行")]
   /\ output_text (import_address u) = output_text u
   /\ result_label (import_address u) = result_label u)
  /\
  (List.length names = List.length ips ->
   errors_shown (import_address u) = errors_shown u
   /\ exists cmds,
        output_text (import_address u) = join [LF] cmds ++ [LF]
        /\ List.length cmds = List.length names
        /\ forall i, (i < List.length names)%nat ->
             nth i cmds []
             = gen_address_cmd (platform_var u) (nth i names [])
                 (nth i ips [])).
Proof.
  intros Np Rn Ip Ri.
  rewrite (import_address_run _ _ _ _ _ _ u _ _ Np Rn Ip Ri). split.
  - intros Hne. apply Nat.eqb_neq in Hne. rewrite Hne.
    split; [reflexivity|]. split; reflexivity.
  - intros He. rewrite (proj2 (Nat.eqb_eq _ _) He).
    split; [reflexivity|].
    set (f := fun '(n, ip) => gen_address_cmd (platform_var u) n ip).
    assert (L : List.length (map f (combine names ips)) = List.length names).
    { rewrite length_map, length_combine, <- He. apply Nat.min_id. }
    exists (map f (combine names ips)).
    split; [reflexivity|]. split; [exact L|].
    intros i Hi.
    rewrite (nth_indep (map f (combine names ips)) [] (f ([], [])))
      by (rewrite L; exact Hi).
    rewrite map_nth, combine_nth by exact He. reflexivity.
Qed.


End ImportClaims.

Lemma import_address_counts_and_positions_witness :
  (errors_shown
     (import_address_two_step example_readlines example_csv_reader
        example_splitext example_lower example_basename
        (example_dialog (lit "names.txt") (lit "ips.txt") [] []) example_ui)
   = errors_shown example_ui
     ++ [(lit "数量不一致",
          lit "名称 " ++ str_len [lit "n1"; lit "n2"] ++ lit " 行，IP "
          ++ str_len [lit "1.1.1.1/32"] ++ lit " 行")]
   /\ output_text
        (import_address_two_step example_readlines example_csv_reader
           example_splitext example_lower example_basename
           (example_dialog (lit "names.txt") (lit "ips.txt") [] [])
           example_ui)
      = output_text example_ui
   /\ result_label
        (import_address_two_step example_readlines example_csv_reader
           example_splitext example_lower example_basename
           (example_dialog (lit "names.txt") (lit "ips.txt") [] [])
           example_ui)
      = result_label example_ui)
  /\ exists cmds,
       output_text
         (import_address_two_step example_readlines example_csv_reader
            example_splitext example_lower example_basename
            (example_dialog (lit "names.txt") (lit "ips2.txt") [] [])
            example_ui)
       = join [LF] cmds ++ [LF]
       /\ List.length cmds = 2%nat
       /\ nth 1 cmds [] = lit "set address n2 ip-netmask 2001:db8::1/128".
Proof.
  split.
  - apply (proj1 (import_address_counts_and_positions example_readlines
                    example_csv_reader example_splitext example_lower
                    example_basename
                    (example_dialog (lit "names.txt") (lit "ips.txt") [] [])
                    example_ui [lit "n1"; lit "n2"] [lit "1.1.1.1/32"]
                    ltac:(vm_compute; reflexivity)
                    ltac:(vm_compute; reflexivity)
                    ltac:(vm_compute; reflexivity)
                    ltac:(vm_compute; reflexivity))).
    cbn [List.length]. discriminate.
  - destruct (proj2 (import_address_counts_and_positions example_readlines
                       example_csv_reader example_splitext example_lower
                       example_basename
                       (example_dialog (lit "names.txt") (lit "ips2.txt") [] [])
                       example_ui [lit "n1"; lit "n2"]
                       [lit "10.0.0.0/8"; lit "2001:db8::1/128"]
                       ltac:(vm_compute; reflexivity)
                       ltac:(vm_compute; reflexivity)
                       ltac:(vm_compute; reflexivity)
                       ltac:(vm_compute; reflexivity)) eq_refl)
      as (_ & cmds & Ho & Hl & Hn).
    exists cmds. split; [exact Ho|]. split; [exact Hl|].
    rewrite (Hn 1%nat) by (cbn [List.length]; auto).
    vm_compute. reflexivity.
Defined.


(* ================================================================== *)
(** * Digits *)
(* ================================================================== *)

Local Open Scope Z_scope.

(** A property checked on every integer of a range holds on the range. *)
Lemma zrange_forallb (P : Z -> bool) (lo : Z) (len : nat) :
  forallb P (zrange lo len) = true ->
  forall n, lo <= n < lo + Z.of_nat len -> P n = true.
Proof.
  revert lo. induction len as [|len IH]; intros lo H n Hn; [lia|].
  cbn [zrange forallb] in H. apply andb_true_iff in H as (H0 & H).
  destruct (Z.eq_dec n lo) as [-> | Hd]; [exact H0|].
  apply (IH (lo + 1) H). lia.
Qed.

Section Digits.

Variable base : Z.
Hypothesis base_ge_2 : 2 <= base.

Lemma fixed_digits_length {A} (digit : Z -> A) (k : nat) (n : Z) :
  List.length (fixed_digits k base n digit) = k.
Proof.
  revert n. induction k as [|k IH]; intros n; simpl; [reflexivity|].
  rewrite length_app, IH. simpl. lia.
Qed.

Lemma fixed_digits_app {A} (digit : Z -> A) (a b : nat) (n : Z) :
  fixed_digits (a + b) base n digit
  = fixed_digits a base (n / base ^ Z.of_nat b) digit
      ++ fixed_digits b base n digit.
Proof.
  revert n. induction b as [|b IH]; intros n.
  - rewrite Nat.add_0_r. simpl. rewrite Z.div_1_r, app_nil_r. reflexivity.
  - rewrite Nat.add_succ_r. cbn [fixed_digits]. rewrite IH, app_assoc.
    do 3 f_equal. rewrite Nat2Z.inj_succ, Z.pow_succ_r by lia.
    rewrite Z.div_div by lia. reflexivity.
Qed.

Lemma fixed_digits_map {A B} (f : A -> B) (digit : Z -> A) (k : nat) (n : Z) :
  map f (fixed_digits k base n digit) = fixed_digits k base n (fun d => f (digit d)).
Proof.
  revert n. induction k as [|k IH]; intros n; simpl; [reflexivity|].
  rewrite map_app, IH. reflexivity.
Qed.

Lemma fixed_digits_range {A} (digit : Z -> A) (P : A -> Prop) (k : nat) (n : Z) :
  (forall d, 0 <= d < base -> P (digit d)) ->
  Forall P (fixed_digits k base n digit).
Proof.
  intros H. revert n. induction k as [|k IH]; intros n; simpl; [constructor|].
  apply Forall_app. split; [apply IH|].
  constructor; [|constructor]. apply H, Z.mod_pos_bound. lia.
Qed.

(** Reading the digits back. *)
Lemma fold_fixed_digits (k : nat) (n acc : Z) :
  0 <= n ->
  fold_left (fun a d => a * base + d) (fixed_digits k base n (fun d => d)) acc
  = acc * base ^ Z.of_nat k + n mod base ^ Z.of_nat k.
Proof.
  revert n acc. induction k as [|k IH]; intros n acc Hn.
  - simpl. rewrite Z.mod_1_r. lia.
  - cbn [fixed_digits]. rewrite fold_left_app. simpl fold_left.
    rewrite IH by (apply Z.div_pos; lia).
    rewrite Nat2Z.inj_succ, Z.pow_succ_r by lia.
    rewrite (Z.rem_mul_r n base (base ^ Z.of_nat k)) by lia. lia.
Qed.

Variable digit : Z -> char.
Hypothesis digit_0 : digit 0 = ZERO.

Lemma fixed_digits_0 (k : nat) : fixed_digits k base 0 digit = repeat ZERO k.
Proof.
  induction k as [|k IH]; [reflexivity|]. simpl.
  rewrite Z.div_0_l, Z.mod_0_l, IH, digit_0 by lia. symmetry. apply repeat_cons.
Qed.

(** Zero-filling the digits of [n] to a width that holds them gives the
    fixed-width digits. *)
Lemma zfill_digits_of (k fuel : nat) (n : Z) :
  (1 <= k)%nat -> (1 <= fuel)%nat ->
  0 <= n < base ^ Z.of_nat k -> n < base ^ Z.of_nat fuel ->
  zfill k (digits_of fuel base n digit) = fixed_digits k base n digit.
Proof.
  revert fuel n. induction k as [|k IH]; intros fuel n Hk Hf Hn Hfuel; [lia|].
  destruct fuel as [|fuel]; [lia|]. simpl digits_of. cbn [fixed_digits].
  destruct (n <? base) eqn:E.
  - apply Z.ltb_lt in E. rewrite Z.div_small, Z.mod_small by lia.
    rewrite fixed_digits_0. unfold zfill. simpl List.length.
    replace (S k - 1)%nat with k by lia. reflexivity.
  - apply Z.ltb_ge in E.
    assert (Hq : 1 <= n / base) by (apply Z.div_le_lower_bound; lia).
    assert (Hk' : n / base < base ^ Z.of_nat k).
    { apply Z.div_lt_upper_bound; [lia|].
      rewrite <- Z.pow_succ_r, <- Nat2Z.inj_succ by lia. lia. }
    assert (Hf' : n / base < base ^ Z.of_nat fuel).
    { apply Z.div_lt_upper_bound; [lia|].
      rewrite <- Z.pow_succ_r, <- Nat2Z.inj_succ by lia. lia. }
    assert (1 <= k)%nat.
    { destruct k; [simpl in Hk'; lia | lia]. }
    assert (1 <= fuel)%nat.
    { destruct fuel; [simpl in Hf'; lia | lia]. }
    rewrite <- (IH fuel (n / base)) by lia.
    unfold zfill. rewrite length_app, <- app_assoc. simpl List.length.
    replace (S k - (List.length (digits_of fuel base (n / base) digit) + 1))%nat
      with (k - List.length (digits_of fuel base (n / base) digit))%nat by lia.
    reflexivity.
Qed.

End Digits.

(** The fuel of [str_of_int] and [hex_of_int] is enough. *)
Lemma log2_fuel (base n : Z) :
  2 <= base -> 0 <= n -> n < base ^ Z.of_nat (S (Z.to_nat (Z.log2 n))).
Proof.
  intros Hb Hn.
  destruct (Z.eq_dec n 0) as [-> | Hz].
  { apply Z.pow_pos_nonneg; lia. }
  assert (L := Z.log2_nonneg n).
  rewrite Nat2Z.inj_succ, Z2Nat.id by lia.
  destruct (Z.log2_spec n ltac:(lia)) as (_ & H).
  eapply Z.lt_le_trans; [exact H|].
  apply Z.pow_le_mono_l. lia.
Qed.

Lemma digit_value_hex_digit (d : Z) :
  0 <= d < 16 -> digit_value (hex_digit d) = d.
Proof.
  intros H.
  assert (C : d = 0 \/ d = 1 \/ d = 2 \/ d = 3 \/ d = 4 \/ d = 5 \/ d = 6
              \/ d = 7 \/ d = 8 \/ d = 9 \/ d = 10 \/ d = 11 \/ d = 12
              \/ d = 13 \/ d = 14 \/ d = 15) by lia.
  repeat (destruct C as [-> | C]; [reflexivity|]). subst. reflexivity.
Qed.

Lemma horner_fixed_hex (k : nat) (n : Z) :
  0 <= n -> horner 16 (fixed_digits k 16 n hex_digit) = n mod 16 ^ Z.of_nat k.
Proof.
  intros Hn. unfold horner.
  assert (G : forall acc,
    fold_left (fun a c => a * 16 + digit_value c)
      (fixed_digits k 16 n hex_digit) acc
    = fold_left (fun a d => a * 16 + d) (fixed_digits k 16 n (fun d => d)) acc).
  { clear Hn. revert n. induction k as [|k IH]; intros n acc; [reflexivity|].
    cbn [fixed_digits]. rewrite !fold_left_app, IH. simpl.
    rewrite digit_value_hex_digit by (apply Z.mod_pos_bound; lia). reflexivity. }
  rewrite G, fold_fixed_digits by lia. lia.
Qed.

Lemma slice_middle (x y z : str) :
  slice (x ++ y ++ z) (List.length x) (List.length x + List.length y) = y.
Proof.
  unfold slice.
  rewrite skipn_app, skipn_all, Nat.sub_diag, skipn_O, app_nil_l.
  replace (List.length x + List.length y - List.length x)%nat
    with (List.length y) by lia.
  rewrite firstn_app, firstn_all, Nat.sub_diag, firstn_O, app_nil_r.
  reflexivity.
Qed.

(** The text ['%032x' % n] is the 32 hexadecimal digits of [n]. *)
Lemma format_032x_digits (n : Z) :
  0 <= n < 2 ^ 128 ->
  ipaddress.BaseV6.format_032x n = fixed_digits 32 16 n hex_digit.
Proof.
  intros Hn. unfold ipaddress.BaseV6.format_032x, hex_of_int.
  apply zfill_digits_of; [lia | reflexivity | lia | lia | | apply log2_fuel; lia].
  change (16 ^ Z.of_nat 32) with (2 ^ 128). exact Hn.
Qed.

(** Its eight four-digit slices, read in base 16, are the eight digits of
    [n] in base 65536. *)
Lemma hextet_slices (n : Z) :
  0 <= n < 2 ^ 128 ->
  map (fun x => horner 16 (slice (ipaddress.BaseV6.format_032x n) x (x + 4)))
      [0; 4; 8; 12; 16; 20; 24; 28]%nat
  = fixed_digits 8 65536 n (fun d => d).
Proof.
  intros Hn. rewrite format_032x_digits by exact Hn.
  assert (S : forall i, (i <= 7)%nat ->
    horner 16 (slice (fixed_digits 32 16 n hex_digit) (4 * i) (4 * i + 4))
    = (n / 65536 ^ Z.of_nat (7 - i)) mod 65536).
  { intros i Hi.
    replace 32%nat with (4 * i + (4 + 4 * (7 - i)))%nat by lia.
    rewrite fixed_digits_app, fixed_digits_app by lia.
    set (x := fixed_digits (4 * i) 16 _ hex_digit).
    set (y := fixed_digits 4 16 _ hex_digit).
    set (z := fixed_digits (4 * (7 - i)) 16 _ hex_digit).
    replace (4 * i + 4)%nat with (List.length x + List.length y)%nat
      by (unfold x, y; rewrite !fixed_digits_length; lia).
    replace (4 * i)%nat with (List.length x)
      by (unfold x; rewrite fixed_digits_length; lia).
    rewrite slice_middle. unfold y.
    rewrite horner_fixed_hex by (apply Z.div_pos; [lia | apply Z.pow_pos_nonneg; lia]).
    change (16 ^ Z.of_nat 4) with 65536.
    replace (16 ^ Z.of_nat (4 * (7 - i))) with (65536 ^ Z.of_nat (7 - i)).
    - reflexivity.
    - change 65536 with (16 ^ 4). rewrite <- Z.pow_mul_r by lia.
      f_equal. lia. }
  change [0; 4; 8; 12; 16; 20; 24; 28]%nat
    with (map (fun i => 4 * i)%nat [0; 1; 2; 3; 4; 5; 6; 7]%nat).
  rewrite map_map.
  transitivity (map (fun i => (n / 65536 ^ Z.of_nat (7 - i)) mod 65536)
                    [0; 1; 2; 3; 4; 5; 6; 7]%nat).
  - apply map_ext_in. intros i Hi. apply S.
    simpl in Hi. lia.
  - cbn [map fixed_digits app Nat.sub Z.of_nat Pos.of_succ_nat Pos.succ].
    rewrite !Z.div_div by lia. rewrite Z.div_1_r. reflexivity.
Qed.

(* ================================================================== *)
(** * IPv4 text *)
(* ================================================================== *)

Import ipaddress.

Lemma is_decimal_digit_cases (c : char) :
  is_decimal_digit c = true ->
  In c [48; 49; 50; 51; 52; 53; 54; 55; 56; 57]%N.
Proof.
  unfold is_decimal_digit. rewrite andb_true_iff, !N.leb_le. simpl. lia.
Qed.

(** Checked on each of the 256 octets. *)
Lemma octet_text (b : Z) :
  0 <= b < 256 ->
  BaseV4._parse_octet (str_of_int b) = Ok b
  /\ is_empty (str_of_int b) = false
  /\ forallb is_decimal_digit (str_of_int b) = true.
Proof.
  intros Hb.
  assert (H := zrange_forallb
    (fun b => match BaseV4._parse_octet (str_of_int b) with
              | Ok b' => b' =? b
              | Raise _ => false
              end
              && negb (is_empty (str_of_int b))
              && forallb is_decimal_digit (str_of_int b))
    0 256 ltac:(vm_compute; reflexivity) b ltac:(lia)).
  cbv beta in H. apply andb_true_iff in H as (H & H3).
  apply andb_true_iff in H as (H1 & H2).
  destruct (BaseV4._parse_octet (str_of_int b)) as [b'|]; [|discriminate].
  apply Z.eqb_eq in H1. subst b'. apply negb_true_iff in H2. auto.
Qed.

(** An octet the library accepts is written the way [str] writes it. *)
Lemma parse_octet_inv (s : str) (v : Z) :
  BaseV4._parse_octet s = Ok v -> s = str_of_int v /\ 0 <= v < 256.
Proof.
  unfold BaseV4._parse_octet.
  destruct (is_empty s) eqn:E1; [discriminate|].
  destruct (isascii s && isdigit s) eqn:E2; [|discriminate].
  apply andb_true_iff in E2 as (_ & E2). unfold isdigit in E2.
  rewrite E1 in E2. simpl in E2.
  destruct s as [|c1 [|c2 [|c3 [|c4 s]]]]; try discriminate;
    cbn [forallb] in E2;
    repeat match goal with
           | H : _ && _ = true |- _ => apply andb_true_iff in H as (? & H)
           end;
    repeat match goal with
           | H : is_decimal_digit _ = true |- _ =>
               apply is_decimal_digit_cases in H; cbn [In] in H;
               repeat (destruct H as [<- | H]; [|]); [ .. | destruct H]
           end;
    cbn [negb]; intros H; vm_compute in H;
    (discriminate H || (injection H as <-; split; [reflexivity | lia])).
Qed.

Lemma to_bytes4_range (x : Z) :
  Forall (fun b => 0 <= b < 256) (BaseV4.to_bytes4 x).
Proof.
  unfold BaseV4.to_bytes4. change 255 with (Z.ones 8).
  repeat constructor; rewrite Z.land_ones by lia;
    apply Z.mod_pos_bound; reflexivity.
Qed.

Lemma int_from_to_bytes4 (x : Z) :
  0 <= x < 2 ^ 32 -> BaseV4.int_from_bytes (BaseV4.to_bytes4 x) = x.
Proof.
  intros Hx. unfold BaseV4.int_from_bytes, BaseV4.to_bytes4.
  change 255 with (Z.ones 8). rewrite !Z.land_ones, !Z.shiftr_div_pow2 by lia.
  cbn [fold_left].
  change (2 ^ 8) with 256. change (2 ^ 16) with 65536.
  change (2 ^ 24) with 16777216. change (2 ^ 32) with 4294967296 in Hx.
  Z.div_mod_to_equations. lia.
Qed.

Lemma to_from_bytes4 (b0 b1 b2 b3 : Z) :
  0 <= b0 < 256 -> 0 <= b1 < 256 -> 0 <= b2 < 256 -> 0 <= b3 < 256 ->
  BaseV4.to_bytes4 (BaseV4.int_from_bytes [b0; b1; b2; b3]) = [b0; b1; b2; b3]
  /\ 0 <= BaseV4.int_from_bytes [b0; b1; b2; b3] < 2 ^ 32.
Proof.
  intros H0 H1 H2 H3. unfold BaseV4.int_from_bytes, BaseV4.to_bytes4.
  change 255 with (Z.ones 8). rewrite !Z.land_ones, !Z.shiftr_div_pow2 by lia.
  cbn [fold_left].
  change (2 ^ 8) with 256. change (2 ^ 16) with 65536.
  change (2 ^ 24) with 16777216. change (2 ^ 32) with 4294967296.
  split; [repeat f_equal|]; Z.div_mod_to_equations; lia.
Qed.

(** The text of an address is made of digits and dots, and starts and
    ends with a digit. *)
Lemma v4_text_chars (x : Z) :
  forallb v4_char (BaseV4._string_from_ip_int x) = true.
Proof.
  unfold BaseV4._string_from_ip_int. apply forallb_join; [reflexivity|].
  apply Forall_map. eapply Forall_impl; [|apply to_bytes4_range].
  intros b Hb. destruct (octet_text b Hb) as (_ & _ & H).
  rewrite forallb_forall in *. intros c Hc. unfold v4_char. rewrite (H c Hc).
  reflexivity.
Qed.

Lemma v4_char_not (c : char) :
  v4_char c = true ->
  isspace c = false /\ c <> SLASH /\ c <> COLON /\ c <> PERCENT.
Proof.
  unfold v4_char. rewrite orb_true_iff, N.eqb_eq. intros [H | ->].
  - apply is_decimal_digit_cases in H. cbn [In] in H.
    repeat (destruct H as [<- | H]; [repeat split; discriminate|]). destruct H.
  - repeat split; discriminate.
Qed.

Lemma v4_text_not_empty (x : Z) :
  is_empty (BaseV4._string_from_ip_int x) = false.
Proof.
  unfold BaseV4._string_from_ip_int, BaseV4.to_bytes4. cbn [map].
  destruct (octet_text (Z.land (Z.shiftr x 24) 255)) as (_ & E & _).
  { exact (Forall_inv (to_bytes4_range x)). }
  rewrite join_cons by discriminate.
  destruct (str_of_int (Z.land (Z.shiftr x 24) 255)); [discriminate | reflexivity].
Qed.

Lemma mapM_parse_octet_inv (octets : list str) (bs : list Z) :
  mapM BaseV4._parse_octet octets = Ok bs ->
  octets = map str_of_int bs /\ Forall (fun b => 0 <= b < 256) bs.
Proof.
  revert bs. induction octets as [|o os IH]; intros bs; simpl.
  - intros H; injection H as <-. auto.
  - destruct (BaseV4._parse_octet o) as [b|] eqn:E; [|discriminate]. simpl.
    destruct (mapM BaseV4._parse_octet os) as [bs'|]; [|discriminate]. simpl.
    intros H; injection H as <-.
    destruct (parse_octet_inv _ _ E) as (-> & Hb).
    destruct (IH _ eq_refl) as (-> & F). split; [reflexivity | constructor; auto].
Qed.

Lemma mapM_parse_octet (bs : list Z) :
  Forall (fun b => 0 <= b < 256) bs ->
  mapM BaseV4._parse_octet (map str_of_int bs) = Ok bs.
Proof.
  induction 1 as [|b bs Hb F IH]; [reflexivity|]. simpl.
  destruct (octet_text b Hb) as (-> & _). simpl. rewrite IH. reflexivity.
Qed.

(** An accepted IPv4 string is the text of its value. *)
Lemma v4_int_from_string_inv (s : str) (x : Z) :
  BaseV4._ip_int_from_string s = Ok x ->
  s = BaseV4._string_from_ip_int x /\ 0 <= x < 2 ^ 32.
Proof.
  unfold BaseV4._ip_int_from_string.
  destruct (is_empty s); [discriminate|].
  destruct (List.length (split DOT s) =? 4)%nat eqn:L; [|discriminate].
  cbn [negb]. apply Nat.eqb_eq in L.
  destruct (mapM BaseV4._parse_octet (split DOT s)) as [bs|] eqn:M;
    [|discriminate].
  cbn [bind try_except]. intros H; injection H as <-.
  destruct (mapM_parse_octet_inv _ _ M) as (E & F).
  rewrite E, length_map in L.
  destruct bs as [|b0 [|b1 [|b2 [|b3 [|b4 bs]]]]]; try discriminate.
  inversion F as [|? ? H0 F1]; subst. inversion F1 as [|? ? H1 F2]; subst.
  inversion F2 as [|? ? H2 F3]; subst. inversion F3 as [|? ? H3 _]; subst.
  destruct (to_from_bytes4 b0 b1 b2 b3 H0 H1 H2 H3) as (T & R).
  split; [|exact R].
  unfold BaseV4._string_from_ip_int. rewrite T, <- E. symmetry.
  apply join_split.
Qed.

(** The text of a 32-bit value is accepted, with that value. *)
Lemma v4_int_from_string_text (x : Z) :
  0 <= x < 2 ^ 32 ->
  BaseV4._ip_int_from_string (BaseV4._string_from_ip_int x) = Ok x.
Proof.
  intros Hx. unfold BaseV4._ip_int_from_string.
  rewrite v4_text_not_empty. unfold BaseV4._string_from_ip_int.
  rewrite split_join.
  - cbn [List.length map BaseV4.to_bytes4 Nat.eqb negb].
    change [str_of_int (Z.land (Z.shiftr x 24) 255);
            str_of_int (Z.land (Z.shiftr x 16) 255);
            str_of_int (Z.land (Z.shiftr x 8) 255);
            str_of_int (Z.land x 255)]
      with (map str_of_int (BaseV4.to_bytes4 x)).
    rewrite mapM_parse_octet by apply to_bytes4_range.
    cbn [bind try_except]. rewrite int_from_to_bytes4 by exact Hx. reflexivity.
  - discriminate.
  - apply Forall_map. eapply Forall_impl; [|apply to_bytes4_range].
    intros b Hb. destruct (octet_text b Hb) as (_ & _ & H).
    eapply forallb_contains_false; [exact H | reflexivity].
Qed.

Lemma v4_text_no (c : char) (x : Z) :
  v4_char c = false -> contains c (BaseV4._string_from_ip_int x) = false.
Proof. intros H. eapply forallb_contains_false; [apply v4_text_chars | exact H]. Qed.

Lemma forallb_existsb_false (P Q : char -> bool) (s : str) :
  forallb P s = true -> (forall c, P c = true -> Q c = false) ->
  existsb Q s = false.
Proof.
  intros F H. induction s as [|c s IH]; [reflexivity|]. simpl in *.
  apply andb_true_iff in F as (Hc & F). rewrite (H c Hc), (IH F). reflexivity.
Qed.

Lemma v4_text_no_space (x : Z) :
  existsb isspace (BaseV4._string_from_ip_int x) = false.
Proof.
  eapply forallb_existsb_false; [apply v4_text_chars|].
  intros c Hc. apply v4_char_not, Hc.
Qed.

Lemma IPv4Address_inv (a : str) (x : Z) :
  IPv4Address a = Ok x ->
  a = BaseV4._string_from_ip_int x /\ 0 <= x < 2 ^ 32.
Proof.
  unfold IPv4Address. destruct (contains SLASH a); [discriminate|].
  apply v4_int_from_string_inv.
Qed.

Lemma IPv4Address_text (x : Z) :
  0 <= x < 2 ^ 32 -> IPv4Address (BaseV4._string_from_ip_int x) = Ok x.
Proof.
  intros Hx. unfold IPv4Address.
  rewrite v4_text_no by reflexivity. apply v4_int_from_string_text, Hx.
Qed.

(** The library raises nothing but [AddressValueError] here. *)
Lemma IPv4Address_error (a : str) (e : error) :
  IPv4Address a = Raise e -> e = AddressValueError.
Proof.
  unfold IPv4Address, BaseV4._ip_int_from_string.
  destruct (contains SLASH a); [congruence|].
  destruct (is_empty a); [congruence|].
  destruct (negb _); [congruence|].
  destruct (bind _ _) as [v|e']; simpl; [discriminate | congruence].
Qed.

(** A string with a character that is neither a digit nor a dot is no
    IPv4 address. *)
Lemma IPv4Address_rejects (a : str) (c : char) :
  In c a -> v4_char c = false -> IPv4Address a = Raise AddressValueError.
Proof.
  intros Hin Hc. destruct (IPv4Address a) as [x|e] eqn:E.
  - apply IPv4Address_inv in E as (-> & _).
    apply contains_In in Hin. rewrite v4_text_no in Hin by exact Hc. discriminate.
  - apply IPv4Address_error in E. congruence.
Qed.

(* ================================================================== *)
(** * Netmasks *)
(* ================================================================== *)

(** Masking with the netmask of a prefix clears the host bits. *)
Lemma netmask_land (width p x : Z) :
  0 <= p <= width -> 0 <= x < 2 ^ width ->
  Z.land x (_ip_int_from_prefix (2 ^ width - 1) p) = zero_host_bits width p x.
Proof.
  intros Hp Hx. unfold _ip_int_from_prefix, zero_host_bits.
  replace (2 ^ width - 1) with (Z.ones width) by (rewrite Z.ones_equiv; lia).
  rewrite Z.shiftr_div_pow2, Z.ones_div_pow2 by lia.
  rewrite <- Z.shiftr_div_pow2, <- Z.shiftl_mul_pow2 by lia.
  apply Z.bits_inj'. intros i Hi.
  rewrite Z.land_spec, Z.lxor_spec, !Z.testbit_ones_nonneg by lia.
  rewrite Z.shiftl_spec by lia.
  destruct (Z.ltb_spec i (width - p)) as [Hlt | Hge].
  - rewrite (Z.testbit_neg_r _ (i - (width - p))) by lia.
    replace (i <? width) with true by (symmetry; apply Z.ltb_lt; lia).
    apply andb_false_r.
  - rewrite Z.shiftr_spec by lia.
    replace (i - (width - p) + (width - p)) with i by lia.
    destruct (Z.ltb_spec i width) as [Hlt | Hge'].
    + apply andb_true_r.
    + rewrite <- (Z.mod_small x (2 ^ width)) by lia.
      rewrite Z.mod_pow2_bits_high by lia. reflexivity.
Qed.

Lemma zero_host_bits_range (width p x : Z) :
  0 <= p <= width -> 0 <= x -> 0 <= zero_host_bits width p x <= x.
Proof.
  intros Hp Hx. unfold zero_host_bits.
  assert (0 < 2 ^ (width - p)) by (apply Z.pow_pos_nonneg; lia).
  split.
  - apply Z.mul_nonneg_nonneg; [apply Z.div_pos|]; lia.
  - rewrite Z.mul_comm. apply Z.mul_div_le. lia.
Qed.

Lemma zero_host_bits_idem (width p x : Z) :
  0 <= p <= width ->
  zero_host_bits width p (zero_host_bits width p x) = zero_host_bits width p x.
Proof.
  intros Hp. unfold zero_host_bits.
  assert (0 < 2 ^ (width - p)) by (apply Z.pow_pos_nonneg; lia).
  rewrite Z.div_mul by lia. reflexivity.
Qed.

Lemma zero_host_bits_full (width x : Z) : zero_host_bits width width x = x.
Proof.
  unfold zero_host_bits. rewrite Z.sub_diag. simpl.
  rewrite Z.div_1_r. lia.
Qed.

Lemma bit_length_nonneg (n : Z) : 0 <= bit_length n.
Proof.
  unfold bit_length. destruct (n =? 0); [lia|].
  pose proof (Z.log2_nonneg (Z.abs n)). lia.
Qed.

Lemma prefix_from_ip_int_range (width ip_int p : Z) :
  0 <= width ->
  _prefix_from_ip_int width ip_int = Ok p -> 0 <= p <= width.
Proof.
  intros Hw. unfold _prefix_from_ip_int, _count_righthand_zero_bits.
  destruct (negb _); [discriminate|]. intros H; injection H as <-.
  destruct (ip_int =? 0); [lia|].
  pose proof (bit_length_nonneg (Z.land (Z.lnot ip_int) (ip_int - 1))). lia.
Qed.

Lemma prefix_from_prefix_string_range (width p : Z) (s : str) :
  _prefix_from_prefix_string width s = Ok p -> 0 <= p <= width.
Proof.
  unfold _prefix_from_prefix_string.
  destruct (negb _); [discriminate|].
  destruct (int_of_digits 10 s) as [n|]; [|discriminate].
  destruct ((0 <=? n) && (n <=? width)) eqn:E; [|discriminate].
  intros H; injection H as <-. apply andb_true_iff in E. lia.
Qed.

Lemma V4_make_netmask_inv (arg : mask_arg) (m p : Z) :
  BaseV4._make_netmask arg = Ok (m, p) ->
  0 <= p <= 32 /\ m = _ip_int_from_prefix (2 ^ 32 - 1) p.
Proof.
  unfold BaseV4._make_netmask.
  match goal with |- bind ?x _ = _ -> _ => destruct x as [q|] eqn:E end;
    [|discriminate].
  cbn [bind]. intros H.
  apply Ok_inj, pair_equal_spec in H as (<- & <-).
  split; [|unfold BaseV4._ALL_ONES, IPV4LENGTH; reflexivity].
  destruct arg as [s|n].
  - destruct (_prefix_from_prefix_string BaseV4._max_prefixlen s) as [q'|e] eqn:E1;
      cbn [try_except] in E.
    + injection E as <-. exact (prefix_from_prefix_string_range _ _ _ E1).
    + destruct (is_NetmaskValueError e); [|discriminate].
      unfold _prefix_from_ip_string in E.
      destruct (try_except (BaseV4._ip_int_from_string s) _ _) as [ip|];
        [|discriminate].
      cbn [bind] in E.
      destruct (_prefix_from_ip_int BaseV4._max_prefixlen ip) as [q'|] eqn:E2.
      * injection E as <-. apply (prefix_from_ip_int_range 32 ip); [lia | exact E2].
      * destruct (_prefix_from_ip_int BaseV4._max_prefixlen
                    (Z.lxor ip BaseV4._ALL_ONES)) as [q'|] eqn:E3;
          cbn [try_except] in E; [|discriminate].
        injection E as <-.
        apply (prefix_from_ip_int_range 32 _ _ ltac:(lia) E3).
  - destruct ((0 <=? n) && (n <=? BaseV4._max_prefixlen)) eqn:R;
      [|discriminate].
    injection E as <-. apply andb_true_iff in R.
    unfold BaseV4._max_prefixlen, IPV4LENGTH in R. lia.
Qed.

Lemma V6_make_netmask_inv (arg : mask_arg) (m p : Z) :
  BaseV6._make_netmask arg = Ok (m, p) ->
  0 <= p <= 128 /\ m = _ip_int_from_prefix (2 ^ 128 - 1) p.
Proof.
  unfold BaseV6._make_netmask.
  match goal with |- bind ?x _ = _ -> _ => destruct x as [q|] eqn:E end;
    [|discriminate].
  cbn [bind]. intros H.
  apply Ok_inj, pair_equal_spec in H as (<- & <-).
  split; [|unfold BaseV6._ALL_ONES, IPV6LENGTH; reflexivity].
  destruct arg as [s|n].
  - exact (prefix_from_prefix_string_range _ _ _ E).
  - destruct ((0 <=? n) && (n <=? BaseV6._max_prefixlen)) eqn:R;
      [|discriminate].
    injection E as <-. apply andb_true_iff in R.
    unfold BaseV6._max_prefixlen, IPV6LENGTH in R. lia.
Qed.

(** The library raises nothing but [NetmaskValueError] for a mask. *)
Lemma V4_make_netmask_error (arg : mask_arg) (e : error) :
  BaseV4._make_netmask arg = Raise e -> e = NetmaskValueError.
Proof.
  unfold BaseV4._make_netmask.
  match goal with |- bind ?x _ = _ -> _ => destruct x as [q|e'] eqn:E end;
    [discriminate|].
  cbn [bind]. intros H; injection H as <-.
  destruct arg as [s|n].
  - unfold _prefix_from_prefix_string in E.
    destruct (negb (isascii s && isdigit s)).
    + cbn [try_except is_NetmaskValueError] in E.
      unfold _prefix_from_ip_string in E.
      destruct (BaseV4._ip_int_from_string s) as [ip|e0] eqn:E0;
        cbn [try_except bind] in E.
      * destruct (_prefix_from_ip_int BaseV4._max_prefixlen ip); [discriminate|].
        destruct (_prefix_from_ip_int BaseV4._max_prefixlen _);
          cbn [try_except is_ValueError] in E; [discriminate | congruence].
      * assert (e0 = AddressValueError).
        { unfold BaseV4._ip_int_from_string in E0.
          destruct (is_empty s); [congruence|].
          destruct (negb _); [congruence|].
          destruct (bind _ _); cbn [try_except is_ValueError] in E0; congruence. }
        subst e0. cbn [is_AddressValueError bind] in E. congruence.
    + destruct (int_of_digits 10 s) as [n|];
        [destruct (negb _)|]; cbn [try_except is_NetmaskValueError] in E;
        try discriminate.
      all: unfold _prefix_from_ip_string in E.
      all: destruct (BaseV4._ip_int_from_string s) as [ip|e0] eqn:E0;
        cbn [try_except bind] in E.
      all: try (destruct (_prefix_from_ip_int BaseV4._max_prefixlen ip);
                [discriminate|];
                destruct (_prefix_from_ip_int BaseV4._max_prefixlen _);
                cbn [try_except is_ValueError] in E;
                [discriminate | congruence]).
      all: assert (e0 = AddressValueError) by
          (unfold BaseV4._ip_int_from_string in E0;
           destruct (is_empty s); [congruence|];
           destruct (negb _); [congruence|];
           destruct (bind _ _); cbn [try_except is_ValueError] in E0; congruence).
      all: subst e0; cbn [is_AddressValueError bind] in E; congruence.
  - destruct (negb _); congruence.
Qed.

(** Checked on each prefix length: its decimal text is read back. *)
Lemma prefix_text (width p : Z) :
  width = 32 \/ width = 128 -> 0 <= p <= width ->
  _prefix_from_prefix_string width (str_of_int p) = Ok p
  /\ is_empty (str_of_int p) = false
  /\ forallb is_decimal_digit (str_of_int p) = true.
Proof.
  intros Hw Hp.
  set (P := fun w p =>
    match _prefix_from_prefix_string w (str_of_int p) with
    | Ok p' => p' =? p
    | Raise _ => false
    end
    && negb (is_empty (str_of_int p))
    && forallb is_decimal_digit (str_of_int p)).
  assert (H : P width p = true).
  { destruct Hw as [-> | ->].
    - apply (zrange_forallb (P 32) 0 33); [vm_compute; reflexivity | lia].
    - apply (zrange_forallb (P 128) 0 129); [vm_compute; reflexivity | lia]. }
  unfold P in H. apply andb_true_iff in H as (H & H3).
  apply andb_true_iff in H as (H1 & H2).
  destruct (_prefix_from_prefix_string width (str_of_int p)) as [p'|];
    [|discriminate].
  apply Z.eqb_eq in H1. subst p'. apply negb_true_iff in H2. auto.
Qed.

Lemma digits_no (c : char) (s : str) :
  forallb is_decimal_digit s = true -> is_decimal_digit c = false ->
  contains c s = false.
Proof. apply forallb_contains_false. Qed.

Lemma V4_make_netmask_text (p : Z) :
  0 <= p <= 32 ->
  BaseV4._make_netmask (MaskStr (str_of_int p))
  = Ok (_ip_int_from_prefix (2 ^ 32 - 1) p, p).
Proof.
  intros Hp. unfold BaseV4._make_netmask.
  destruct (prefix_text 32 p ltac:(auto) Hp) as (E & _).
  change BaseV4._max_prefixlen with 32. rewrite E. reflexivity.
Qed.

Lemma V6_make_netmask_text (p : Z) :
  0 <= p <= 128 ->
  BaseV6._make_netmask (MaskStr (str_of_int p))
  = Ok (_ip_int_from_prefix (2 ^ 128 - 1) p, p).
Proof.
  intros Hp. unfold BaseV6._make_netmask.
  destruct (prefix_text 128 p ltac:(auto) Hp) as (E & _).
  change BaseV6._max_prefixlen with 128. rewrite E. reflexivity.
Qed.

(* ================================================================== *)
(** * IPv6: what an accepted string looks like *)
(* ================================================================== *)

Lemma v6_ip_int_from_string_unfold (s : str) :
  BaseV6._ip_int_from_string s =
    if is_empty s then Raise AddressValueError
    else
      let parts := split COLON s in
      if (List.length parts <? 3)%nat then Raise AddressValueError
      else
        parts <-
          (if contains DOT (last parts [])
           then
             ipv4_int <-
               try_except
                 (if contains SLASH (last parts []) then Raise AddressValueError
                  else BaseV4._ip_int_from_string (last parts []))
                 is_AddressValueError (fun _ => Raise AddressValueError) ;;
             Ok (removelast parts
                   ++ [hex_of_int (Z.land (Z.shiftr ipv4_int 16) 0xFFFF)]
                   ++ [hex_of_int (Z.land ipv4_int 0xFFFF)])
           else Ok parts) ;;
        v6_parts_value parts.
Proof. reflexivity. Qed.

Lemma lor_shiftl_16 (a h : Z) :
  0 <= h < 65536 -> Z.lor (Z.shiftl a 16) h = a * 65536 + h.
Proof.
  intros Hh. rewrite Z.shiftl_mul_pow2 by lia. change (2 ^ 16) with 65536.
  rewrite <- (Z.add_lor_land (a * 65536) h).
  assert (E : Z.land (a * 65536) h = 0).
  { apply Z.bits_inj'. intros i Hi. rewrite Z.land_spec, Z.bits_0.
    destruct (Z.ltb_spec i 16).
    - change 65536 with (2 ^ 16). rewrite Z.mul_pow2_bits_low by lia. reflexivity.
    - rewrite <- (Z.mod_small h (2 ^ 16)) by (change (2 ^ 16) with 65536; lia).
      rewrite Z.mod_pow2_bits_high by lia. apply andb_false_r. }
  rewrite E. lia.
Qed.

Lemma in_HEX_DIGITS_value (c : char) :
  BaseV6.in_HEX_DIGITS c = true -> 0 <= digit_value c < 16.
Proof.
  unfold BaseV6.in_HEX_DIGITS, digit_value, is_decimal_digit.
  destruct (0x30 <=? c)%N eqn:A1, (c <=? 0x39)%N eqn:A2,
           (0x61 <=? c)%N eqn:A3, (c <=? 0x66)%N eqn:A4,
           (0x41 <=? c)%N eqn:A5, (c <=? 0x46)%N eqn:A6;
    cbn [andb orb]; intros H; try discriminate;
    rewrite ?N.leb_le, ?N.leb_gt in *; lia.
Qed.

Lemma horner_hex_bound (s : str) (acc k : Z) :
  forallb BaseV6.in_HEX_DIGITS s = true ->
  0 <= k -> 0 <= acc < 16 ^ k ->
  0 <= fold_left (fun a c => a * 16 + digit_value c) s acc
    < 16 ^ (k + Z.of_nat (List.length s)).
Proof.
  revert acc k. induction s as [|c s IH]; intros acc k F Hk Ha.
  - simpl. rewrite Z.add_0_r. exact Ha.
  - cbn [forallb] in F. apply andb_true_iff in F as (Hc & F).
    apply in_HEX_DIGITS_value in Hc. cbn [fold_left List.length].
    replace (k + Z.of_nat (S (List.length s)))
      with ((k + 1) + Z.of_nat (List.length s)) by lia.
    apply IH; [exact F | lia |].
    rewrite Z.pow_add_r by lia. change (16 ^ 1) with 16. lia.
Qed.

Lemma parse_hextet_inv (p : str) (v : Z) :
  BaseV6._parse_hextet p = Ok v ->
  forallb BaseV6.in_HEX_DIGITS p = true /\ is_empty p = false
  /\ 0 <= v < 65536.
Proof.
  unfold BaseV6._parse_hextet, int_of_digits.
  destruct (forallb BaseV6.in_HEX_DIGITS p) eqn:F; [|discriminate].
  destruct (4 <? List.length p)%nat eqn:L; [discriminate|].
  destruct (is_empty p); [discriminate|]. cbn [negb Z.eqb andb].
  intros H; injection H as <-. repeat split; auto.
  - apply (horner_hex_bound p 0 0 F); lia.
  - apply Nat.ltb_ge in L.
    pose proof (horner_hex_bound p 0 0 F ltac:(lia) ltac:(lia)) as (_ & B).
    eapply Z.lt_le_trans; [exact B|]. change 65536 with (16 ^ 4).
    apply Z.pow_le_mono_r; lia.
Qed.

Lemma hextets_loop_inv (ps : list str) (acc v k : Z) :
  BaseV6.hextets_loop ps acc = Ok v ->
  Forall (fun p => forallb BaseV6.in_HEX_DIGITS p = true) ps
  /\ (0 <= k -> 0 <= acc < 2 ^ (16 * k) ->
      0 <= v < 2 ^ (16 * (k + Z.of_nat (List.length ps)))).
Proof.
  revert acc k. induction ps as [|p ps IH]; intros acc k; cbn [BaseV6.hextets_loop].
  - intros H; injection H as <-. split; [constructor|].
    simpl. rewrite Z.add_0_r. auto.
  - destruct (BaseV6._parse_hextet p) as [h|] eqn:E; [|discriminate].
    cbn [bind]. intros H.
    destruct (parse_hextet_inv _ _ E) as (F & _ & R).
    destruct (IH _ (k + 1) H) as (Fs & B). split; [constructor; assumption|].
    intros Hk Ha. cbn [List.length].
    replace (k + Z.of_nat (S (List.length ps)))
      with ((k + 1) + Z.of_nat (List.length ps)) by lia.
    apply B; [lia|]. rewrite lor_shiftl_16 by exact R.
    replace (16 * (k + 1)) with (16 * k + 16) by lia.
    rewrite Z.pow_add_r by lia. change (2 ^ 16) with 65536. lia.
Qed.

Lemma skip_index_loop_inv (parts : list str) (indices : list nat)
    (init r : option nat) :
  BaseV6.skip_index_loop parts indices init = Ok r ->
  match r with
  | Some k => init = Some k \/ (In k indices /\ nth k parts [] = [])
  | None => init = None
  end.
Proof.
  revert init. induction indices as [|i is_ IH]; intros init; simpl.
  - intros H; injection H as <-. destruct init; auto.
  - destruct (is_empty (nth i parts [])) eqn:E.
    + destruct init; [discriminate|]. intros H. specialize (IH _ H).
      destruct r as [k|]; [|discriminate].
      destruct IH as [IH | (IH & N)].
      * injection IH as ->. right. split; [auto|].
        destruct (nth k parts []); [reflexivity | discriminate].
      * right. auto.
    + intros H. specialize (IH _ H). destruct r as [k|]; [|exact IH].
      destruct IH as [IH | (IH & N)]; auto.
Qed.

Lemma firstn_1_hd (parts : list str) :
  parts <> [] -> firstn 1 parts = [hd [] parts].
Proof. destruct parts; [congruence | reflexivity]. Qed.

Lemma skipn_last (parts : list str) (n : nat) :
  List.length parts = S n -> skipn n parts = [last parts []].
Proof.
  revert parts. induction n as [|n IH]; intros [|p parts] L; try discriminate.
  - destruct parts; [reflexivity | discriminate].
  - simpl in L. injection L as L. cbn [skipn]. rewrite (IH _ L).
    destruct parts; [discriminate | reflexivity].
Qed.

Lemma parts_around (parts : list str) (k : nat) :
  (k < List.length parts)%nat ->
  parts = firstn k parts ++ nth k parts [] :: skipn (S k) parts.
Proof.
  revert parts. induction k as [|k IH]; intros [|p parts] L; simpl in *; try lia.
  - reflexivity.
  - f_equal. apply IH. lia.
Qed.

Lemma parts_hi_inv (parts : list str) (k hi : nat) :
  parts <> [] ->
  (if is_empty (hd [] parts)
   then (let parts_hi := (k - 1)%nat in
         if negb (parts_hi =? 0)%nat then @Raise error nat AddressValueError
         else Ok parts_hi)
   else Ok k) = Ok hi ->
  (hi <= k)%nat /\ (Forall hexP (firstn hi parts) -> Forall hexP (firstn k parts)).
Proof.
  intros Hne. destruct (is_empty (hd [] parts)) eqn:E0.
  - cbv zeta. destruct (k - 1 =? 0)%nat eqn:K0; cbn [negb]; [|discriminate].
    intros H. apply Ok_inj in H as <-. apply Nat.eqb_eq in K0. split; [lia|].
    intros _. destruct k as [|[|k]]; [constructor| |lia].
    rewrite firstn_1_hd by exact Hne.
    destruct (hd [] parts); [repeat constructor | discriminate].
  - intros H. apply Ok_inj in H as <-. auto.
Qed.

Lemma parts_lo_inv (parts : list str) (k lo : nat) :
  (k < List.length parts)%nat ->
  (if is_empty (last parts [])
   then (let parts_lo := (List.length parts - k - 1 - 1)%nat in
         if negb (parts_lo =? 0)%nat then @Raise error nat AddressValueError
         else Ok parts_lo)
   else Ok (List.length parts - k - 1)%nat) = Ok lo ->
  (lo <= List.length parts - k - 1)%nat
  /\ (Forall hexP (skipn (List.length parts - lo) parts) ->
      Forall hexP (skipn (S k) parts)).
Proof.
  intros Hk. destruct (is_empty (last parts [])) eqn:E9.
  - cbv zeta. destruct (_ =? 0)%nat eqn:K9; cbn [negb]; [|discriminate].
    intros H. apply Ok_inj in H as <-. apply Nat.eqb_eq in K9. split; [lia|].
    intros _.
    destruct (Nat.eq_dec (List.length parts) (S k)) as [L | L].
    + rewrite skipn_all2 by lia. constructor.
    + rewrite (skipn_last parts (S k)) by lia.
      destruct (last parts []); [repeat constructor | discriminate].
  - intros H. apply Ok_inj in H as <-. split; [lia|].
    replace (List.length parts - (List.length parts - k - 1))%nat with (S k) by lia.
    auto.
Qed.

(** Every part is made of hexadecimal digits (or is empty), and the value
    has 128 bits. *)
Lemma v6_parts_value_inv (parts : list str) (x : Z) :
  v6_parts_value parts = Ok x ->
  Forall hexP parts /\ 0 <= x < 2 ^ 128.
Proof.
  unfold v6_parts_value, BaseV6._HEXTET_COUNT.
  destruct (8 + 1 <? List.length parts)%nat eqn:L9; [discriminate|].
  apply Nat.ltb_ge in L9.
  destruct (BaseV6.skip_index_loop parts _ None) as [[k|]|] eqn:S;
    [| |discriminate]; cbn [bind].
  - (* one '::' at index k *)
    apply skip_index_loop_inv in S as [S | (Hk & Nk)]; [discriminate|].
    apply in_seq in Hk.
    match goal with
    | |- bind (bind ?HI _) _ = _ -> _ => destruct HI as [hi|] eqn:EHI
    end; [|discriminate].
    cbn [bind].
    match goal with
    | |- bind (bind ?LO _) _ = _ -> _ => destruct LO as [lo|] eqn:ELO
    end; [|discriminate].
    cbn [bind].
    apply parts_hi_inv in EHI as (Hhi & FHI); [|intros ->; simpl in Hk; lia].
    apply parts_lo_inv in ELO as (Hlo & FLO); [|lia].
    destruct (Z.ltb_spec (Z.of_nat 8 - Z.of_nat (hi + lo)) 1) as [|Hs];
      [discriminate|].
    cbn [bind].
    destruct (BaseV6.hextets_loop (firstn hi parts) 0) as [v1|] eqn:H1;
      [|discriminate].
    cbn [bind try_except].
    match goal with
    | |- try_except ?m _ _ = _ -> _ => destruct m as [v2|] eqn:H2
    end; [|discriminate].
    cbn [try_except]. intros H. apply Ok_inj in H as <-.
    destruct (hextets_loop_inv _ _ _ 0 H1) as (F1 & B1).
    destruct (hextets_loop_inv _ _ _
                (Z.of_nat hi + (8 - Z.of_nat (hi + lo))) H2) as (F2 & B2).
    split.
    + rewrite (parts_around parts k) by lia. apply Forall_app. split; [auto|].
      constructor; [rewrite Nk; reflexivity | auto].
    + rewrite length_firstn in B1. rewrite length_skipn in B2.
      change (Z.of_nat 8) with 8 in *.
      replace (Nat.min hi (List.length parts)) with hi in B1 by lia.
      replace (List.length parts - (List.length parts - lo))%nat with lo in B2 by lia.
      replace (16 * (Z.of_nat hi + (8 - Z.of_nat (hi + lo)) + Z.of_nat lo))
        with 128 in B2 by lia.
      apply B2; [lia|].
      rewrite Z.shiftl_mul_pow2 by lia.
      specialize (B1 ltac:(lia) ltac:(simpl; lia)).
      replace (16 * (Z.of_nat hi + (8 - Z.of_nat (hi + lo))))
        with (16 * (0 + Z.of_nat hi) + 16 * (8 - Z.of_nat (hi + lo))) by lia.
      rewrite Z.pow_add_r by lia.
      assert (0 < 2 ^ (16 * (8 - Z.of_nat (hi + lo))))
        by (apply Z.pow_pos_nonneg; lia).
      nia.
  - (* no '::' *)
    destruct (List.length parts =? 8)%nat eqn:L8; [|discriminate].
    apply Nat.eqb_eq in L8. cbn [negb].
    destruct (is_empty (hd [] parts)); [discriminate|].
    destruct (is_empty (last parts [])); [discriminate|]. cbn [bind].
    rewrite firstn_all, Nat.sub_0_r, skipn_all.
    destruct (BaseV6.hextets_loop parts 0) as [v1|] eqn:H1; [|discriminate].
    cbn [bind BaseV6.hextets_loop try_except]. intros H. apply Ok_inj in H as <-.
    destruct (hextets_loop_inv _ _ _ 0 H1) as (F1 & B1). split; [exact F1|].
    rewrite Z.shiftl_0_r. rewrite L8 in B1. apply B1; simpl; lia.
Qed.

Lemma hex_is_v6_char (p : str) : hexP p -> forallb v6_char p = true.
Proof.
  unfold hexP. rewrite !forallb_forall. intros H c Hc.
  unfold v6_char. rewrite (H c Hc). reflexivity.
Qed.

Lemma v4_is_v6_char (c : char) : v4_char c = true -> v6_char c = true.
Proof.
  unfold v4_char, v6_char, BaseV6.in_HEX_DIGITS.
  destruct (is_decimal_digit c); [reflexivity|]. simpl.
  intros ->. apply orb_true_r.
Qed.

(** An accepted IPv6 string, zone apart, is not empty, is made of
    hexadecimal digits, colons and dots, and its value has 128 bits. *)
Lemma v6_ip_int_from_string_inv (s : str) (x : Z) :
  BaseV6._ip_int_from_string s = Ok x ->
  is_empty s = false /\ forallb v6_char s = true /\ 0 <= x < 2 ^ 128.
Proof.
  rewrite v6_ip_int_from_string_unfold.
  destruct (is_empty s) eqn:Es; [discriminate|]. cbv zeta.
  destruct (List.length (split COLON s) <? 3)%nat; [discriminate|].
  destruct (contains DOT (last (split COLON s) [])) eqn:Ed.
  - destruct (contains SLASH (last (split COLON s) []));
      [cbn [try_except is_AddressValueError bind]; discriminate|].
    destruct (BaseV4._ip_int_from_string (last (split COLON s) []))
      as [ip4|e] eqn:E4; cbn [try_except bind];
      [|destruct (is_AddressValueError e); discriminate].
    intros H. apply v6_parts_value_inv in H as (F & R).
    apply Forall_app in F as (F & _).
    split; [reflexivity|]. split; [|exact R].
    rewrite <- (join_split COLON s).
    apply forallb_join; [reflexivity|].
    rewrite (app_removelast_last [] (split_not_nil COLON s)).
    apply Forall_app. split.
    + eapply Forall_impl; [|exact F]. apply hex_is_v6_char.
    + constructor; [|constructor].
      destruct (v4_int_from_string_inv _ _ E4) as (E & _).
      pose proof (v4_text_chars ip4) as V. rewrite <- E in V.
      rewrite forallb_forall in *.
      intros c Hc. apply v4_is_v6_char, V, Hc.
  - cbn [bind]. intros H. apply v6_parts_value_inv in H as (F & R).
    split; [reflexivity|]. split; [|exact R].
    rewrite <- (join_split COLON s).
    apply forallb_join; [reflexivity|].
    eapply Forall_impl; [|exact F]. apply hex_is_v6_char.
Qed.

Lemma v6_char_not (c : char) :
  v6_char c = true -> isspace c = false /\ c <> SLASH /\ c <> PERCENT.
Proof.
  unfold v6_char, BaseV6.in_HEX_DIGITS, is_decimal_digit, isspace.
  intros H. repeat split.
  - destruct (N.ltb_spec c 0x2E).
    + exfalso. revert H.
      rewrite !orb_true_iff, !andb_true_iff, !N.leb_le, !N.eqb_eq.
      unfold COLON, DOT. lia.
    + apply not_true_is_false. intros T. revert T.
      rewrite !orb_true_iff, !andb_true_iff, !N.leb_le, !N.eqb_eq.
      intros T.
      revert H. rewrite !orb_true_iff, !andb_true_iff, !N.leb_le, !N.eqb_eq.
      unfold COLON, DOT. lia.
  - intros ->. discriminate.
  - intros ->. discriminate.
Qed.

(* ================================================================== *)
(** * IPv6 text *)
(* ================================================================== *)

(** Checked on each of the 65536 hextets. *)
Lemma hextet_text (v : Z) :
  0 <= v < 65536 ->
  BaseV6._parse_hextet (hex_of_int v) = Ok v
  /\ is_empty (hex_of_int v) = false
  /\ Py.eqb (hex_of_int v) (lit "0") = (v =? 0).
Proof.
  intros Hv.
  assert (H := zrange_forallb
    (fun v => match BaseV6._parse_hextet (hex_of_int v) with
              | Ok v' => v' =? v
              | Raise _ => false
              end
              && negb (is_empty (hex_of_int v))
              && Bool.eqb (Py.eqb (hex_of_int v) (lit "0")) (v =? 0))
    0 (Z.to_nat 65536) ltac:(vm_compute; reflexivity) v ltac:(lia)).
  cbv beta in H. apply andb_true_iff in H as (H & H3).
  apply andb_true_iff in H as (H1 & H2).
  destruct (BaseV6._parse_hextet (hex_of_int v)) as [v'|]; [|discriminate].
  apply Z.eqb_eq in H1. subst v'. apply negb_true_iff in H2.
  apply Bool.eqb_prop in H3. auto.
Qed.

Lemma lit_colon : lit ":" = [COLON].
Proof. reflexivity. Qed.

Lemma v6_string_from_ip_int (x : Z) :
  0 <= x < 2 ^ 128 ->
  BaseV6._string_from_ip_int x
  = Ok (join [COLON] (BaseV6._compress_hextets (fixed_digits 8 65536 x hex_of_int))).
Proof.
  intros Hx. unfold BaseV6._string_from_ip_int.
  replace (BaseV6._ALL_ONES <? x) with false
    by (symmetry; apply Z.ltb_ge; unfold BaseV6._ALL_ONES, IPV6LENGTH; lia).
  cbv zeta. rewrite lit_colon. do 3 f_equal.
  rewrite <- (map_map (fun i => horner 16 (slice (BaseV6.format_032x x) i (i + 4)))
                      hex_of_int).
  rewrite hextet_slices by exact Hx.
  apply (fixed_digits_map 65536 hex_of_int (fun d => d)).
Qed.

Lemma compress_scan_flags (hs : list str) (index : Z) (st : Z * Z * Z * Z) :
  BaseV6.compress_scan hs index st
  = scan_flags (map (fun h => Py.eqb h (lit "0")) hs) index st.
Proof.
  revert index st. induction hs as [|h hs IH]; intros index st; [reflexivity|].
  cbn [BaseV6.compress_scan map scan_flags].
  destruct st as (((a & b) & c) & d). apply IH.
Qed.

Lemma run_ok_8 (b0 b1 b2 b3 b4 b5 b6 b7 : bool) :
  run_ok [b0; b1; b2; b3; b4; b5; b6; b7] = true.
Proof.
  destruct b0, b1, b2, b3, b4, b5, b6, b7; vm_compute; reflexivity.
Qed.

Lemma contains_nil (c : char) : contains c [] = false.
Proof. reflexivity. Qed.

Lemma is_empty_nil : is_empty [] = true.
Proof. reflexivity. Qed.

Lemma join_two_not_empty (sep : char) (p q : str) (r : list str) :
  is_empty (join [sep] (p :: q :: r)) = false.
Proof. rewrite join_cons by discriminate. destruct p; reflexivity. Qed.

Lemma hextet_of_no (c : char) (h : str) (v : Z) :
  hextet_of h v -> BaseV6.in_HEX_DIGITS c = false -> contains c h = false.
Proof.
  intros (P & _) Hc. apply parse_hextet_inv in P as (F & _).
  eapply forallb_contains_false; eauto.
Qed.

(** Reading back the compressed text of eight hextets, whatever run of
    zeros was compressed. *)
Section ParseCompressed.

Local Opaque contains BaseV6._parse_hextet Z.shiftl Z.lor is_empty join split.


Lemma parse_compressed (h0 h1 h2 h3 h4 h5 h6 h7 : str)
    (v0 v1 v2 v3 v4 v5 v6 v7 : Z) :
  hextet_of h0 v0 -> hextet_of h1 v1 -> hextet_of h2 v2 -> hextet_of h3 v3 ->
  hextet_of h4 v4 -> hextet_of h5 v5 -> hextet_of h6 v6 -> hextet_of h7 v7 ->
  BaseV6._ip_int_from_string
    (join [COLON] (BaseV6._compress_hextets [h0; h1; h2; h3; h4; h5; h6; h7]))
  = Ok (hextets_value [v0; v1; v2; v3; v4; v5; v6; v7]).
Proof.
  intros G0 G1 G2 G3 G4 G5 G6 G7.
  pose proof (hextet_of_no COLON _ _ G0 eq_refl) as C0.
  pose proof (hextet_of_no COLON _ _ G1 eq_refl) as C1.
  pose proof (hextet_of_no COLON _ _ G2 eq_refl) as C2.
  pose proof (hextet_of_no COLON _ _ G3 eq_refl) as C3.
  pose proof (hextet_of_no COLON _ _ G4 eq_refl) as C4.
  pose proof (hextet_of_no COLON _ _ G5 eq_refl) as C5.
  pose proof (hextet_of_no COLON _ _ G6 eq_refl) as C6.
  pose proof (hextet_of_no COLON _ _ G7 eq_refl) as C7.
  pose proof (hextet_of_no DOT _ _ G0 eq_refl) as D0.
  pose proof (hextet_of_no DOT _ _ G1 eq_refl) as D1.
  pose proof (hextet_of_no DOT _ _ G2 eq_refl) as D2.
  pose proof (hextet_of_no DOT _ _ G3 eq_refl) as D3.
  pose proof (hextet_of_no DOT _ _ G4 eq_refl) as D4.
  pose proof (hextet_of_no DOT _ _ G5 eq_refl) as D5.
  pose proof (hextet_of_no DOT _ _ G6 eq_refl) as D6.
  pose proof (hextet_of_no DOT _ _ G7 eq_refl) as D7.
  destruct G0 as (P0 & N0 & Z0), G1 as (P1 & N1 & Z1), G2 as (P2 & N2 & Z2),
           G3 as (P3 & N3 & Z3), G4 as (P4 & N4 & Z4), G5 as (P5 & N5 & Z5),
           G6 as (P6 & N6 & Z6), G7 as (P7 & N7 & Z7).
  unfold BaseV6._compress_hextets. rewrite compress_scan_flags. cbn [map].
  set (b0 := Py.eqb h0 (lit "0")) in *. set (b1 := Py.eqb h1 (lit "0")) in *.
  set (b2 := Py.eqb h2 (lit "0")) in *. set (b3 := Py.eqb h3 (lit "0")) in *.
  set (b4 := Py.eqb h4 (lit "0")) in *. set (b5 := Py.eqb h5 (lit "0")) in *.
  set (b6 := Py.eqb h6 (lit "0")) in *. set (b7 := Py.eqb h7 (lit "0")) in *.
  pose proof (run_ok_8 b0 b1 b2 b3 b4 b5 b6 b7) as R.
  clearbody b0 b1 b2 b3 b4 b5 b6 b7.
  unfold run_ok in R.
  destruct (scan_flags _ 0 (-1, 0, -1, 0)) as (((bs & bl) & s3) & s4).
  assert (Cases : bl <= 1 \/
    (0 <= bs /\ 2 <= bl /\ bs + bl <= 8
     /\ forallb (fun b => b)
          (firstn (Z.to_nat bl)
             (skipn (Z.to_nat bs) [b0; b1; b2; b3; b4; b5; b6; b7])) = true)).
  { apply orb_true_iff in R as [R | R]; [apply Z.leb_le in R; auto|].
    apply andb_true_iff in R as (R & F). apply andb_true_iff in R as (R1 & R2).
    apply Z.leb_le in R1, R2. simpl in R2.
    destruct (Z.le_gt_cases bl 1); [auto|]. right. repeat split; auto; lia. }
  clear R. destruct Cases as [Hbl | (Hbs & Hbl & Hend & F)].
  - replace (1 <? bl) with false by (symmetry; apply Z.ltb_ge; exact Hbl).
    rewrite v6_ip_int_from_string_unfold, join_two_not_empty.
    rewrite split_join by (discriminate || (repeat constructor; assumption)).
    unfold v6_parts_value.
    repeat (progress (cbn; rewrite ?is_empty_nil, ?contains_nil,
                        ?N0, ?N1, ?N2, ?N3, ?N4, ?N5, ?N6, ?N7, ?D7,
                        ?P0, ?P1, ?P2, ?P3, ?P4, ?P5, ?P6, ?P7)).
    rewrite Z.shiftl_0_r. reflexivity.
  - assert (Cbl : bl = 2 \/ bl = 3 \/ bl = 4 \/ bl = 5 \/ bl = 6 \/ bl = 7
                  \/ bl = 8) by lia.
    assert (Cbs : bs = 0 \/ bs = 1 \/ bs = 2 \/ bs = 3 \/ bs = 4 \/ bs = 5
                  \/ bs = 6) by lia.
    (repeat (destruct Cbl as [-> | Cbl]; [|]); [ .. | subst bl];
    (repeat (destruct Cbs as [-> | Cbs]; [|]); [ .. | subst bs]);
    try (exfalso; lia);
    cbn in F; cbv [Pos.to_nat Pos.iter_op Nat.add] in F; cbn in F;
    repeat match goal with
           | H : _ && _ = true |- _ => apply andb_true_iff in H as (? & H)
           end;
    repeat match goal with
           | H : ?b = true, Z : ?b = true -> _ |- _ => specialize (Z H)
           end;
    subst;
    rewrite v6_ip_int_from_string_unfold;
    cbn; cbv [Pos.to_nat Pos.iter_op Nat.add]; cbn;
    rewrite join_two_not_empty;
    rewrite split_join by (discriminate || (repeat constructor; assumption));
    unfold v6_parts_value;
    repeat (progress (cbn; rewrite ?is_empty_nil, ?contains_nil,
                        ?N0, ?N1, ?N2, ?N3, ?N4, ?N5, ?N6, ?N7, ?D7,
                        ?P0, ?P1, ?P2, ?P3, ?P4, ?P5, ?P6, ?P7));
    unfold hextets_value; cbn [fold_left];
    rewrite ?Z.lor_0_r, ?Z.shiftl_shiftl by lia;
    reflexivity).
Qed.

End ParseCompressed.

Lemma hextets_value_digits (x : Z) :
  0 <= x < 2 ^ 128 ->
  hextets_value (fixed_digits 8 65536 x (fun d => d)) = x.
Proof.
  intros Hx. unfold hextets_value.
  assert (G : forall k n acc,
    fold_left (fun a v => Z.lor (Z.shiftl a 16) v)
      (fixed_digits k 65536 n (fun d => d)) acc
    = fold_left (fun a d => a * 65536 + d)
        (fixed_digits k 65536 n (fun d => d)) acc).
  { induction k as [|k IH]; intros n acc; [reflexivity|].
    cbn [fixed_digits]. rewrite !fold_left_app, IH. cbn [fold_left].
    apply lor_shiftl_16. apply Z.mod_pos_bound. lia. }
  rewrite G, fold_fixed_digits by lia.
  change (65536 ^ Z.of_nat 8) with (2 ^ 128). rewrite Z.mod_small by lia. lia.
Qed.

Lemma hextet_of_text (d : Z) : 0 <= d < 65536 -> hextet_of (hex_of_int d) d.
Proof.
  intros Hd. destruct (hextet_text d Hd) as (P & N & E).
  repeat split; auto. rewrite E. apply Z.eqb_eq.
Qed.

(** The text of a 128-bit value is read back as that value. *)
Lemma v6_text_roundtrip (x : Z) :
  0 <= x < 2 ^ 128 ->
  exists t, BaseV6._string_from_ip_int x = Ok t
            /\ BaseV6._ip_int_from_string t = Ok x.
Proof.
  intros Hx. eexists. split; [apply v6_string_from_ip_int, Hx|].
  rewrite <- (hextets_value_digits x Hx) at 2.
  cbn [fixed_digits app].
  apply parse_compressed; apply hextet_of_text, Z.mod_pos_bound; lia.
Qed.

Lemma v6_contains_colon (s : str) (x : Z) :
  BaseV6._ip_int_from_string s = Ok x -> contains COLON s = true.
Proof.
  rewrite v6_ip_int_from_string_unfold.
  destruct (is_empty s); [discriminate|]. cbv zeta.
  destruct (contains COLON s) eqn:E; [reflexivity|].
  rewrite (split_no_sep _ _ E). cbn [List.length Nat.ltb Nat.leb]. discriminate.
Qed.

Lemma v6_text_facts (x : Z) (t : str) :
  BaseV6._string_from_ip_int x = Ok t ->
  0 <= x < 2 ^ 128 ->
  BaseV6._ip_int_from_string t = Ok x
  /\ forallb v6_char t = true /\ contains COLON t = true
  /\ exists c t', t = c :: t'.
Proof.
  intros T Hx. destruct (v6_text_roundtrip x Hx) as (t0 & T0 & R).
  rewrite T in T0. apply Ok_inj in T0 as <-.
  destruct (v6_ip_int_from_string_inv _ _ R) as (N & F & _).
  repeat split; auto.
  - exact (v6_contains_colon _ _ R).
  - destruct t; [discriminate | eauto].
Qed.

Lemma v6_string_total (x : Z) :
  0 <= x < 2 ^ 128 -> exists t, BaseV6._string_from_ip_int x = Ok t.
Proof. intros Hx. eexists. apply v6_string_from_ip_int, Hx. Qed.

Lemma lit_percent : lit "%" = [PERCENT].
Proof. reflexivity. Qed.

Lemma lit_slash : lit "/" = [SLASH].
Proof. reflexivity. Qed.

Lemma v6_text_no (c : char) (x : Z) (t : str) :
  BaseV6._string_from_ip_int x = Ok t -> 0 <= x < 2 ^ 128 ->
  v6_char c = false -> contains c t = false.
Proof.
  intros T Hx Hc. destruct (v6_text_facts _ _ T Hx) as (_ & F & _).
  eapply forallb_contains_false; eauto.
Qed.

(** What [IPv6Address] accepts. *)
Lemma IPv6Address_inv (a : str) (x : Z) (sc : option str) :
  IPv6Address a = Ok (x, sc) ->
  0 <= x < 2 ^ 128 /\ valid_scope sc /\ contains SLASH a = false
  /\ contains COLON a = true
  /\ exists addr, BaseV6._ip_int_from_string addr = Ok x
       /\ a = addr ++ match sc with Some s => PERCENT :: s | None => [] end.
Proof.
  unfold IPv6Address, BaseV6._split_scope_id.
  destruct (contains SLASH a) eqn:Sl; [discriminate|].
  destruct (partition PERCENT a) as ((addr & sep) & scope) eqn:Pa.
  apply partition_spec in Pa as (Hno & Hs).
  destruct sep; cbn [negb].
  - destruct (is_empty scope || contains PERCENT scope) eqn:Sc; [discriminate|].
    cbn [bind].
    destruct (BaseV6._ip_int_from_string addr) as [ip|] eqn:E; [|discriminate].
    cbn [bind]. intros H. apply Ok_inj, pair_equal_spec in H as (<- & <-).
    apply orb_false_iff in Sc as (S1 & S2).
    destruct (v6_ip_int_from_string_inv _ _ E) as (_ & _ & R).
    split; [exact R|]. split; [split; assumption|]. split; [reflexivity|].
    split; [|exists addr; auto].
    rewrite Hs, contains_app, (v6_contains_colon _ _ E). reflexivity.
  - destruct Hs as (-> & ->). cbn [bind].
    destruct (BaseV6._ip_int_from_string addr) as [ip|] eqn:E; [|discriminate].
    cbn [bind]. intros H. apply Ok_inj, pair_equal_spec in H as (<- & <-).
    destruct (v6_ip_int_from_string_inv _ _ E) as (_ & _ & R).
    split; [exact R|]. split; [exact I|]. split; [reflexivity|].
    split; [exact (v6_contains_colon _ _ E)|].
    exists addr. rewrite app_nil_r. auto.
Qed.

(** The text of an address object is read back as that object. *)
Lemma IPv6Address_text (x : Z) (sc : option str) (t : str) :
  0 <= x < 2 ^ 128 -> valid_scope sc ->
  match sc with Some s => contains SLASH s = false | None => True end ->
  str_of_address (V6 x sc) = Ok t ->
  IPv6Address t = Ok (x, sc) /\ contains SLASH t = false
  /\ contains COLON t = true /\ exists c t', t = c :: t' /\ isspace c = false.
Proof.
  intros Hx Hsc Hsl. unfold str_of_address.
  destruct (BaseV6._string_from_ip_int x) as [t6|] eqn:T6; [|discriminate].
  cbn [bind].
  destruct (v6_text_facts _ _ T6 Hx) as (R & F & Hc & (c & t' & ->)).
  assert (Hsp : isspace c = false).
  { cbn [forallb] in F. apply andb_true_iff in F as (F & _).
    apply v6_char_not, F. }
  assert (S6 : contains SLASH (c :: t') = false)
    by (eapply forallb_contains_false; [exact F | reflexivity]).
  assert (P6 : contains PERCENT (c :: t') = false)
    by (eapply forallb_contains_false; [exact F | reflexivity]).
  destruct sc as [s|].
  - destruct Hsc as (Ns & Ps). rewrite Ns. cbn [negb]. rewrite lit_percent.
    intros H. apply Ok_inj in H as <-.
    assert (St : contains SLASH ((c :: t') ++ [PERCENT] ++ s) = false).
    { rewrite !contains_app, S6, Hsl. reflexivity. }
    repeat split.
    + unfold IPv6Address, BaseV6._split_scope_id. rewrite St.
      change ((c :: t') ++ [PERCENT] ++ s) with ((c :: t') ++ PERCENT :: s).
      rewrite (partition_found _ _ _ P6). cbn [negb]. rewrite Ns, Ps.
      cbn [orb bind]. rewrite R. reflexivity.
    + exact St.
    + rewrite contains_app, Hc. reflexivity.
    + exists c, (t' ++ [PERCENT] ++ s). auto.
  - intros H. apply Ok_inj in H as <-. repeat split; auto.
    + unfold IPv6Address, BaseV6._split_scope_id. rewrite S6.
      rewrite (partition_not_found _ _ P6). cbn [negb bind]. rewrite R.
      reflexivity.
    + exists c, t'. auto.
Qed.

(* ================================================================== *)
(** * Address objects and their text *)
(* ================================================================== *)

Lemma last_char (P : char -> bool) (m : str) :
  forallb P m = true -> is_empty m = false ->
  exists m' d, m = m' ++ [d] /\ P d = true.
Proof.
  intros F N. assert (Hne : m <> []) by (intros ->; discriminate).
  exists (removelast m), (last m SPACE). split.
  - apply app_removelast_last, Hne.
  - rewrite forallb_forall in F. apply F.
    rewrite (app_removelast_last SPACE Hne) at 2. apply in_elt.
Qed.

Lemma first_char (P : char -> bool) (m : str) :
  forallb P m = true -> is_empty m = false ->
  exists c m', m = c :: m' /\ P c = true.
Proof.
  destruct m as [|c m]; [discriminate|]. cbn [forallb].
  intros F _. apply andb_true_iff in F as (F & _). eauto.
Qed.

(** The text of a well-formed address object: it starts with a character
    that is not whitespace, has no '/', and is read back as the object. *)
Lemma address_text (a : ip_addr) :
  wf_address a ->
  exists c t, str_of_address a = Ok (c :: t) /\ isspace c = false
              /\ contains SLASH (c :: t) = false
              /\ ip_address (c :: t) = Ok a.
Proof.
  destruct a as [x | x sc]; cbn [wf_address].
  - intros Hx.
    destruct (first_char _ _ (v4_text_chars x) (v4_text_not_empty x))
      as (c & t & E & Hc).
    exists c, t. cbn [str_of_address]. rewrite <- E.
    split; [reflexivity|]. split; [apply v4_char_not, Hc|].
    split; [apply v4_text_no; reflexivity|].
    unfold ip_address. rewrite IPv4Address_text by exact Hx. reflexivity.
  - intros (Hx & Hsc & Hsl).
    destruct (v6_string_total x Hx) as (t6 & T6).
    assert (exists t, str_of_address (V6 x sc) = Ok t) as (t & T).
    { cbn [str_of_address]. rewrite T6. cbn [bind].
      destruct sc as [s|]; [destruct (negb (is_empty s))|]; eauto. }
    destruct (IPv6Address_text x sc t Hx Hsc Hsl T)
      as (R & S & C & (c & t' & -> & Hc)).
    exists c, t'. repeat split; auto.
    unfold ip_address.
    rewrite (IPv4Address_rejects (c :: t') COLON);
      [|apply contains_In, C | reflexivity].
    cbn [is_Address_or_Netmask negb]. rewrite R. reflexivity.
Qed.

(** What [ip_address] accepts. *)
Lemma ip_address_inv (s : str) (a : ip_addr) :
  ip_address s = Ok a ->
  wf_address a /\ contains SLASH s = false
  /\ (exists c s', s = c :: s' /\ isspace c = false)
  /\ match a with
     | V4 x => IPv4Address s = Ok x
     | V6 x sc =>
         IPv4Address s = Raise AddressValueError /\ IPv6Address s = Ok (x, sc)
     end.
Proof.
  unfold ip_address. destruct (IPv4Address s) as [x|e] eqn:E4.
  - intros H. apply Ok_inj in H as <-.
    destruct (IPv4Address_inv _ _ E4) as (-> & Hx).
    destruct (first_char _ _ (v4_text_chars x) (v4_text_not_empty x))
      as (c & t & Et & Hc).
    repeat split; cbn [wf_address]; try lia; auto.
    + apply v4_text_no; reflexivity.
    + exists c, t. split; [exact Et | apply v4_char_not, Hc].
  - apply IPv4Address_error in E4 as ->. cbn [is_Address_or_Netmask negb].
    destruct (IPv6Address s) as [(x & sc)|e] eqn:E6;
      [|destruct (negb _); discriminate].
    intros H. apply Ok_inj in H as <-.
    destruct (IPv6Address_inv _ _ _ E6) as (Hx & Hsc & Hsl & Hco & addr & Pa & Es).
    destruct (v6_ip_int_from_string_inv _ _ Pa) as (Na & Fa & _).
    destruct (first_char _ _ Fa Na) as (c & t & Ea & Hc).
    split; [|split; [exact Hsl|split; [|split; reflexivity]]].
    + cbn [wf_address]. split; [exact Hx|]. split; [exact Hsc|].
      destruct sc as [sc|]; [|exact I].
      rewrite Es, contains_app in Hsl. apply orb_false_iff in Hsl as (_ & Hsl).
      unfold contains in *. cbn [existsb] in Hsl.
      apply orb_false_iff in Hsl as (_ & Hsl). exact Hsl.
    + exists c, (t ++ match sc with Some s0 => PERCENT :: s0 | None => [] end).
      split; [rewrite Es, Ea; reflexivity | apply v6_char_not, Hc].
Qed.

(* ================================================================== *)
(** * Networks *)
(* ================================================================== *)

Lemma zero_host_bits_wf (a : ip_addr) (p : Z) :
  wf_address a -> 0 <= p <= max_prefixlen_of a ->
  wf_address (network_address_of a p).
Proof.
  destruct a as [x | x sc]; cbn [wf_address network_address_of max_prefixlen_of].
  - intros Hx Hp. pose proof (zero_host_bits_range 32 p x Hp ltac:(lia)). lia.
  - intros (Hx & Hsc & Hsl) Hp.
    pose proof (zero_host_bits_range 128 p x Hp ltac:(lia)).
    split; [lia|]. destruct (_ =? x); cbn [valid_scope]; auto.
Qed.

Lemma network_address_of_idem (a : ip_addr) (p : Z) :
  0 <= p <= max_prefixlen_of a ->
  network_address_of (network_address_of a p) p = network_address_of a p.
Proof.
  destruct a as [x | x sc]; cbn [network_address_of max_prefixlen_of]; intros Hp.
  - rewrite zero_host_bits_idem by exact Hp. reflexivity.
  - rewrite zero_host_bits_idem by exact Hp. rewrite Z.eqb_refl. reflexivity.
Qed.

Lemma network_address_of_full (a : ip_addr) :
  network_address_of a (max_prefixlen_of a) = a.
Proof.
  destruct a as [x | x sc]; cbn [network_address_of max_prefixlen_of];
    rewrite zero_host_bits_full; [reflexivity|].
  rewrite Z.eqb_refl. reflexivity.
Qed.

Lemma make_netmask_of_inv (a : ip_addr) (arg : mask_arg) (mask p : Z) :
  make_netmask_of a arg = Ok (mask, p) ->
  0 <= p <= max_prefixlen_of a
  /\ mask = _ip_int_from_prefix (2 ^ max_prefixlen_of a - 1) p.
Proof.
  destruct a; cbn [make_netmask_of max_prefixlen_of].
  - apply V4_make_netmask_inv.
  - apply V6_make_netmask_inv.
Qed.

(** A mask text the library accepts ends with a character that is not
    whitespace and has no '/'. *)
Lemma prefix_string_chars (width p : Z) (m : str) :
  _prefix_from_prefix_string width m = Ok p ->
  forallb v4_char m = true /\ is_empty m = false.
Proof.
  unfold _prefix_from_prefix_string.
  destruct (isascii m && isdigit m) eqn:E; [|discriminate]. intros _.
  apply andb_true_iff in E as (_ & E). unfold isdigit in E.
  apply andb_true_iff in E as (N & F). apply negb_true_iff in N.
  split; [|exact N]. rewrite forallb_forall in *. intros c Hc.
  unfold v4_char. rewrite (F c Hc). reflexivity.
Qed.

Lemma make_netmask_of_chars (a : ip_addr) (m : str) (mask p : Z) :
  make_netmask_of a (MaskStr m) = Ok (mask, p) ->
  forallb v4_char m = true /\ is_empty m = false.
Proof.
  destruct a; cbn [make_netmask_of].
  - unfold BaseV4._make_netmask.
    destruct (_prefix_from_prefix_string BaseV4._max_prefixlen m) as [q|e] eqn:E;
      cbn [try_except].
    + intros _. exact (prefix_string_chars _ _ _ E).
    + destruct (is_NetmaskValueError e); [|discriminate].
      unfold _prefix_from_ip_string.
      destruct (BaseV4._ip_int_from_string m) as [ip|e'] eqn:E4;
        cbn [try_except bind];
        [|destruct (is_AddressValueError e'); discriminate].
      intros _. apply v4_int_from_string_inv in E4 as (-> & _).
      split; [apply v4_text_chars | apply v4_text_not_empty].
  - unfold BaseV6._make_netmask.
    destruct (_prefix_from_prefix_string BaseV6._max_prefixlen m) as [q|e] eqn:E;
      [|discriminate].
    intros _. exact (prefix_string_chars _ _ _ E).
Qed.

Lemma land_netmask_of (a : ip_addr) (p : Z) :
  wf_address a -> 0 <= p <= max_prefixlen_of a ->
  Z.land (int_of_address a)
         (_ip_int_from_prefix (2 ^ max_prefixlen_of a - 1) p)
  = int_of_address (network_address_of a p).
Proof.
  destruct a as [x | x sc];
    cbn [wf_address max_prefixlen_of int_of_address network_address_of].
  - intros Hx Hp. apply netmask_land; assumption.
  - intros (Hx & _) Hp. apply netmask_land; assumption.
Qed.

(** [ip_network] on an address text followed by '/' and a mask text. *)
Lemma ip_network_text (n m : str) (a : ip_addr) (mask p : Z) :
  ip_address n = Ok a ->
  make_netmask_of a (MaskStr m) = Ok (mask, p) ->
  ip_network (n ++ SLASH :: m) false
  = Ok (Network (network_address_of a p) mask p).
Proof.
  intros Ha Hm.
  destruct (ip_address_inv _ _ Ha) as (Wa & Sn & _ & Hv).
  destruct (make_netmask_of_chars _ _ _ _ Hm) as (Fm & _).
  destruct (make_netmask_of_inv _ _ _ _ Hm) as (Hp & Emask).
  pose proof (land_netmask_of a p Wa Hp) as L. rewrite <- Emask in L.
  assert (Sm : contains SLASH m = false)
    by (eapply forallb_contains_false; [exact Fm | reflexivity]).
  assert (Sp : split SLASH (n ++ SLASH :: m) = [n; m])
    by (rewrite (split_app_sep _ _ _ Sn), (split_no_sep _ _ Sm); reflexivity).
  unfold ip_network.
  destruct a as [x | x sc];
    cbn [make_netmask_of network_address_of int_of_address] in *.
  - unfold IPv4Network, _split_addr_prefix, _split_optional_netmask.
    rewrite Sp. cbn [List.length Nat.ltb Nat.leb bind]. rewrite Hv.
    cbn [bind]. rewrite Hm. cbn [bind]. rewrite L.
    destruct (Z.eqb_spec (zero_host_bits 32 p x) x) as [E | E]; cbn [negb].
    + rewrite E. reflexivity.
    + reflexivity.
  - destruct Hv as (H4 & H6).
    unfold IPv4Network, _split_addr_prefix, _split_optional_netmask.
    rewrite Sp. cbn [List.length Nat.ltb Nat.leb bind]. rewrite H4.
    cbn [bind is_Address_or_Netmask negb].
    unfold IPv6Network, _split_addr_prefix, _split_optional_netmask.
    rewrite Sp. cbn [List.length Nat.ltb Nat.leb bind]. rewrite H6.
    cbn [bind]. rewrite Hm. cbn [bind]. rewrite L.
    destruct (Z.eqb_spec (zero_host_bits 128 p x) x) as [E | E]; cbn [negb].
    + rewrite E. reflexivity.
    + reflexivity.
Qed.

(** What [ip_network] returns: a network address that is the network
    address of a well-formed address under the prefix length. *)
Lemma ip_network_inv (v : str) (net : network) :
  ip_network v false = Ok net ->
  exists a, wf_address a
    /\ 0 <= prefixlen net <= max_prefixlen_of a
    /\ network_address net = network_address_of a (prefixlen net).
Proof.
  assert (V4case : forall net, IPv4Network v false = Ok net ->
    exists a, wf_address a /\ 0 <= prefixlen net <= max_prefixlen_of a
      /\ network_address net = network_address_of a (prefixlen net)).
  { clear net. intros net. unfold IPv4Network.
    destruct (_split_addr_prefix BaseV4._max_prefixlen v) as [(addr & arg)|];
      [|discriminate]. cbn [bind].
    destruct (IPv4Address addr) as [x|] eqn:E4; [|discriminate]. cbn [bind].
    destruct (BaseV4._make_netmask arg) as [(mask & p)|] eqn:Em; [|discriminate].
    cbn [bind]. destruct (IPv4Address_inv _ _ E4) as (_ & Hx).
    destruct (V4_make_netmask_inv _ _ _ Em) as (Hp & ->).
    rewrite (netmask_land 32 p x Hp Hx).
    destruct (Z.eqb_spec (zero_host_bits 32 p x) x) as [E | E]; cbn [negb];
      intros H; apply Ok_inj in H as <-; exists (V4 x);
      cbn [wf_address max_prefixlen_of network_address_of prefixlen
           network_address];
      rewrite ?E; auto. }
  assert (V6case : forall net, IPv6Network v false = Ok net ->
    exists a, wf_address a /\ 0 <= prefixlen net <= max_prefixlen_of a
      /\ network_address net = network_address_of a (prefixlen net)).
  { clear net. intros net. unfold IPv6Network, _split_addr_prefix.
    destruct (_split_optional_netmask v) as [parts|] eqn:Sp; [|discriminate].
    cbn [bind].
    assert (exists addr arg,
      match parts with
      | [addr; mask] => @Ok error _ (addr, MaskStr mask)
      | _ => Ok (hd [] parts, MaskInt BaseV6._max_prefixlen)
      end = Ok (addr, arg)) as (addr & arg & ->).
    { destruct parts as [|p1 [|p2 [|p3 ps]]]; eauto. }
    cbn [bind].
    destruct (IPv6Address addr) as [(x & sc)|] eqn:E6; [|discriminate].
    cbn [bind].
    destruct (BaseV6._make_netmask arg) as [(mask & p)|] eqn:Em; [|discriminate].
    cbn [bind].
    destruct (IPv6Address_inv _ _ _ E6) as (Hx & Hsc & Hsl & _ & a0 & _ & Ea).
    destruct (V6_make_netmask_inv _ _ _ Em) as (Hp & ->).
    rewrite (netmask_land 128 p x Hp Hx).
    assert (Hs : match sc with Some s => contains SLASH s = false | None => True end).
    { destruct sc as [s0|]; [|exact I].
      rewrite Ea, contains_app in Hsl. apply orb_false_iff in Hsl as (_ & Hsl).
      unfold contains in *. cbn [existsb] in Hsl.
      apply orb_false_iff in Hsl as (_ & Hsl). exact Hsl. }
    destruct (Z.eqb_spec (zero_host_bits 128 p x) x) as [E | E]; cbn [negb];
      intros H; apply Ok_inj in H as <-; exists (V6 x sc);
      cbn [wf_address max_prefixlen_of network_address_of prefixlen
           network_address].
    - rewrite E, Z.eqb_refl. auto.
    - rewrite (proj2 (Z.eqb_neq _ _) E). auto. }
  unfold ip_network. destruct (IPv4Network v false) as [n4|e] eqn:E4.
  - intros H. apply Ok_inj in H as <-. apply V4case. reflexivity.
  - destruct (negb (is_Address_or_Netmask e)); [discriminate|].
    destruct (IPv6Network v false) as [n6|e'] eqn:E6;
      [|destruct (negb _); discriminate].
    intros H. apply Ok_inj in H as <-. apply V6case. reflexivity.
Qed.

(* ================================================================== *)
(** * [normalize_ip_or_cidr] *)
(* ================================================================== *)

(** On an address text followed by '/' and a mask text the library
    accepts for the address's class. *)
Lemma normalize_text (n m : str) (a : ip_addr) (mask p : Z) :
  ip_address n = Ok a ->
  make_netmask_of a (MaskStr m) = Ok (mask, p) ->
  exists t, str_of_address (network_address_of a p) = Ok t
    /\ normalize_ip_or_cidr (n ++ SLASH :: m)
       = Ok (t ++ lit "/" ++ str_of_int p).
Proof.
  intros Ha Hm.
  destruct (ip_address_inv _ _ Ha) as (Wa & _ & (c & n' & -> & Hc) & _).
  destruct (make_netmask_of_chars _ _ _ _ Hm) as (Fm & Nm).
  destruct (make_netmask_of_inv _ _ _ _ Hm) as (Hp & _).
  destruct (last_char _ _ Fm Nm) as (m' & d & Em & Hd).
  apply v4_char_not in Hd as (Hd & _).
  destruct (address_text _ (zero_host_bits_wf a p Wa Hp)) as (c' & t & T & _).
  exists (c' :: t). split; [exact T|].
  unfold normalize_ip_or_cidr. cbv zeta.
  assert (S : strip ((c :: n') ++ SLASH :: m) = (c :: n') ++ SLASH :: m).
  { rewrite Em.
    replace ((c :: n') ++ SLASH :: m' ++ [d])
      with (c :: (n' ++ SLASH :: m') ++ [d])
      by (cbn [app]; rewrite <- app_assoc; reflexivity).
    apply strip_ends; assumption. }
  rewrite S. cbn [app is_empty].
  change (c :: n' ++ SLASH :: m) with ((c :: n') ++ SLASH :: m).
  replace (contains SLASH ((c :: n') ++ SLASH :: m)) with true
    by (rewrite contains_app; unfold contains at 2; cbn [existsb];
        rewrite N.eqb_refl, orb_true_r; reflexivity).
  rewrite (ip_network_text _ _ _ _ _ Ha Hm).
  cbn [bind network_address prefixlen]. rewrite T. reflexivity.
Qed.

Lemma make_netmask_of_text (a : ip_addr) (p : Z) :
  0 <= p <= max_prefixlen_of a ->
  exists mask, make_netmask_of a (MaskStr (str_of_int p)) = Ok (mask, p).
Proof.
  destruct a; cbn [max_prefixlen_of make_netmask_of]; intros Hp; eexists.
  - apply V4_make_netmask_text, Hp.
  - apply V6_make_netmask_text, Hp.
Qed.

Lemma max_prefixlen_of_network (a : ip_addr) (p : Z) :
  max_prefixlen_of (network_address_of a p) = max_prefixlen_of a.
Proof. destruct a; reflexivity. Qed.

(** The text of an address followed by '/' and a prefix length is what the
    function returns for it when no host bit is set. *)
Lemma normalize_canonical (a : ip_addr) (p : Z) (t : str) :
  wf_address a -> 0 <= p <= max_prefixlen_of a ->
  network_address_of a p = a ->
  str_of_address a = Ok t ->
  normalize_ip_or_cidr (t ++ lit "/" ++ str_of_int p)
  = Ok (t ++ lit "/" ++ str_of_int p).
Proof.
  intros Wa Hp Ea T.
  destruct (address_text a Wa) as (c & t' & T' & _ & _ & R).
  rewrite T in T'. apply Ok_inj in T' as ->.
  destruct (make_netmask_of_text a p Hp) as (mask & Hm).
  destruct (normalize_text _ _ _ _ _ R Hm) as (t2 & T2 & N).
  rewrite Ea, T in T2. apply Ok_inj in T2 as <-.
  rewrite lit_slash. exact N.
Qed.

(** C5: [normalize_ip_or_cidr] is idempotent: applied to a result of its
    own, it returns that result. *)
Theorem normalize_idempotent (x y : str) :
  normalize_ip_or_cidr x = Ok y -> normalize_ip_or_cidr y = Ok y.
Proof.
  unfold normalize_ip_or_cidr at 1. cbv zeta.
  destruct (is_empty (strip x)); [discriminate|].
  destruct (contains SLASH (strip x)).
  - destruct (ip_network (strip x) false) as [net|] eqn:En; [|discriminate].
    cbn [bind].
    destruct (str_of_address (network_address net)) as [t|] eqn:T;
      [|discriminate].
    cbn [bind]. intros H. apply Ok_inj in H as <-.
    destruct (ip_network_inv _ _ En) as (a & Wa & Hp & Ea).
    rewrite Ea in T.
    apply (normalize_canonical (network_address_of a (prefixlen net))).
    + apply zero_host_bits_wf; assumption.
    + rewrite max_prefixlen_of_network. exact Hp.
    + apply network_address_of_idem, Hp.
    + exact T.
  - destruct (ip_address (strip x)) as [ip|] eqn:Ei; [|discriminate].
    cbn [bind].
    destruct (str_of_address ip) as [t|] eqn:T; [|discriminate].
    cbn [bind]. intros H. apply Ok_inj in H as <-.
    destruct (ip_address_inv _ _ Ei) as (Wa & _).
    replace (if version ip =? 4 then 32 else 128) with (max_prefixlen_of ip)
      by (destruct ip; reflexivity).
    apply (normalize_canonical ip).
    + exact Wa.
    + destruct ip; cbn [max_prefixlen_of]; lia.
    + apply network_address_of_full.
    + exact T.
Qed.

Lemma normalize_idempotent_witness :
  normalize_ip_or_cidr (lit "10.1.2.3/8") = Ok (lit "10.0.0.0/8")
  /\ normalize_ip_or_cidr (lit "10.0.0.0/8") = Ok (lit "10.0.0.0/8").
Proof.
  assert (H : normalize_ip_or_cidr (lit "10.1.2.3/8") = Ok (lit "10.0.0.0/8"))
    by (vm_compute; reflexivity).
  split; [exact H | exact (normalize_idempotent _ _ H)].
Defined.

(** C4: for a valid address [n] (IPv4 or IPv6) and a prefix length [p]
    within the width of its class, the function accepts [n/p] whether or
    not host bits are set, and returns the network address of [n/p], host
    bits cleared, followed by '/' and [p]. *)
Theorem normalize_network (n : str) (a : ip_addr) (p : Z) :
  ip_address n = Ok a -> 0 <= p <= max_prefixlen_of a ->
  exists t, str_of_address (network_address_of a p) = Ok t
    /\ normalize_ip_or_cidr (n ++ lit "/" ++ str_of_int p)
       = Ok (t ++ lit "/" ++ str_of_int p).
Proof.
  intros Ha Hp. destruct (make_netmask_of_text a p Hp) as (mask & Hm).
  rewrite lit_slash. exact (normalize_text _ _ _ _ _ Ha Hm).
Qed.

Lemma normalize_network_witness :
  exists t, str_of_address (network_address_of (V4 0x0A010203) 8) = Ok t
    /\ normalize_ip_or_cidr (lit "10.1.2.3" ++ lit "/" ++ str_of_int 8)
       = Ok (t ++ lit "/" ++ str_of_int 8).
Proof.
  apply (normalize_network (lit "10.1.2.3") (V4 0x0A010203) 8).
  - vm_compute. reflexivity.
  - cbn [max_prefixlen_of]. lia.
Defined.

(** The same with the mask in any form the library accepts. *)
Lemma normalize_network_examples :
  normalize_ip_or_cidr (lit "10.1.2.3/8") = Ok (lit "10.0.0.0/8")
  /\ normalize_ip_or_cidr (lit "10.1.2.3/255.255.255.0") = Ok (lit "10.1.2.0/24")
  /\ normalize_ip_or_cidr (lit "2001:db8::1/32") = Ok (lit "2001:db8::/32")
  /\ normalize_ip_or_cidr (lit "fe80::1%eth0/64") = Ok (lit "fe80::/64")
  /\ normalize_ip_or_cidr (lit "fe80::%eth0/64") = Ok (lit "fe80::%eth0/64").
Proof. vm_compute. repeat split; reflexivity. Qed.

(** C3: a valid IPv4 address without a mask comes back unchanged, with
    "/32" appended. *)
Theorem normalize_ipv4_address (a : str) (x : Z) :
  ip_address a = Ok (V4 x) ->
  normalize_ip_or_cidr a = Ok (a ++ lit "/32").
Proof.
  intros Ha. destruct (ip_address_inv _ _ Ha) as (_ & Sl & _ & H4).
  destruct (IPv4Address_inv _ _ H4) as (E & _).
  unfold normalize_ip_or_cidr. cbv zeta.
  assert (S : strip a = a)
    by (rewrite E; apply strip_no_space, v4_text_no_space).
  rewrite S, Sl, Ha.
  replace (is_empty a) with false by (rewrite E, v4_text_not_empty; reflexivity).
  cbn [bind version Z.eqb Pos.eqb str_of_address]. rewrite <- E.
  do 2 f_equal.
Qed.

Lemma normalize_ipv4_address_witness :
  normalize_ip_or_cidr (lit "10.0.0.1") = Ok (lit "10.0.0.1" ++ lit "/32").
Proof.
  apply (normalize_ipv4_address (lit "10.0.0.1") 0x0A000001).
  vm_compute. reflexivity.
Defined.

(** C2, as the specification words it, fails on the code: "::0" is a
    valid IPv6 address, and the function returns "::/128" for it, not
    "::0/128". *)
Lemma normalize_ipv6_rewrites :
  ip_address (lit "::0") = Ok (V6 0 None)
  /\ normalize_ip_or_cidr (lit "::0") = Ok (lit "::/128")
  /\ normalize_ip_or_cidr (lit "::0") <> Ok (lit "::0" ++ lit "/128").
Proof.
  split; [vm_compute; reflexivity|].
  split; [vm_compute; reflexivity|].
  vm_compute. discriminate.
Qed.

(** A valid IPv6 address without a zone identifier has no whitespace. *)
Lemma ipv6_address_no_space (a : str) (x : Z) :
  ip_address a = Ok (V6 x None) -> strip a = a.
Proof.
  intros Ha. destruct (ip_address_inv _ _ Ha) as (_ & _ & _ & _ & H6).
  destruct (IPv6Address_inv _ _ _ H6) as (_ & _ & _ & _ & addr & P & ->).
  rewrite app_nil_r. apply strip_no_space.
  destruct (v6_ip_int_from_string_inv _ _ P) as (_ & F & _).
  eapply forallb_existsb_false; [exact F|].
  intros c Hc. apply v6_char_not, Hc.
Qed.

(** C2 (amended): a valid IPv6 address without a mask and without
    leading or trailing whitespace (as every one without a zone identifier
    is) comes back in the library's canonical text, followed by "/128";
    that is the input with "/128" appended exactly when the input is
    already in canonical text. *)
Theorem normalize_ipv6_address (a : str) (x : Z) (sc : option str) :
  ip_address a = Ok (V6 x sc) -> sc = None \/ strip a = a ->
  exists t, str_of_address (V6 x sc) = Ok t
    /\ normalize_ip_or_cidr a = Ok (t ++ lit "/128")
    /\ (normalize_ip_or_cidr a = Ok (a ++ lit "/128") <-> a = t).
Proof.
  intros Ha Hs.
  assert (S : strip a = a).
  { destruct Hs as [-> | Hs]; [exact (ipv6_address_no_space _ _ Ha) | exact Hs]. }
  destruct (ip_address_inv _ _ Ha) as (Wa & Sl & (c & a' & Ea & _) & _).
  destruct (address_text _ Wa) as (c' & t & T & _).
  exists (c' :: t). split; [exact T|].
  assert (N : normalize_ip_or_cidr a = Ok ((c' :: t) ++ lit "/128")).
  { unfold normalize_ip_or_cidr. cbv zeta. rewrite S, Sl, Ha.
    replace (is_empty a) with false by (rewrite Ea; reflexivity).
    cbn [bind version Z.eqb]. rewrite T. reflexivity. }
  split; [exact N|]. rewrite N. split.
  - intros H. apply Ok_inj, app_inv_tail in H. congruence.
  - intros ->. reflexivity.
Qed.

Lemma normalize_ipv6_address_witness :
  exists t,
    str_of_address (V6 0x20010db8000000000000000000000001 None) = Ok t
    /\ normalize_ip_or_cidr (lit "2001:DB8::1") = Ok (t ++ lit "/128")
    /\ (normalize_ip_or_cidr (lit "2001:DB8::1")
        = Ok (lit "2001:DB8::1" ++ lit "/128") <-> lit "2001:DB8::1" = t).
Proof.
  apply (normalize_ipv6_address (lit "2001:DB8::1")
           0x20010db8000000000000000000000001 None).
  - vm_compute. reflexivity.
  - left. reflexivity.
Defined.

(** The canonical text of every 128-bit address is a valid address that
    comes back unchanged with "/128" appended. *)
Lemma normalize_ipv6_canonical (x : Z) (t : str) :
  0 <= x < 2 ^ 128 -> str_of_address (V6 x None) = Ok t ->
  ip_address t = Ok (V6 x None)
  /\ normalize_ip_or_cidr t = Ok (t ++ lit "/128").
Proof.
  intros Hx T.
  assert (Wa : wf_address (V6 x None)) by (cbn; auto).
  destruct (address_text _ Wa) as (c & t' & T' & _ & Sl & R).
  rewrite T in T'. apply Ok_inj in T' as ->. split; [exact R|].
  unfold normalize_ip_or_cidr. cbv zeta.
  rewrite (ipv6_address_no_space _ _ R), Sl, R.
  cbn [is_empty bind version Z.eqb]. rewrite T. reflexivity.
Qed.

(* ================================================================== *)
(** * [normalize_ip_or_cidr]: further properties *)
(* ================================================================== *)

(** What a result is: the text of an address without host bits under the
    prefix length that follows it. *)
Lemma normalize_Ok_network (value r : str) :
  normalize_ip_or_cidr value = Ok r ->
  exists a p t,
    wf_address a /\ 0 <= p <= max_prefixlen_of a
    /\ network_address_of a p = a
    /\ str_of_address a = Ok t
    /\ r = t ++ lit "/" ++ str_of_int p.
Proof.
  unfold normalize_ip_or_cidr. cbv zeta.
  destruct (is_empty (strip value)); [discriminate|].
  destruct (contains SLASH (strip value)).
  - destruct (ip_network (strip value) false) as [net|] eqn:En; [|discriminate].
    cbn [bind].
    destruct (str_of_address (network_address net)) as [t|] eqn:T;
      [|discriminate].
    cbn [bind]. intros H. apply Ok_inj in H as <-.
    destruct (ip_network_inv _ _ En) as (a & Wa & Hp & Ea).
    rewrite Ea in T.
    exists (network_address_of a (prefixlen net)), (prefixlen net), t.
    split; [apply zero_host_bits_wf; assumption|].
    split; [rewrite max_prefixlen_of_network; exact Hp|].
    split; [apply network_address_of_idem, Hp|].
    split; [exact T | reflexivity].
  - destruct (ip_address (strip value)) as [ip|] eqn:Ei; [|discriminate].
    cbn [bind].
    destruct (str_of_address ip) as [t|] eqn:T; [|discriminate].
    cbn [bind]. intros H. apply Ok_inj in H as <-.
    destruct (ip_address_inv _ _ Ei) as (Wa & _).
    replace (if version ip =? 4 then 32 else 128) with (max_prefixlen_of ip)
      by (destruct ip; reflexivity).
    exists ip, (max_prefixlen_of ip), t.
    split; [exact Wa|].
    split; [destruct ip; cbn [max_prefixlen_of]; lia|].
    split; [apply network_address_of_full|].
    split; [exact T | reflexivity].
Qed.

Lemma normalize_fixed (value r : str) :
  normalize_ip_or_cidr value = Ok r -> normalize_ip_or_cidr r = Ok r.
Proof.
  intros H.
  destruct (normalize_Ok_network _ _ H) as (a & p & t & Wa & Hp & Ea & T & ->).
  apply (normalize_canonical a); assumption.
Qed.

(** X23: every result of [normalize_ip_or_cidr] is the text of an address
    in which no host bit is set, then '/', then the prefix length in
    decimal, which is at most 32 for IPv4 and 128 for IPv6. *)
Theorem normalize_result_is_network (value r : str) :
  normalize_ip_or_cidr value = Ok r ->
  exists a p t,
    wf_address a /\ 0 <= p <= max_prefixlen_of a
    /\ network_address_of a p = a
    /\ str_of_address a = Ok t
    /\ r = t ++ lit "/" ++ str_of_int p.
Proof. apply normalize_Ok_network. Qed.

Lemma normalize_result_is_network_witness :
  exists a p t,
    wf_address a /\ 0 <= p <= max_prefixlen_of a
    /\ network_address_of a p = a
    /\ str_of_address a = Ok t
    /\ lit "10.0.0.0/8" = t ++ lit "/" ++ str_of_int p.
Proof.
  apply (normalize_result_is_network (lit "10.1.2.3/8") (lit "10.0.0.0/8")).
  vm_compute. reflexivity.
Defined.

(** X24: whitespace around the input does not count: an input is accepted
    exactly when its trimmed form is, with the same result. *)
Theorem normalize_trims (value r : str) :
  normalize_ip_or_cidr value = Ok r
  <-> normalize_ip_or_cidr (strip value) = Ok r.
Proof.
  unfold normalize_ip_or_cidr. cbv zeta. rewrite strip_idempotent.
  destruct (is_empty (strip value)); [reflexivity|].
  match goal with
  | |- match ?m with _ => _ end = _ <-> _ => destruct m
  end; split; intros H; first [exact H | discriminate H].
Qed.

(** X25: leaving the mask out means the full width: a valid address
    without whitespace around it normalizes to the same text with and
    without [/32] (IPv4) or [/128] (IPv6) after it. *)
Theorem normalize_default_mask (n : str) (a : ip_addr) :
  ip_address n = Ok a -> strip n = n ->
  normalize_ip_or_cidr (n ++ lit "/" ++ str_of_int (max_prefixlen_of a))
  = normalize_ip_or_cidr n.
Proof.
  intros Ha Hs.
  destruct (ip_address_inv _ _ Ha) as (Wa & Sn & (c & n' & En & Hc) & _).
  assert (Hp : 0 <= max_prefixlen_of a <= max_prefixlen_of a)
    by (destruct a; cbn [max_prefixlen_of]; lia).
  destruct (make_netmask_of_text a _ Hp) as (mask & Hm).
  destruct (normalize_text _ _ _ _ _ Ha Hm) as (t & T & N).
  rewrite lit_slash. cbn [app]. rewrite N.
  rewrite network_address_of_full in T.
  unfold normalize_ip_or_cidr. cbv zeta. rewrite Hs, Sn, Ha. cbn [bind].
  rewrite En at 1. cbn [is_empty]. rewrite T. cbn [bind].
  replace (if version a =? 4 then 32 else 128) with (max_prefixlen_of a)
    by (destruct a; reflexivity).
  reflexivity.
Qed.

Lemma normalize_default_mask_witness :
  normalize_ip_or_cidr
    (lit "10.0.0.1" ++ lit "/" ++ str_of_int (max_prefixlen_of (V4 0x0A000001)))
  = normalize_ip_or_cidr (lit "10.0.0.1").
Proof.
  apply (normalize_default_mask (lit "10.0.0.1") (V4 0x0A000001));
    vm_compute; reflexivity.
Defined.

(** ** Masks of IPv4 in dotted form *)

(** Checked on each prefix length: the dotted netmask is read as the
    prefix length, and so is the dotted host mask from 1 to 31. *)
Lemma V4_make_netmask_dotted (p : Z) :
  0 <= p <= 32 ->
  BaseV4._make_netmask (MaskStr (BaseV4._string_from_ip_int (v4_netmask p)))
  = Ok (_ip_int_from_prefix (2 ^ 32 - 1) p, p)
  /\ (1 <= p <= 31 ->
      BaseV4._make_netmask (MaskStr (BaseV4._string_from_ip_int (v4_hostmask p)))
      = Ok (_ip_int_from_prefix (2 ^ 32 - 1) p, p)).
Proof.
  intros Hp.
  set (ok := fun (m : Z) (p : Z) =>
    match BaseV4._make_netmask (MaskStr (BaseV4._string_from_ip_int m)) with
    | Ok (mask, q) => (mask =? _ip_int_from_prefix (2 ^ 32 - 1) p) && (q =? p)
    | Raise _ => false
    end).
  assert (E : forall m, ok m p = true ->
            BaseV4._make_netmask (MaskStr (BaseV4._string_from_ip_int m))
            = Ok (_ip_int_from_prefix (2 ^ 32 - 1) p, p)).
  { intros m. unfold ok.
    destruct (BaseV4._make_netmask _) as [(mask & q)|]; [|discriminate].
    intros H. apply andb_true_iff in H as (H1 & H2).
    apply Z.eqb_eq in H1, H2. subst. reflexivity. }
  split.
  - apply E.
    apply (zrange_forallb (fun p => ok (v4_netmask p) p) 0 33);
      [vm_compute; reflexivity | lia].
  - intros Hp'. apply E.
    apply (zrange_forallb (fun p => ok (v4_hostmask p) p) 1 31);
      [vm_compute; reflexivity | lia].
Qed.

(** X26: for a valid IPv4 address, a mask written as a dotted netmask
    means the same as its prefix length, and so does a dotted host mask
    for the prefix lengths 1 to 31: the result is the address with the host
    bits cleared, '/', and the prefix length. *)
Theorem normalize_ipv4_dotted_mask (n : str) (x p : Z) :
  ip_address n = Ok (V4 x) -> 0 <= p <= 32 ->
  normalize_ip_or_cidr (n ++ lit "/" ++ BaseV4._string_from_ip_int (v4_netmask p))
  = Ok (BaseV4._string_from_ip_int (zero_host_bits 32 p x) ++ lit "/"
        ++ str_of_int p)
  /\ (1 <= p <= 31 ->
      normalize_ip_or_cidr
        (n ++ lit "/" ++ BaseV4._string_from_ip_int (v4_hostmask p))
      = Ok (BaseV4._string_from_ip_int (zero_host_bits 32 p x) ++ lit "/"
            ++ str_of_int p)).
Proof.
  intros Ha Hp. destruct (V4_make_netmask_dotted p Hp) as (Hn & Hh).
  rewrite lit_slash. cbn [app]. split.
  - destruct (normalize_text n _ (V4 x) _ p Ha Hn) as (t & T & N).
    cbn [network_address_of str_of_address] in T. apply Ok_inj in T as <-.
    rewrite lit_slash in N. exact N.
  - intros Hp'.
    destruct (normalize_text n _ (V4 x) _ p Ha (Hh Hp')) as (t & T & N).
    cbn [network_address_of str_of_address] in T. apply Ok_inj in T as <-.
    rewrite lit_slash in N. exact N.
Qed.

Lemma normalize_ipv4_dotted_mask_witness :
  normalize_ip_or_cidr (lit "10.1.2.3/255.255.255.0") = Ok (lit "10.1.2.0/24")
  /\ normalize_ip_or_cidr (lit "10.1.2.3/0.0.0.255") = Ok (lit "10.1.2.0/24").
Proof.
  destruct (normalize_ipv4_dotted_mask (lit "10.1.2.3") 0x0A010203 24
              ltac:(vm_compute; reflexivity) ltac:(lia)) as (H1 & H2).
  split; [exact H1 | exact (H2 ltac:(lia))].
Defined.

(** ** What the file reader returns *)

Lemma normalize_each_fixed (values ips : list str) :
  normalize_each values = Ok ips ->
  Forall (fun ip => normalize_ip_or_cidr ip = Ok ip) ips.
Proof.
  revert ips. induction values as [|v values IH]; intros ips.
  - intros H. apply Ok_inj in H as <-. constructor.
  - cbn [normalize_each].
    destruct (normalize_ip_or_cidr v) as [ip|] eqn:E; [|discriminate].
    cbn [bind]. destruct (normalize_each values) as [l|]; [|discriminate].
    cbn [bind]. intros H. apply Ok_inj in H as <-.
    constructor; [exact (normalize_fixed _ _ E) | apply IH; reflexivity].
Qed.

Section ReadIps.

Variable readlines : str -> res exn (list str).
Variable csv_reader : str -> res exn (list (list str)).
Variable splitext : str -> str * str.
Variable lower : str -> str.

(** X27: what [read_ips_from_file] returns is a list, not empty, of
    addresses in normalized form: normalizing one again returns it. *)
Theorem read_ips_from_file_normalized (path : str) (ips : list str) :
  read_ips_from_file readlines csv_reader splitext lower path = Ok ips ->
  ips <> []
  /\ Forall (fun ip => normalize_ip_or_cidr ip = Ok ip) ips.
Proof.
  rewrite read_ips_spec.
  destruct (file_cells readlines csv_reader splitext lower path) as [cells|];
    [|discriminate].
  cbn [bind].
  destruct (normalize_each (nonblank_members cells)) as [l|] eqn:E;
    [|discriminate].
  cbn [bind]. destruct l as [|ip l]; [discriminate|]. cbn [is_nil].
  intros H. apply Ok_inj in H as <-. split; [discriminate|].
  exact (normalize_each_fixed _ _ E).
Qed.

End ReadIps.

Lemma read_ips_from_file_normalized_witness :
  [lit "10.0.0.0/8"; lit "2001:db8::1/128"] <> []
  /\ Forall (fun ip => normalize_ip_or_cidr ip = Ok ip)
       [lit "10.0.0.0/8"; lit "2001:db8::1/128"].
Proof.
  apply (read_ips_from_file_normalized example_readlines example_csv_reader
           example_splitext example_lower (lit "ips2.txt")).
  vm_compute. reflexivity.
Defined.

(** ** A prefix length beyond the width of the address *)

Lemma horner_app (base : Z) (s : str) (c : char) :
  horner base (s ++ [c]) = horner base s * base + digit_value c.
Proof. unfold horner. rewrite fold_left_app. reflexivity. Qed.

Lemma decimal_digit_value (d : Z) :
  0 <= d < 10 ->
  digit_value (decimal_digit d) = d
  /\ is_decimal_digit (decimal_digit d) = true.
Proof.
  intros H.
  assert (C : d = 0 \/ d = 1 \/ d = 2 \/ d = 3 \/ d = 4 \/ d = 5 \/ d = 6
              \/ d = 7 \/ d = 8 \/ d = 9) by lia.
  repeat destruct C as [-> | C]; try subst d; split; reflexivity.
Qed.

(** The decimal digits of a number read back as the number. *)
Lemma digits_of_decimal (fuel : nat) (n : Z) :
  0 <= n < 2 ^ Z.of_nat (S fuel) ->
  horner 10 (digits_of (S fuel) 10 n decimal_digit) = n
  /\ forallb is_decimal_digit (digits_of (S fuel) 10 n decimal_digit) = true
  /\ digits_of (S fuel) 10 n decimal_digit <> [].
Proof.
  revert n. induction fuel as [|fuel IH]; intros n Hn.
  - change (2 ^ Z.of_nat 1) with 2 in Hn. cbn [digits_of].
    replace (n <? 10) with true by (symmetry; apply Z.ltb_lt; lia).
    destruct (decimal_digit_value n ltac:(lia)) as (V & D).
    unfold horner. cbn [fold_left forallb]. rewrite V, D.
    split; [lia|]. split; [reflexivity | discriminate].
  - remember (S fuel) as k. cbn [digits_of].
    destruct (n <? 10) eqn:E.
    + apply Z.ltb_lt in E.
      destruct (decimal_digit_value n ltac:(lia)) as (V & D).
      unfold horner. cbn [fold_left forallb]. rewrite V, D.
      split; [lia|]. split; [reflexivity | discriminate].
    + apply Z.ltb_ge in E.
      assert (Hq : 0 <= n / 10 < 2 ^ Z.of_nat k).
      { rewrite Nat2Z.inj_succ, Z.pow_succ_r in Hn by lia.
        split; [apply Z.div_pos; lia|].
        apply Z.div_lt_upper_bound; lia. }
      subst k. destruct (IH _ Hq) as (V & D & N).
      destruct (decimal_digit_value (n mod 10)
                  ltac:(apply Z.mod_pos_bound; lia)) as (V' & D').
      rewrite horner_app, V, V', forallb_app, D. cbn [forallb]. rewrite D'.
      split; [rewrite (Z.div_mod n 10) at 3 by lia; lia|].
      split; [reflexivity|].
      intros C. apply app_eq_nil in C as (_ & C). discriminate.
Qed.

Lemma str_of_int_decimal (p : Z) :
  0 <= p ->
  horner 10 (str_of_int p) = p
  /\ forallb is_decimal_digit (str_of_int p) = true
  /\ str_of_int p <> [].
Proof.
  intros Hp. unfold str_of_int. apply digits_of_decimal.
  split; [exact Hp|].
  rewrite Nat2Z.inj_succ, Z2Nat.id by apply Z.log2_nonneg.
  destruct (Z.eq_dec p 0) as [-> | Hn]; [reflexivity|].
  apply Z.log2_spec. lia.
Qed.

Lemma prefix_string_too_large (width p : Z) :
  0 <= width < p ->
  _prefix_from_prefix_string width (str_of_int p) = Raise NetmaskValueError.
Proof.
  intros H. destruct (str_of_int_decimal p ltac:(lia)) as (V & _ & _).
  unfold _prefix_from_prefix_string, int_of_digits.
  destruct (negb _); [reflexivity|].
  destruct (is_empty _); [reflexivity|].
  destruct (_ && _); [reflexivity|].
  rewrite V.
  replace ((0 <=? p) && (p <=? width)) with false; [reflexivity|].
  symmetry. apply andb_false_iff. right. apply Z.leb_gt. lia.
Qed.

Lemma v4_no_dot_no_address (m : str) :
  contains DOT m = false ->
  BaseV4._ip_int_from_string m = Raise AddressValueError.
Proof.
  intros H. unfold BaseV4._ip_int_from_string.
  destruct (is_empty m); [reflexivity|].
  cbv zeta. rewrite (split_no_sep _ _ H). reflexivity.
Qed.

Lemma V4_make_netmask_too_large (p : Z) :
  32 < p ->
  BaseV4._make_netmask (MaskStr (str_of_int p)) = Raise NetmaskValueError.
Proof.
  intros H. unfold BaseV4._make_netmask.
  change BaseV4._max_prefixlen with 32.
  rewrite prefix_string_too_large by lia.
  cbn [try_except is_NetmaskValueError]. unfold _prefix_from_ip_string.
  rewrite v4_no_dot_no_address; [reflexivity|].
  destruct (str_of_int_decimal p ltac:(lia)) as (_ & D & _).
  apply (digits_no _ _ D). reflexivity.
Qed.

Lemma V6_make_netmask_too_large (p : Z) :
  128 < p ->
  BaseV6._make_netmask (MaskStr (str_of_int p)) = Raise NetmaskValueError.
Proof.
  intros H. unfold BaseV6._make_netmask.
  change BaseV6._max_prefixlen with 128.
  rewrite prefix_string_too_large by lia. reflexivity.
Qed.

(** The text of an IPv4 address is no IPv6 address. *)
Lemma IPv6Address_of_v4_text (n : str) (x : Z) :
  IPv4Address n = Ok x -> IPv6Address n = Raise AddressValueError.
Proof.
  intros H. apply IPv4Address_inv in H as (-> & _).
  unfold IPv6Address. cbv zeta.
  rewrite v4_text_no by reflexivity.
  unfold BaseV6._split_scope_id.
  rewrite partition_not_found by (apply v4_text_no; reflexivity).
  cbn [negb bind]. rewrite v6_ip_int_from_string_unfold.
  rewrite v4_text_not_empty. cbv zeta.
  rewrite split_no_sep by (apply v4_text_no; reflexivity).
  reflexivity.
Qed.

Lemma ip_network_too_large (n : str) (a : ip_addr) (p : Z) :
  ip_address n = Ok a -> max_prefixlen_of a < p ->
  ip_network (n ++ SLASH :: str_of_int p) false = Raise ValueError.
Proof.
  intros Ha Hp.
  destruct (ip_address_inv _ _ Ha) as (_ & Sn & _ & Hv).
  assert (P0 : 0 <= p) by (destruct a; cbn [max_prefixlen_of] in Hp; lia).
  destruct (str_of_int_decimal p P0) as (_ & D & _).
  assert (Sm : contains SLASH (str_of_int p) = false)
    by (apply (digits_no _ _ D); reflexivity).
  assert (Sp : split SLASH (n ++ SLASH :: str_of_int p) = [n; str_of_int p])
    by (rewrite (split_app_sep _ _ _ Sn), (split_no_sep _ _ Sm); reflexivity).
  unfold ip_network. destruct a as [x | x sc]; cbn [max_prefixlen_of] in Hp.
  - unfold IPv4Network, _split_addr_prefix, _split_optional_netmask.
    rewrite Sp. cbn [List.length Nat.ltb Nat.leb bind]. rewrite Hv.
    cbn [bind]. rewrite (V4_make_netmask_too_large p Hp).
    cbn [bind is_Address_or_Netmask is_AddressValueError is_NetmaskValueError
         orb negb].
    unfold IPv6Network, _split_addr_prefix, _split_optional_netmask.
    rewrite Sp. cbn [List.length Nat.ltb Nat.leb bind].
    rewrite (IPv6Address_of_v4_text _ _ Hv). reflexivity.
  - destruct Hv as (H4 & H6).
    unfold IPv4Network, _split_addr_prefix, _split_optional_netmask.
    rewrite Sp. cbn [List.length Nat.ltb Nat.leb bind]. rewrite H4.
    cbn [bind is_Address_or_Netmask negb].
    unfold IPv6Network, _split_addr_prefix, _split_optional_netmask.
    rewrite Sp. cbn [List.length Nat.ltb Nat.leb bind]. rewrite H6.
    cbn [bind]. rewrite (V6_make_netmask_too_large p Hp). reflexivity.
Qed.

(** X28: a prefix length greater than the width of the address, 32 for
    IPv4 and 128 for IPv6, is refused. *)
Theorem normalize_prefix_too_large (n : str) (a : ip_addr) (p : Z) :
  ip_address n = Ok a -> max_prefixlen_of a < p ->
  normalize_ip_or_cidr (n ++ lit "/" ++ str_of_int p)
  = Raise (invalid_ip (n ++ lit "/" ++ str_of_int p)).
Proof.
  intros Ha Hp.
  destruct (ip_address_inv _ _ Ha) as (_ & _ & (c & n' & -> & Hc) & _).
  assert (P0 : 0 <= p) by (destruct a; cbn [max_prefixlen_of] in Hp; lia).
  destruct (str_of_int_decimal p P0) as (_ & D & N).
  destruct (last_char _ _ D (proj2 (is_empty_false _) N)) as (m' & d & Em & Hd).
  assert (Hd' : isspace d = false).
  { apply v4_char_not. unfold v4_char. rewrite Hd. reflexivity. }
  rewrite lit_slash. cbn [app].
  unfold normalize_ip_or_cidr, invalid_ip. cbv zeta.
  assert (S : strip (c :: n' ++ SLASH :: str_of_int p)
              = c :: n' ++ SLASH :: str_of_int p).
  { rewrite Em.
    replace (c :: n' ++ SLASH :: m' ++ [d])
      with (c :: (n' ++ SLASH :: m') ++ [d])
      by (rewrite <- app_assoc; reflexivity).
    apply strip_ends; assumption. }
  rewrite S. cbn [is_empty].
  change (c :: n' ++ SLASH :: str_of_int p)
    with ((c :: n') ++ SLASH :: str_of_int p).
  replace (contains SLASH ((c :: n') ++ SLASH :: str_of_int p)) with true
    by (rewrite contains_app; unfold contains at 2; cbn [existsb];
        rewrite N.eqb_refl, orb_true_r; reflexivity).
  rewrite (ip_network_too_large _ _ _ Ha Hp). reflexivity.
Qed.

Lemma normalize_prefix_too_large_witness :
  normalize_ip_or_cidr (lit "10.0.0.1" ++ lit "/" ++ str_of_int 33)
  = Raise (invalid_ip (lit "10.0.0.1" ++ lit "/" ++ str_of_int 33)).
Proof.
  apply (normalize_prefix_too_large (lit "10.0.0.1") (V4 0x0A000001) 33).
  - vm_compute. reflexivity.
  - cbn [max_prefixlen_of]. lia.
Defined.
